(** * Macman backend v2: license activation and update resolution

    A shallow embedding of the decision logic of
    [src/utils/licenseKey.ts], [src/services/license.service.ts],
    [src/services/update.service.ts] and of the request schemas that guard
    them, with the properties of the specification stated over it.

    Storage (the Prisma client) is an explicit [Store] value threaded
    through every operation: each [await prisma.<table>.<op>] is one pure
    function on the store.  Clock readings ([new Date()]) are an argument
    [now], in milliseconds; a call reads the clock once. *)

From Stdlib Require Import ZArith List String Ascii Bool Lia DecimalString DecimalNat.
From Stdlib Require Import Permutation Sorted.
Import ListNotations.

Local Open Scope Z_scope.
Local Open Scope list_scope.

(** ** Small helpers shared by the tables *)

Definition bind {A B : Type} (o : option A) (k : A -> option B) : option B :=
  match o with
  | Some a => k a
  | None => None
  end.

Notation "x <- e ;; k" := (bind e (fun x => k))
  (at level 61, e at next level, right associativity).

(** Template literals print a number in decimal. *)
Definition showZ (z : Z) : string := NilZero.string_of_int (Z.to_int z).

(** [prisma.<table>.update({ where: { id }, data })]: the row selected by
    [sel] is rewritten by [f], every other row is left alone. *)
Definition updateWhere {A : Type} (sel : A -> bool) (f : A -> A) (rows : list A) : list A :=
  map (fun r => if sel r then f r else r) rows.

(** ** [src/utils/licenseKey.ts] *)

Module LicenseKey.

Definition isUpper (c : ascii) : bool :=
  ((65 <=? nat_of_ascii c) && (nat_of_ascii c <=? 90))%nat.

Definition isDigit (c : ascii) : bool :=
  ((48 <=? nat_of_ascii c) && (nat_of_ascii c <=? 57))%nat.

(** The character class [[A-Z0-9]]. *)
Definition keyChar (c : ascii) : bool := isUpper c || isDigit c.

(** Match the literal [p] at the head of [s]; the rest of [s] is returned. *)
Fixpoint literal (p s : string) : option string :=
  match p with
  | EmptyString => Some s
  | String a p' =>
      match s with
      | String b s' => if Ascii.eqb a b then literal p' s' else None
      | EmptyString => None
      end
  end.

(** Match [[A-Z0-9]{n}] at the head of [s]. *)
Fixpoint segment (n : nat) (s : string) : option string :=
  match n with
  | O => Some s
  | S n' =>
      match s with
      | String c s' => if keyChar c then segment n' s' else None
      | EmptyString => None
      end
  end.

(** [/^MACMAN-[A-Z0-9]{5}-[A-Z0-9]{5}-[A-Z0-9]{5}$/.test(key)] *)
Definition isValidLicenseKeyFormat (key : string) : bool :=
  match (r1 <- literal "MACMAN-" key ;;
         r2 <- segment 5 r1 ;;
         r3 <- literal "-" r2 ;;
         r4 <- segment 5 r3 ;;
         r5 <- literal "-" r4 ;;
         segment 5 r5) with
  | Some EmptyString => true
  | _ => false
  end.

(** A JavaScript number as this code meets it: an integer (doubles are
    exact below 2^53) or [NaN]. *)
Inductive number : Type :=
| NaN
| Num (z : Z).

(** [version.split('.')]: always at least one part. *)
Fixpoint split (s : string) : list string :=
  match s with
  | EmptyString => [EmptyString]
  | String c s' =>
      if Ascii.eqb c "." then EmptyString :: split s'
      else match split s' with
           | p :: ps => String c p :: ps
           | [] => [String c EmptyString]
           end
  end.

(** Value of a run of decimal digits, most significant first. *)
Fixpoint digitsValue (acc : Z) (s : string) : option Z :=
  match s with
  | EmptyString => Some acc
  | String c s' =>
      if isDigit c
      then digitsValue (acc * 10 + (Z.of_nat (nat_of_ascii c) - 48)) s'
      else None
  end.

(** [Number(part)] on the parts of a version string.  A run of decimal
    digits reads as its value and the empty part as 0; a part with any
    other character is read as [NaN].  The further literal forms
    JavaScript accepts here (a sign, an exponent, a radix prefix, blanks
    around the digits, [Infinity]) do not occur in version numbers and are
    outside this model. *)
Definition Number (s : string) : number :=
  match digitsValue 0 s with
  | Some v => Num v
  | None => NaN
  end.

Definition mul (a b : number) : number :=
  match a, b with
  | Num x, Num y => Num (x * y)
  | _, _ => NaN
  end.

Definition add (a b : number) : number :=
  match a, b with
  | Num x, Num y => Num (x + y)
  | _, _ => NaN
  end.

(** [parts[i] || 0]: [undefined], [NaN] and [0] are falsy. *)
Definition orZero (part : option number) : number :=
  match part with
  | Some (Num z) => Num z
  | Some NaN => Num 0
  | None => Num 0
  end.

(** [parts[0]] in arithmetic position: [undefined] converts to [NaN]. *)
Definition first (parts : list number) : number :=
  match parts with
  | p :: _ => p
  | [] => NaN
  end.

Definition versionToBuildNumber (version : string) : number :=
  let parts := map Number (split version) in
  add (add (mul (first parts) (Num 10000))
           (mul (orZero (nth_error parts 1)) (Num 100)))
      (orZero (nth_error parts 2)).

(** [crypto.randomBytes(3).toString('base64')]: three bytes are four
    characters of the base64 alphabet, with no padding. *)
Definition base64Char (n : nat) : ascii :=
  if (n <? 26)%nat then ascii_of_nat (65 + n)
  else if (n <? 52)%nat then ascii_of_nat (97 + (n - 26))
  else if (n <? 62)%nat then ascii_of_nat (48 + (n - 52))
  else if (n =? 62)%nat then "+"%char
  else "/"%char.

Definition base64 (b0 b1 b2 : Byte.byte) : string :=
  let x := Byte.to_nat b0 in
  let y := Byte.to_nat b1 in
  let z := Byte.to_nat b2 in
  String (base64Char (x / 4))
    (String (base64Char ((x mod 4) * 16 + y / 16))
       (String (base64Char ((y mod 16) * 4 + z / 64))
          (String (base64Char (z mod 64)) EmptyString))).

Definition isLower (c : ascii) : bool :=
  ((97 <=? nat_of_ascii c) && (nat_of_ascii c <=? 122))%nat.

(** [.replace(/[^A-Z0-9]/gi, '')]: with the [i] flag the class keeps
    letters of both cases and digits. *)
Fixpoint keepAlphanumeric (s : string) : string :=
  match s with
  | EmptyString => EmptyString
  | String c s' =>
      if isUpper c || isLower c || isDigit c
      then String c (keepAlphanumeric s')
      else keepAlphanumeric s'
  end.

Definition upperChar (c : ascii) : ascii :=
  if isLower c then ascii_of_nat (nat_of_ascii c - 32) else c.

(** [.toUpperCase()] on text of the ASCII range. *)
Fixpoint toUpperCase (s : string) : string :=
  match s with
  | EmptyString => EmptyString
  | String c s' => String (upperChar c) (toUpperCase s')
  end.

(** [.padEnd(n, '0')] *)
Definition padEnd (n : nat) (s : string) : string :=
  String.append s (string_of_list_ascii (repeat "0"%char (n - String.length s))).

(** One segment of a key, from the three bytes drawn for it. *)
Definition keySegment (r : Byte.byte * Byte.byte * Byte.byte) : string :=
  let '(b0, b1, b2) := r in
  padEnd 5 (substring 0 5 (toUpperCase (keepAlphanumeric (base64 b0 b1 b2)))).

(** [generateLicenseKey()]; the arguments are what the three calls of
    [crypto.randomBytes(3)] return. *)
Definition generateLicenseKey (r1 r2 r3 : Byte.byte * Byte.byte * Byte.byte) : string :=
  String.append "MACMAN-"
    (String.append (keySegment r1)
       (String "-" (String.append (keySegment r2) (String "-" (keySegment r3))))).

(** [num1 > num2] on numbers: a comparison with [NaN] is false. *)
Definition gt (a b : number) : bool :=
  match a, b with
  | Num x, Num y => y <? x
  | _, _ => false
  end.

(** The loop of [compareVersions] from index [i], with [n] indices left. *)
Fixpoint compareFrom (n i : nat) (parts1 parts2 : list number) : Z :=
  match n with
  | O => 0
  | S n' =>
      let num1 := orZero (nth_error parts1 i) in
      let num2 := orZero (nth_error parts2 i) in
      if gt num1 num2 then 1
      else if gt num2 num1 then -1
      else compareFrom n' (S i) parts1 parts2
  end.

Definition compareVersions (v1 v2 : string) : Z :=
  let parts1 := map Number (split v1) in
  let parts2 := map Number (split v2) in
  compareFrom (Nat.max (List.length parts1) (List.length parts2)) 0 parts1 parts2.

End LicenseKey.

(** ** Errors and results

    The error classes of [src/utils/errors] by the names the services and
    middlewares import.  [PrismaError] stands for an exception raised by
    the storage client itself. *)

(** The message of a [BadRequestError] raised by [validateBody]: zod words
    each issue itself, the model keeps the paths the message names. *)
Inductive Message : Type :=
| Text (s : string)
| ValidationFailed (paths : list string).

Inductive AppError : Type :=
| BadRequestError (message : Message)
| NotFoundError (message : string)
| ConflictError (message : string)
| PrismaError (message : string).

(** What an [async] function settles to. *)
Inductive Outcome (A : Type) : Type :=
| Returned (a : A)
| Threw (e : AppError).

Arguments Returned {A} a.
Arguments Threw {A} e.

(** ** The tables ([prisma/schema.prisma], by the fields the code uses)

    Row ids are assigned by storage; the model draws them from a counter
    kept in the store. *)

Module License.
Record t : Type := mk {
  id : nat;
  licenseKey : string;
  email : option string;
  plan : string;
  maxDevices : Z;
  isActive : bool;
  expiresAt : option Z;
  activatedAt : option Z;
  deviceCount : Z
}.
End License.

Module LicenseActivation.
Record t : Type := mk {
  id : nat;
  licenseId : nat;
  machineId : string;
  deviceName : option string;
  osVersion : option string;
  appVersion : option string;
  isActive : bool;
  lastSeenAt : option Z;
  deactivatedAt : option Z
}.
End LicenseActivation.

Module Update.
Record t : Type := mk {
  id : nat;
  version : string;
  buildNumber : Z;
  releaseType : string;
  filename : string;
  fileSize : Z;
  checksum : string;
  releaseNotes : string;
  forceUpdate : bool;
  isActive : bool;
  downloadCount : Z
}.
End Update.

Module UpdateHistory.
Record t : Type := mk {
  id : nat;
  updateId : nat;
  userId : string;
  fromVersion : string;
  toVersion : string;
  updateType : string;
  status : string;
  platform : option string;
  appVersion : option string;
  errorMessage : option string;
  completedAt : option Z
}.
End UpdateHistory.

Record Store : Type := mkStore {
  licenses : list License.t;
  activations : list LicenseActivation.t;
  updates : list Update.t;
  updateHistory : list UpdateHistory.t;
  nextId : nat
}.

Definition emptyStore : Store := mkStore [] [] [] [] 0.

Definition withLicenses (ls : list License.t) (s : Store) : Store :=
  mkStore ls (activations s) (updates s) (updateHistory s) (nextId s).

Definition withActivations (acts : list LicenseActivation.t) (s : Store) : Store :=
  mkStore (licenses s) acts (updates s) (updateHistory s) (nextId s).

Definition withUpdates (us : list Update.t) (s : Store) : Store :=
  mkStore (licenses s) (activations s) us (updateHistory s) (nextId s).

Definition withHistory (hs : list UpdateHistory.t) (s : Store) : Store :=
  mkStore (licenses s) (activations s) (updates s) hs (nextId s).

Definition bumpId (s : Store) : Store :=
  mkStore (licenses s) (activations s) (updates s) (updateHistory s) (S (nextId s)).

(** A [data] field left [undefined] in an update keeps the stored value. *)
Definition orKeep {A : Type} (new old : option A) : option A :=
  match new with
  | Some v => Some v
  | None => old
  end.

(** ** Request and response types ([src/types/index.ts]) *)

Record CreateLicenseDto : Type := mkCreateLicenseDto {
  cl_email : option string;
  cl_plan : string;
  cl_maxDevices : option Z
}.

Record ValidateLicenseDto : Type := mkValidateLicenseDto {
  licenseKey : string;
  machineId : string;
  deviceName : option string;
  osVersion : option string;
  appVersion : option string
}.

Inductive ErrorType : Type :=
| invalid_key
| machine_mismatch
| max_devices_reached
| inactive
| expired.

Record LicenseData : Type := mkLicenseData {
  d_licenseKey : string;
  d_plan : string;
  d_maxDevices : Z;
  d_deviceCount : Z;
  d_isActive : bool
}.

Record LicenseResponse : Type := mkLicenseResponse {
  valid : bool;
  message : string;
  data : option LicenseData;
  errorType : option ErrorType;
  purchaseUrl : option string
}.

Record CreateUpdateDto : Type := mkCreateUpdateDto {
  cu_version : string;
  cu_buildNumber : Z;
  cu_releaseType : string;
  cu_filename : string;
  cu_fileSize : Z;
  cu_checksum : string;
  cu_releaseNotes : string;
  cu_forceUpdate : bool
}.

Record CheckUpdateDto : Type := mkCheckUpdateDto {
  ck_version : string;
  ck_platform : string;
  ck_userId : string;
  ck_appVersion : option string
}.

Record LatestVersion : Type := mkLatestVersion {
  lv_version : string;
  lv_buildNumber : Z;
  lv_releaseType : string;
  lv_downloadUrl : string;
  lv_fileSize : Z;
  lv_checksum : string;
  lv_releaseNotes : string;
  lv_forceUpdate : bool
}.

Record UpdateResponse : Type := mkUpdateResponse {
  updateAvailable : bool;
  latestVersion : option LatestVersion;
  u_message : option string
}.

(** ** [src/services/license.service.ts] *)

Module LicenseService.

Import LicenseKey.

Definition failure (msg : string) (e : ErrorType) (url : option string) : LicenseResponse :=
  mkLicenseResponse false msg None (Some e) url.

Definition success (msg : string) (license : License.t) (count : Z) : LicenseResponse :=
  mkLicenseResponse true msg
    (Some (mkLicenseData (License.licenseKey license) (License.plan license)
             (License.maxDevices license) count (License.isActive license)))
    None None.

(** [prisma.license.findUnique({ where: { licenseKey } })] *)
Definition findUnique (key : string) (s : Store) : option License.t :=
  find (fun l => String.eqb (License.licenseKey l) key) (licenses s).

(** [include: { activations: true }] *)
Definition activationsOf (license : License.t) (s : Store) : list LicenseActivation.t :=
  filter (fun a => Nat.eqb (LicenseActivation.licenseId a) (License.id license))
         (activations s).

(** [include: { activations: { where: { isActive: true } } }] *)
Definition activeActivationsOf (license : License.t) (s : Store) : list LicenseActivation.t :=
  filter (fun a => Nat.eqb (LicenseActivation.licenseId a) (License.id license)
                   && LicenseActivation.isActive a)
         (activations s).

(** [a => a.machineId === machineId && a.isActive] *)
Definition sameActiveMachine (machine : string) (a : LicenseActivation.t) : bool :=
  String.eqb (LicenseActivation.machineId a) machine && LicenseActivation.isActive a.

(** [license.expiresAt && license.expiresAt < new Date()] *)
Definition isExpired (now : Z) (license : License.t) : bool :=
  match License.expiresAt license with
  | Some t => t <? now
  | None => false
  end.

Definition hasId (i : nat) (a : LicenseActivation.t) : bool :=
  Nat.eqb (LicenseActivation.id a) i.

Definition licenseHasId (i : nat) (l : License.t) : bool :=
  Nat.eqb (License.id l) i.

(** The [data] of the update that refreshes a known machine. *)
Definition refresh (now : Z) (d : ValidateLicenseDto) (a : LicenseActivation.t)
  : LicenseActivation.t :=
  LicenseActivation.mk
    (LicenseActivation.id a) (LicenseActivation.licenseId a)
    (LicenseActivation.machineId a) (LicenseActivation.deviceName a)
    (orKeep (osVersion d) (LicenseActivation.osVersion a))
    (orKeep (appVersion d) (LicenseActivation.appVersion a))
    (LicenseActivation.isActive a) (Some now) (LicenseActivation.deactivatedAt a).

(** [prisma.licenseActivation.update({ where: { id: existingActivation.id }, ... })] *)
Definition refreshActivation (now : Z) (d : ValidateLicenseDto) (i : nat) (s : Store) : Store :=
  withActivations (updateWhere (hasId i) (refresh now d) (activations s)) s.

(** [prisma.licenseActivation.create({ data: { ..., isActive: true } })];
    the time columns the call does not set are left empty. *)
Definition createActivation (license : License.t) (d : ValidateLicenseDto) (s : Store) : Store :=
  bumpId
    (withActivations
       (activations s ++
          [LicenseActivation.mk (nextId s) (License.id license) (machineId d)
             (deviceName d) (osVersion d) (appVersion d) true None None])
       s).

Definition stamp (now : Z) (count : Z) (l : License.t) : License.t :=
  License.mk (License.id l) (License.licenseKey l) (License.email l) (License.plan l)
    (License.maxDevices l) (License.isActive l) (License.expiresAt l)
    (Some now) count.

(** [prisma.license.update({ where: { id }, data: { activatedAt, deviceCount } })] *)
Definition stampLicense (now : Z) (i : nat) (count : Z) (s : Store) : Store :=
  withLicenses (updateWhere (licenseHasId i) (stamp now count) (licenses s)) s.

Definition purchaseLink : string := "https://macman.dev/#pricing".

Definition maxDevicesMessage (license : License.t) : string :=
  String.append "Maximum number of devices ("
    (String.append (showZ (License.maxDevices license)) ") reached for this license").

Definition validateLicense (now : Z) (d : ValidateLicenseDto) (s : Store)
  : LicenseResponse * Store :=
  if negb (isValidLicenseKeyFormat (licenseKey d)) then
    (failure "Invalid license key format" invalid_key None, s)
  else
    match findUnique (licenseKey d) s with
    | None => (failure "License key not found" invalid_key None, s)
    | Some license =>
        let acts := activeActivationsOf license s in
        if negb (License.isActive license) then
          (failure "This license has been deactivated" inactive None, s)
        else if isExpired now license then
          (failure "This license has expired" expired None, s)
        else
          match find (sameActiveMachine (machineId d)) acts with
          | Some existingActivation =>
              (success "License validated successfully" license (Z.of_nat (List.length acts)),
               refreshActivation now d (LicenseActivation.id existingActivation) s)
          | None =>
              let activeDeviceCount :=
                Z.of_nat (List.length (filter LicenseActivation.isActive acts)) in
              if activeDeviceCount >=? License.maxDevices license then
                (failure (maxDevicesMessage license) max_devices_reached (Some purchaseLink), s)
              else
                (success "License activated successfully" license (activeDeviceCount + 1),
                 stampLicense now (License.id license) (activeDeviceCount + 1)
                   (createActivation license d s))
          end
    end.

(** [prisma.license.update({ where: { licenseKey }, data: { isActive: false } })];
    the client raises when no row has the key. *)
Definition deactivateLicense (key : string) (s : Store) : Outcome License.t * Store :=
  match findUnique key s with
  | None => (Threw (PrismaError "Record to update not found"), s)
  | Some l =>
      let off (x : License.t) :=
        License.mk (License.id x) (License.licenseKey x) (License.email x) (License.plan x)
          (License.maxDevices x) false (License.expiresAt x) (License.activatedAt x)
          (License.deviceCount x) in
      (Returned (off l),
       withLicenses (updateWhere (licenseHasId (License.id l)) off (licenses s)) s)
  end.

Definition switchOff (now : Z) (a : LicenseActivation.t) : LicenseActivation.t :=
  LicenseActivation.mk
    (LicenseActivation.id a) (LicenseActivation.licenseId a)
    (LicenseActivation.machineId a) (LicenseActivation.deviceName a)
    (LicenseActivation.osVersion a) (LicenseActivation.appVersion a)
    false (LicenseActivation.lastSeenAt a) (Some now).

Definition setDeviceCount (count : Z) (l : License.t) : License.t :=
  License.mk (License.id l) (License.licenseKey l) (License.email l) (License.plan l)
    (License.maxDevices l) (License.isActive l) (License.expiresAt l)
    (License.activatedAt l) count.

Definition deactivateDevice (now : Z) (key machine : string) (s : Store)
  : Outcome bool * Store :=
  match findUnique key s with
  | None => (Threw (NotFoundError "License not found"), s)
  | Some license =>
      match find (sameActiveMachine machine) (activationsOf license s) with
      | None => (Threw (NotFoundError "Device activation not found"), s)
      | Some activation =>
          let s1 :=
            withActivations
              (updateWhere (hasId (LicenseActivation.id activation)) (switchOff now)
                 (activations s)) s in
          let s2 :=
            withLicenses
              (updateWhere (licenseHasId (License.id license))
                 (setDeviceCount (License.deviceCount license - 1)) (licenses s1)) s1 in
          (Returned true, s2)
      end
  end.

(** [planMap[plan] || 1] over the four own keys of [planMap]. *)
Definition getMaxDevicesForPlan (plan : string) : Z :=
  if String.eqb plan "Individual" then 1
  else if String.eqb plan "2 Devices" then 2
  else if String.eqb plan "5 Devices" then 5
  else if String.eqb plan "Enterprise" then 999
  else 1.

(** Modelled from the spec: the column default of [deviceCount] in
    [prisma/schema.prisma], which [createLicense] leaves to storage
    ("Always created active, with device count zero"). *)
Definition defaultDeviceCount : Z := 0.

(** [createLicense]; [key] is what [generateLicenseKey()] drew.  The
    column [licenseKey] is unique: storage refuses a second row with it. *)
Definition createLicense (key : string) (d : CreateLicenseDto) (s : Store)
  : Outcome License.t * Store :=
  let maxDevices :=
    match cl_maxDevices d with
    | Some m => if m =? 0 then getMaxDevicesForPlan (cl_plan d) else m
    | None => getMaxDevicesForPlan (cl_plan d)
    end in
  match findUnique key s with
  | Some _ => (Threw (PrismaError "Unique constraint failed on licenseKey"), s)
  | None =>
      let license :=
        License.mk (nextId s) key (cl_email d) (cl_plan d) maxDevices true None None
          defaultDeviceCount in
      (Returned license, bumpId (withLicenses (licenses s ++ [license]) s))
  end.

(** [getStatistics]: four reads of the tables.  [groupBy({ by: ['plan'],
    _count: true })] gives one group per plan with its number of
    licenses; storage promises no order of the groups, here they come in
    the order in which the plans first appear. *)
Record Statistics : Type := mkStatistics {
  totalLicenses : Z;
  activeLicenses : Z;
  totalActivations : Z;
  licensesByPlan : list (string * Z)
}.

Fixpoint countPlan (plan : string) (groups : list (string * Z)) : list (string * Z) :=
  match groups with
  | [] => [(plan, 1)]
  | (p, n) :: rest =>
      if String.eqb p plan then (p, n + 1) :: rest else (p, n) :: countPlan plan rest
  end.

Definition groupByPlan (ls : list License.t) : list (string * Z) :=
  fold_left (fun groups l => countPlan (License.plan l) groups) ls [].

Definition getStatistics (s : Store) : Statistics :=
  mkStatistics
    (Z.of_nat (List.length (licenses s)))
    (Z.of_nat (List.length (filter License.isActive (licenses s))))
    (Z.of_nat (List.length (filter LicenseActivation.isActive (activations s))))
    (groupByPlan (licenses s)).

End LicenseService.

(** ** [validateLicense] one storage round trip at a time

    Every [await] hands control back to the event loop, so another request
    may run between two storage calls of one validation.  [step] performs
    the code of [validateLicense] up to and including its next storage
    call. *)

Module Interleaving.

Import LicenseKey LicenseService.

Inductive Validation : Type :=
| Pending (d : ValidateLicenseDto)
| Refreshing (d : ValidateLicenseDto) (license : License.t)
    (acts : list LicenseActivation.t) (existing : LicenseActivation.t)
| Creating (d : ValidateLicenseDto) (license : License.t) (activeDeviceCount : Z)
| Stamping (d : ValidateLicenseDto) (license : License.t) (activeDeviceCount : Z)
| Settled (r : LicenseResponse).

Definition step (now : Z) (v : Validation) (s : Store) : Validation * Store :=
  match v with
  | Pending d =>
      if negb (isValidLicenseKeyFormat (licenseKey d)) then
        (Settled (failure "Invalid license key format" invalid_key None), s)
      else
        match findUnique (licenseKey d) s with
        | None => (Settled (failure "License key not found" invalid_key None), s)
        | Some license =>
            let acts := activeActivationsOf license s in
            if negb (License.isActive license) then
              (Settled (failure "This license has been deactivated" inactive None), s)
            else if isExpired now license then
              (Settled (failure "This license has expired" expired None), s)
            else
              match find (sameActiveMachine (machineId d)) acts with
              | Some existingActivation =>
                  (Refreshing d license acts existingActivation, s)
              | None =>
                  let activeDeviceCount :=
                    Z.of_nat (List.length (filter LicenseActivation.isActive acts)) in
                  if activeDeviceCount >=? License.maxDevices license then
                    (Settled (failure (maxDevicesMessage license) max_devices_reached
                                (Some purchaseLink)), s)
                  else (Creating d license activeDeviceCount, s)
              end
        end
  | Refreshing d license acts existingActivation =>
      (Settled (success "License validated successfully" license
                  (Z.of_nat (List.length acts))),
       refreshActivation now d (LicenseActivation.id existingActivation) s)
  | Creating d license activeDeviceCount =>
      (Stamping d license activeDeviceCount, createActivation license d s)
  | Stamping d license activeDeviceCount =>
      (Settled (success "License activated successfully" license (activeDeviceCount + 1)),
       stampLicense now (License.id license) (activeDeviceCount + 1) s)
  | Settled r => (Settled r, s)
  end.

(** One request run alone, [n] round trips. *)
Fixpoint run (now : Z) (n : nat) (v : Validation) (s : Store) : Validation * Store :=
  match n with
  | O => (v, s)
  | S n' => let '(v', s') := step now v s in run now n' v' s'
  end.

(** Two requests in flight; the schedule names which one takes the next
    round trip ([true]: the first). *)
Fixpoint interleave (now : Z) (schedule : list bool) (a b : Validation) (s : Store)
  : Validation * Validation * Store :=
  match schedule with
  | [] => (a, b, s)
  | true :: rest => let '(a', s') := step now a s in interleave now rest a' b s'
  | false :: rest => let '(b', s') := step now b s in interleave now rest a b' s'
  end.

Definition settledValid (v : Validation) : bool :=
  match v with
  | Settled r => valid r
  | _ => false
  end.

End Interleaving.

(** ** [src/routes/license.routes.ts], [src/controllers/license.controller.ts] *)

Module LicenseRoutes.

Import LicenseService.

(** The parsed JSON body of [POST /admin/licenses]. *)
Record CreateLicenseBody : Type := mkCreateLicenseBody {
  email : option string;
  plan : string;
  max_devices : option Z
}.

Definition planTiers : list string :=
  ["Individual"; "2 Devices"; "5 Devices"; "Enterprise"]%string.

Definition isTier (p : string) : bool := existsb (String.eqb p) planTiers.

Section Schema.

(** [z.string().email()]: the address pattern is zod's own. *)
Variable isEmail : string -> bool.

(** The paths of the issues [createLicenseSchema.parse] raises, in the
    order of the schema's keys. *)
Definition createLicenseSchema (b : CreateLicenseBody) : list string :=
  (match email b with
   | Some e => if isEmail e then [] else ["email"%string]
   | None => []
   end)
  ++ (if isTier (plan b) then [] else ["plan"%string])
  ++ (match max_devices b with
      | Some m => if 0 <? m then [] else ["max_devices"%string]
      | None => []
      end).

(** [validateBody(createLicenseSchema)] followed by
    [licenseController.createLicense]. *)
Definition createLicense (key : string) (b : CreateLicenseBody) (s : Store)
  : Outcome License.t * Store :=
  match createLicenseSchema b with
  | [] =>
      LicenseService.createLicense key
        (mkCreateLicenseDto (email b) (plan b) (max_devices b)) s
  | issues => (Threw (BadRequestError (ValidationFailed issues)), s)
  end.

End Schema.

(** A field of a parsed JSON body as a string schema meets it: no such
    key, a string, or a value of another type ([null], a number, ...). *)
Inductive Field : Type :=
| absent
| text (v : string)
| other.

(** The parsed body of [POST /validate], an object, by the five keys the
    schema reads. *)
Record ValidateLicenseBody : Type := mkValidateLicenseBody {
  license_key : Field;
  machine_id : Field;
  device_name : Field;
  os_version : Field;
  app_version : Field
}.

(** [z.string().min(1, ...)] *)
Definition given (field : Field) : bool :=
  match field with
  | text v => negb (String.eqb v "")
  | absent | other => false
  end.

(** [z.string().optional()] *)
Definition optionalString (field : Field) : bool :=
  match field with
  | absent | text _ => true
  | other => false
  end.

(** The value the parsed body holds for an optional string. *)
Definition parsed (field : Field) : option string :=
  match field with
  | text v => Some v
  | absent | other => None
  end.

(** The paths of the issues [validateLicenseSchema.parse] raises, in the
    order of the schema's keys. *)
Definition validateLicenseSchema (b : ValidateLicenseBody) : list string :=
  (if given (license_key b) then [] else ["license_key"%string])
  ++ (if given (machine_id b) then [] else ["machine_id"%string])
  ++ (if optionalString (device_name b) then [] else ["device_name"%string])
  ++ (if optionalString (os_version b) then [] else ["os_version"%string])
  ++ (if optionalString (app_version b) then [] else ["app_version"%string]).

(** [res.status(result.valid ? 200 : 400).json(result)] *)
Record Response : Type := mkResponse {
  status : Z;
  json : LicenseResponse
}.

(** [validateBody(validateLicenseSchema)] followed by
    [licenseController.validateLicense]. *)
Definition validate (now : Z) (b : ValidateLicenseBody) (s : Store)
  : Outcome Response * Store :=
  match validateLicenseSchema b, license_key b, machine_id b with
  | [], text key, text machine =>
      let (result, s') :=
        LicenseService.validateLicense now
          (mkValidateLicenseDto key machine (parsed (device_name b))
             (parsed (os_version b)) (parsed (app_version b)))
          s in
      (Returned (mkResponse (if valid result then 200 else 400) result), s')
  | issues, _, _ => (Threw (BadRequestError (ValidationFailed issues)), s)
  end.

End LicenseRoutes.

(** ** [src/services/update.service.ts] *)

Module UpdateService.

Import LicenseKey.

(** [prisma.update.findUnique({ where: { version } })] *)
Definition findUnique (version : string) (s : Store) : option Update.t :=
  find (fun u => String.eqb (Update.version u) version) (updates s).

(** Modelled from the spec: the column default of [downloadCount] in
    [prisma/schema.prisma], which [createUpdate] leaves to storage
    ("persists as active with a zero download counter"). *)
Definition defaultDownloadCount : Z := 0.

Definition createUpdate (d : CreateUpdateDto) (s : Store) : Outcome Update.t * Store :=
  match findUnique (cu_version d) s with
  | Some existing =>
      (Threw (BadRequestError
                (Text (String.append "Update version "
                         (String.append (cu_version d) " already exists")))), s)
  | None =>
      let update :=
        Update.mk (nextId s) (cu_version d) (cu_buildNumber d) (cu_releaseType d)
          (cu_filename d) (cu_fileSize d) (cu_checksum d) (cu_releaseNotes d)
          (cu_forceUpdate d) true defaultDownloadCount in
      (Returned update, bumpId (withUpdates (updates s ++ [update]) s))
  end.

(** [where: { isActive: true, buildNumber: { gt: currentBuildNumber } }] *)
Definition newerActive (currentBuildNumber : Z) (u : Update.t) : bool :=
  Update.isActive u && (currentBuildNumber <? Update.buildNumber u).

(** First row under [orderBy: { buildNumber: 'desc' }]; among rows of equal
    build number the earlier one is kept. *)
Fixpoint firstDescending (rows : list Update.t) : option Update.t :=
  match rows with
  | [] => None
  | u :: rest =>
      match firstDescending rest with
      | Some v => if Update.buildNumber u <? Update.buildNumber v then Some v else Some u
      | None => Some u
      end
  end.

Definition findFirst (currentBuildNumber : Z) (s : Store) : option Update.t :=
  firstDescending (filter (newerActive currentBuildNumber) (updates s)).

(** [recordUpdateHistory]: [prisma.updateHistory.create({ data })] *)
Definition recordUpdateHistory (updateId : nat) (userId fromVersion toVersion
    updateType status : string) (platform appVersion errorMessage : option string)
    (s : Store) : Store :=
  bumpId
    (withHistory
       (updateHistory s ++
          [UpdateHistory.mk (nextId s) updateId userId fromVersion toVersion updateType
             status platform appVersion errorMessage None])
       s).

Definition downloadUrl (version : string) : string :=
  String.append "/api/v2/updates/download/" version.

Definition offer (u : Update.t) : UpdateResponse :=
  mkUpdateResponse true
    (Some (mkLatestVersion (Update.version u) (Update.buildNumber u) (Update.releaseType u)
             (downloadUrl (Update.version u)) (Update.fileSize u) (Update.checksum u)
             (Update.releaseNotes u) (Update.forceUpdate u)))
    None.

Definition upToDate : UpdateResponse :=
  mkUpdateResponse false None (Some "You are running the latest version"%string).

(** [checkForUpdate].  A [NaN] bound is no value of the integer column
    [buildNumber]: the query is refused by the storage client and the
    exception leaves the function. *)
Definition checkForUpdate (d : CheckUpdateDto) (s : Store) : Outcome UpdateResponse * Store :=
  match versionToBuildNumber (ck_version d) with
  | NaN => (Threw (PrismaError "Invalid value for argument gt"), s)
  | Num currentBuildNumber =>
      match findFirst currentBuildNumber s with
      | None => (Returned upToDate, s)
      | Some latestUpdate =>
          (Returned (offer latestUpdate),
           recordUpdateHistory (Update.id latestUpdate) (ck_userId d) (ck_version d)
             (Update.version latestUpdate) "manual" "started"
             (Some (ck_platform d)) (ck_appVersion d) None s)
      end
  end.

(** [getUpdateByVersion] *)
Definition getUpdateByVersion (version : string) (s : Store) : Outcome Update.t :=
  match findUnique version s with
  | Some update => Returned update
  | None =>
      Threw (NotFoundError
               (String.append "Update version " (String.append version " not found")))
  end.

Definition hasVersion (version : string) (u : Update.t) : bool :=
  String.eqb (Update.version u) version.

Definition countDownload (u : Update.t) : Update.t :=
  Update.mk (Update.id u) (Update.version u) (Update.buildNumber u) (Update.releaseType u)
    (Update.filename u) (Update.fileSize u) (Update.checksum u) (Update.releaseNotes u)
    (Update.forceUpdate u) (Update.isActive u) (Update.downloadCount u + 1).

(** [incrementDownloadCount]:
    [prisma.update.update({ where: { version }, data: { downloadCount: { increment: 1 } } })];
    the client raises when no row has the version. *)
Definition incrementDownloadCount (version : string) (s : Store) : Outcome unit * Store :=
  match findUnique version s with
  | None => (Threw (PrismaError "Record to update not found"), s)
  | Some _ =>
      (Returned tt, withUpdates (updateWhere (hasVersion version) countDownload (updates s)) s)
  end.

Definition withdraw (u : Update.t) : Update.t :=
  Update.mk (Update.id u) (Update.version u) (Update.buildNumber u) (Update.releaseType u)
    (Update.filename u) (Update.fileSize u) (Update.checksum u) (Update.releaseNotes u)
    (Update.forceUpdate u) false (Update.downloadCount u).

(** [deactivateUpdate] *)
Definition deactivateUpdate (version : string) (s : Store) : Outcome Update.t * Store :=
  match findUnique version s with
  | None => (Threw (PrismaError "Record to update not found"), s)
  | Some u =>
      (Returned (withdraw u),
       withUpdates (updateWhere (hasVersion version) withdraw (updates s)) s)
  end.

(** The two values [updateHistoryStatus] takes for [status]. *)
Inductive Closing : Type :=
| completed
| failed.

Definition closingText (c : Closing) : string :=
  match c with
  | completed => "completed"
  | failed => "failed"
  end.

(** [where: { userId, toVersion, status: 'started' }] *)
Definition openFor (userId toVersion : string) (h : UpdateHistory.t) : bool :=
  String.eqb (UpdateHistory.userId h) userId
  && String.eqb (UpdateHistory.toVersion h) toVersion
  && String.eqb (UpdateHistory.status h) "started".

(** [findFirst] under [orderBy: { createdAt: 'desc' }]: rows are appended
    as they are created, so the most recent match is the last one. *)
Definition findLatest (userId toVersion : string) (s : Store) : option UpdateHistory.t :=
  find (openFor userId toVersion) (rev (updateHistory s)).

(** The [data] of the closing update: [completedAt] is set for
    ['completed'] only, an absent [errorMessage] keeps the stored one. *)
Definition close (now : Z) (c : Closing) (errorMessage : option string)
    (h : UpdateHistory.t) : UpdateHistory.t :=
  UpdateHistory.mk (UpdateHistory.id h) (UpdateHistory.updateId h) (UpdateHistory.userId h)
    (UpdateHistory.fromVersion h) (UpdateHistory.toVersion h) (UpdateHistory.updateType h)
    (closingText c) (UpdateHistory.platform h) (UpdateHistory.appVersion h)
    (orKeep errorMessage (UpdateHistory.errorMessage h))
    (match c with
     | completed => Some now
     | failed => UpdateHistory.completedAt h
     end).

Definition historyHasId (i : nat) (h : UpdateHistory.t) : bool :=
  Nat.eqb (UpdateHistory.id h) i.

(** [updateHistoryStatus] *)
Definition updateHistoryStatus (now : Z) (userId toVersion : string) (c : Closing)
    (errorMessage : option string) (s : Store) : Store :=
  match findLatest userId toVersion s with
  | Some history =>
      withHistory
        (updateWhere (historyHasId (UpdateHistory.id history)) (close now c errorMessage)
           (updateHistory s)) s
  | None => s
  end.

(** Rows under [orderBy: { buildNumber: 'desc' }]; rows of equal build
    number keep their table order. *)
Fixpoint insertDescending (u : Update.t) (sorted : list Update.t) : list Update.t :=
  match sorted with
  | [] => [u]
  | v :: rest =>
      if Update.buildNumber v <=? Update.buildNumber u then u :: v :: rest
      else v :: insertDescending u rest
  end.

Fixpoint sortDescending (rows : list Update.t) : list Update.t :=
  match rows with
  | [] => []
  | u :: rest => insertDescending u (sortDescending rest)
  end.

Record Page : Type := mkPage {
  pg_updates : list Update.t;
  pg_page : Z;
  pg_limit : Z;
  pg_total : Z;
  pg_pages : Z
}.

(** [getAllUpdates(page, limit)] for [page >= 1] and [limit >= 1]:
    [skip = (page - 1) * limit], [take = limit],
    [pages = Math.ceil(total / limit)].  What the storage client does with
    a negative [skip] or [take], and the division by a zero [limit], are
    not modelled: the answer is [None] there. *)
Definition getAllUpdates (page limit : Z) (s : Store) : option Page :=
  if (1 <=? page) && (1 <=? limit) then
    let skip := (page - 1) * limit in
    let total := Z.of_nat (List.length (updates s)) in
    Some (mkPage
            (firstn (Z.to_nat limit) (skipn (Z.to_nat skip) (sortDescending (updates s))))
            page limit total ((total + limit - 1) / limit))
  else None.

End UpdateService.

(** ** [src/controllers/update.controller.ts] and the schema of [GET /check] *)

Module UpdateController.

(** The query string of [GET /api/v2/updates/check]. *)
Record CheckQuery : Type := mkCheckQuery {
  version : option string;
  platform : option string;
  userId : option string;
  appVersion : option string
}.

Inductive Reply : Type :=
| Status400 (error : string)
| Json (r : UpdateResponse).

Definition nonEmpty (o : option string) : bool :=
  match o with
  | Some v => negb (String.eqb v "")
  | None => false
  end.

(** [checkUpdateSchema]: [version] and [userId] are required and not
    empty, [platform] defaults to ['darwin']. *)
Definition checkUpdateSchema (q : CheckQuery) : Outcome CheckQuery :=
  match (if nonEmpty (version q) then [] else ["version"%string])
        ++ (if nonEmpty (userId q) then [] else ["userId"%string]) with
  | [] =>
      Returned (mkCheckQuery (version q)
                  (Some (match platform q with Some p => p | None => "darwin"%string end))
                  (userId q) (appVersion q))
  | issues => Threw (BadRequestError (ValidationFailed issues))
  end.

(** [UpdateController.checkForUpdate] on the validated query. *)
Definition checkForUpdate (q : CheckQuery) (s : Store) : Outcome Reply * Store :=
  let platform := match platform q with Some p => p | None => "darwin"%string end in
  if negb (nonEmpty (version q)) || negb (nonEmpty (userId q)) then
    (Returned (Status400 "version and userId are required"), s)
  else
    match version q, userId q with
    | Some v, Some u =>
        match UpdateService.checkForUpdate (mkCheckUpdateDto v platform u (appVersion q)) s with
        | (Returned r, s') => (Returned (Json r), s')
        | (Threw e, s') => (Threw e, s')
        end
    | _, _ => (Returned (Status400 "version and userId are required"), s)
    end.

(** What [downloadUpdate] answers once the release is known. *)
Inductive Download : Type :=
| FileNotFound
| Stream (filename : string) (contentLength : Z).

Section Files.

(** [fs.existsSync(path.join(config.uploadDir, filename))] and the size
    [fs.statSync] reports, as functions of the stored file name. *)
Variable existsSync : string -> bool.
Variable size : string -> Z.

(** [UpdateController.downloadUpdate] *)
Definition downloadUpdate (version : string) (s : Store) : Outcome Download * Store :=
  match UpdateService.getUpdateByVersion version s with
  | Threw e => (Threw e, s)
  | Returned update =>
      match UpdateService.incrementDownloadCount version s with
      | (Threw e, s') => (Threw e, s')
      | (Returned _, s') =>
          if existsSync (Update.filename update)
          then (Returned (Stream (Update.filename update) (size (Update.filename update))),
                s')
          else (Returned FileNotFound, s')
      end
  end.

End Files.

(** The [status] field the schema of [POST /history] admits. *)
Inductive HistoryStatus : Type :=
| started
| completed
| failed.

(** [UpdateController.recordHistory]: a ['started'] report changes
    nothing, the other two close a history row. *)
Definition recordHistory (now : Z) (userId toVersion : string) (status : HistoryStatus)
    (errorMessage : option string) (s : Store) : Store :=
  match status with
  | started => s
  | completed =>
      UpdateService.updateHistoryStatus now userId toVersion UpdateService.completed
        errorMessage s
  | failed =>
      UpdateService.updateHistoryStatus now userId toVersion UpdateService.failed
        errorMessage s
  end.

(** The route: [validateQuery(checkUpdateSchema)], then the controller. *)
Definition check (q : CheckQuery) (s : Store) : Outcome Reply * Store :=
  match checkUpdateSchema q with
  | Returned q' => checkForUpdate q' s
  | Threw e => (Threw e, s)
  end.

End UpdateController.

(** ** [src/middleware/auth.ts] and [src/utils/jwt.ts] *)

Module JwtPayload.
Record t : Type := mk {
  id : string;
  email : string;
  role : string
}.
End JwtPayload.

Module Auth.

(** What the middlewares throw: two error classes of [src/utils/errors],
    by the names they import, and the plain [Error] of [verifyToken]. *)
Inductive Thrown : Type :=
| UnauthorizedError (message : string)
| ForbiddenError (message : string)
| PlainError (message : string).

(** The request as the token middlewares read it: the [authorization]
    header, a single string when present, and the [admin] a middleware
    attaches. *)
Record AuthRequest : Type := mkAuthRequest {
  authorization : option string;
  admin : option JwtPayload.t
}.

Definition withAdmin (payload : JwtPayload.t) (req : AuthRequest) : AuthRequest :=
  mkAuthRequest (authorization req) (Some payload).

(** What a middleware hands to Express: [next()] or [next(error)]. *)
Inductive Handed : Type :=
| next (req : AuthRequest)
| nextError (e : Thrown).

(** A middleware after another. *)
Definition andThen (first second : AuthRequest -> Handed) (req : AuthRequest) : Handed :=
  match first req with
  | next req' => second req'
  | nextError e => nextError e
  end.

(** [authHeader.split(' ')]: always at least one part. *)
Fixpoint split (s : string) : list string :=
  match s with
  | EmptyString => [EmptyString]
  | String c s' =>
      if Ascii.eqb c " " then EmptyString :: split s'
      else match split s' with
           | p :: ps => String c p :: ps
           | [] => [String c EmptyString]
           end
  end.

Definition extractToken (req : AuthRequest) : option string :=
  match authorization req with
  | None => None
  | Some authHeader =>
      if String.eqb authHeader "" then None
      else
        match split authHeader with
        | [scheme; token] => if String.eqb scheme "Bearer" then Some token else None
        | _ => None
        end
  end.

Section Tokens.

(** [jwt.verify(token, config.jwtSecret)]: the payload, or nothing where
    the library throws. *)
Variable verify : string -> option JwtPayload.t.

Definition verifyToken (token : string) : JwtPayload.t + Thrown :=
  match verify token with
  | Some decoded => inl decoded
  | None => inr (PlainError "Invalid or expired token")
  end.

(** The [try] block of [requireAuth]. *)
Definition authenticate (req : AuthRequest) : AuthRequest + Thrown :=
  match extractToken req with
  | None => inr (UnauthorizedError "No token provided")
  | Some token =>
      if String.eqb token "" then inr (UnauthorizedError "No token provided")
      else
        match verifyToken token with
        | inl payload => inl (withAdmin payload req)
        | inr e => inr e
        end
  end.

(** [requireAuth]: whatever the block threw, the [catch] hands on the
    same error. *)
Definition requireAuth (req : AuthRequest) : Handed :=
  match authenticate req with
  | inl req' => next req'
  | inr _ => nextError (UnauthorizedError "Invalid or expired token")
  end.

Definition requireRole (roles : list string) (req : AuthRequest) : Handed :=
  match admin req with
  | None => nextError (UnauthorizedError "Not authenticated")
  | Some a =>
      if existsb (String.eqb (JwtPayload.role a)) roles then next req
      else nextError (ForbiddenError "Insufficient permissions")
  end.

Definition optionalAuth (req : AuthRequest) : Handed :=
  match extractToken req with
  | None => next req
  | Some token =>
      if String.eqb token "" then next req
      else
        match verifyToken token with
        | inl payload => next (withAdmin payload req)
        | inr _ => next req
        end
  end.

End Tokens.

End Auth.

(** ** Vocabulary of the statements *)

(** Decimal text of a natural number, as a client prints a version part. *)
Definition decimal (n : nat) : string := NilEmpty.string_of_uint (Nat.to_uint n).

(** [a.b] *)
Definition dotted (a b : string) : string := String.append a (String "." b).

Definition noDot (s : string) : bool :=
  forallb (fun c => negb (Ascii.eqb c ".")) (list_ascii_of_string s).

(** A version as clients print it: every part between the dots is a run
    of decimal digits with a digit at least.  On such a version whose
    build number stays below 2^53 the reading of the parts and the
    arithmetic of the model are those of the code. *)
Definition digitRun (part : string) : bool :=
  negb (String.eqb part "")
  && forallb LicenseKey.isDigit (list_ascii_of_string part).

Definition decimalParts (version : string) : bool :=
  forallb digitRun (LicenseKey.split version).

Definition noSpace (s : string) : bool :=
  forallb (fun c => negb (Ascii.eqb c " ")) (list_ascii_of_string s).

(** [Bearer token] *)
Definition bearer (token : string) : string := String.append "Bearer " token.

(** What the device quota sees of the activation table: which machine is
    bound to which license, and whether the binding is active. *)
Definition slots (s : Store) : list (nat * string * bool) :=
  map (fun a => (LicenseActivation.licenseId a, LicenseActivation.machineId a,
                 LicenseActivation.isActive a))
      (activations s).

(** Number of active activations of a license. *)
Definition activeCount (license : License.t) (s : Store) : Z :=
  Z.of_nat (List.length (LicenseService.activeActivationsOf license s)).

(** A license is not expired at [now]: no expiration, or one not yet passed. *)
Definition unexpired (now : Z) (license : License.t) : Prop :=
  forall t, License.expiresAt license = Some t -> now <= t.

(** Requests run one after the other, each with its own clock reading. *)
Fixpoint validateAll (requests : list (Z * ValidateLicenseDto)) (s : Store)
  : list LicenseResponse * Store :=
  match requests with
  | [] => ([], s)
  | (now, d) :: rest =>
      let '(r, s1) := LicenseService.validateLicense now d s in
      let '(rs, s2) := validateAll rest s1 in
      (r :: rs, s2)
  end.

(** Machine [machine] holds an active activation of [license]. *)
Definition boundTo (license : License.t) (machine : string) (s : Store) : Prop :=
  exists a,
    In a (activations s)
    /\ LicenseActivation.licenseId a = License.id license
    /\ LicenseActivation.machineId a = machine
    /\ LicenseActivation.isActive a = true.

(** Two versions of an activation row that agree on everything but
    [lastSeenAt], [osVersion] and [appVersion]. *)
Definition sameBinding (a a' : LicenseActivation.t) : Prop :=
  LicenseActivation.id a' = LicenseActivation.id a
  /\ LicenseActivation.licenseId a' = LicenseActivation.licenseId a
  /\ LicenseActivation.machineId a' = LicenseActivation.machineId a
  /\ LicenseActivation.deviceName a' = LicenseActivation.deviceName a
  /\ LicenseActivation.isActive a' = LicenseActivation.isActive a
  /\ LicenseActivation.deactivatedAt a' = LicenseActivation.deactivatedAt a.

(** The answer of a successful validation reporting [count] devices. *)
Definition validated (msg : string) (license : License.t) (count : Z) : LicenseResponse :=
  mkLicenseResponse true msg
    (Some (mkLicenseData (License.licenseKey license) (License.plan license)
             (License.maxDevices license) count (License.isActive license)))
    None None.

(** Active activations of the license with id [lid], counted on [slots]. *)
Definition heldSlots (lid : nat) (s : Store) : Z :=
  Z.of_nat (List.length
              (filter (fun x : nat * string * bool =>
                         Nat.eqb (fst (fst x)) lid && snd x)
                      (slots s))).

(** The terms of a license that validation reads and never writes. *)
Definition terms (l : License.t) : nat * string * Z * bool * option Z :=
  (License.id l, License.licenseKey l, License.maxDevices l, License.isActive l,
   License.expiresAt l).

Definition machineOf (r : Z * ValidateLicenseDto) : string := machineId (snd r).

(** The failure the specification calls [InvalidPlan]: the body is refused
    by validation and the message names the field [plan]. *)
Definition InvalidPlan {A : Type} (o : Outcome A) : Prop :=
  exists paths,
    o = Threw (BadRequestError (ValidationFailed paths)) /\ In "plan"%string paths.

(** A run of exactly five characters of [[A-Z0-9]]. *)
Definition fiveKeyChars (x : string) : Prop :=
  String.length x = 5%nat
  /\ forallb LicenseKey.keyChar (list_ascii_of_string x) = true.

(** The rows [getAllUpdates] returns for a page. *)
Definition pageRows (page limit : Z) (s : Store) : list Update.t :=
  match UpdateService.getAllUpdates page limit s with
  | Some pg => UpdateService.pg_updates pg
  | None => []
  end.

(** Build numbers do not rise along the list. *)
Definition descending (us : list Update.t) : Prop :=
  StronglySorted (fun a b => Update.buildNumber b <= Update.buildNumber a) us.

(** Row ids of the activation table are unique and below the counter. *)
Definition uniqueIds (s : Store) : Prop :=
  NoDup (map LicenseActivation.id (activations s))
  /\ Forall (fun a => (LicenseActivation.id a < nextId s)%nat) (activations s).

(** ** The calls of the API and the invariant of the store *)

(** What the invariant reads of a license row: id, key, quota, cached
    count. *)
Definition facts (l : License.t) : nat * string * Z * Z :=
  (License.id l, License.licenseKey l, License.maxDevices l, License.deviceCount l).

Definition factId (f : nat * string * Z * Z) : nat := fst (fst (fst f)).
Definition factKey (f : nat * string * Z * Z) : string := snd (fst (fst f)).
Definition factQuota (f : nat * string * Z * Z) : Z := snd (fst f).
Definition factCount (f : nat * string * Z * Z) : Z := snd f.

(** Active bindings of license [lid] among the slots [B]. *)
Definition held (lid : nat) (B : list (nat * string * bool)) : Z :=
  Z.of_nat (List.length
              (filter (fun x : nat * string * bool =>
                         Nat.eqb (fst (fst x)) lid && snd x) B)).

(** The invariant, on the projections of the tables: license ids and
    keys are unique, keys are well formed, row ids are unique and below
    the counter, a machine holds at most one active activation of a
    license, the cached count of every license is its number of active
    activations and stays within the quota, release versions are unique. *)
Definition soundOf (L : list (nat * string * Z * Z)) (A : list nat)
    (B : list (nat * string * bool)) (V : list string) (H : list nat) (n : nat) : Prop :=
  NoDup (map factId L)
  /\ NoDup (map factKey L)
  /\ Forall (fun i => (i < n)%nat) (map factId L)
  /\ Forall (fun k => LicenseKey.isValidLicenseKeyFormat k = true) (map factKey L)
  /\ NoDup A
  /\ Forall (fun i => (i < n)%nat) A
  /\ Forall (fun i => (i < n)%nat) (map (fun x : nat * string * bool => fst (fst x)) B)
  /\ NoDup (filter (fun x : nat * string * bool => snd x) B)
  /\ Forall (fun f => factCount f = held (factId f) B
                      /\ held (factId f) B <= factQuota f) L
  /\ NoDup V
  /\ NoDup H
  /\ Forall (fun i => (i < n)%nat) H.

Definition sound (s : Store) : Prop :=
  soundOf (map facts (licenses s)) (map LicenseActivation.id (activations s)) (slots s)
    (map Update.version (updates s)) (map UpdateHistory.id (updateHistory s)) (nextId s).

(** The slot an activation row stands for. *)
Definition slotOf (a : LicenseActivation.t) : nat * string * bool :=
  (LicenseActivation.licenseId a, LicenseActivation.machineId a,
   LicenseActivation.isActive a).

(** One call of the API, with what it draws from outside: the random
    bytes of a key, the clock. *)
Inductive Call : Type :=
| CreateLicense (r1 r2 r3 : Byte.byte * Byte.byte * Byte.byte)
    (b : LicenseRoutes.CreateLicenseBody)
| ValidateLicense (now : Z) (d : ValidateLicenseDto)
| DeactivateLicense (key : string)
| DeactivateDevice (now : Z) (key machine : string)
| CreateUpdate (d : CreateUpdateDto)
| CheckForUpdate (d : CheckUpdateDto)
| DownloadUpdate (version : string)
| RecordHistory (now : Z) (userId toVersion : string)
    (status : UpdateController.HistoryStatus) (errorMessage : option string)
| DeactivateUpdate (version : string).

Section Server.

Variable isEmail : string -> bool.
Variable existsSync : string -> bool.
Variable size : string -> Z.

(** The store a call leaves behind. *)
Definition serve (c : Call) (s : Store) : Store :=
  match c with
  | CreateLicense r1 r2 r3 b =>
      snd (LicenseRoutes.createLicense isEmail (LicenseKey.generateLicenseKey r1 r2 r3) b s)
  | ValidateLicense now d => snd (LicenseService.validateLicense now d s)
  | DeactivateLicense key => snd (LicenseService.deactivateLicense key s)
  | DeactivateDevice now key machine =>
      snd (LicenseService.deactivateDevice now key machine s)
  | CreateUpdate d => snd (UpdateService.createUpdate d s)
  | CheckForUpdate d => snd (UpdateService.checkForUpdate d s)
  | DownloadUpdate version =>
      snd (UpdateController.downloadUpdate existsSync size version s)
  | RecordHistory now userId toVersion status errorMessage =>
      UpdateController.recordHistory now userId toVersion status errorMessage s
  | DeactivateUpdate version => snd (UpdateService.deactivateUpdate version s)
  end.

(** Calls served one after the other. *)
Definition serveAll (calls : list Call) (s : Store) : Store :=
  fold_left (fun s c => serve c s) calls s.

End Server.

(** Every activation row belongs to a license of the table. *)
Definition linked (s : Store) : Prop :=
  Forall (fun i => In i (map License.id (licenses s)))
         (map LicenseActivation.licenseId (activations s)).

Definition sumOf (zs : list Z) : Z := fold_right Z.add 0 zs.

(** A license row and a later state of it: the terms are the same and a
    license that was off is still off. *)
Definition licenseKept (l l' : License.t) : Prop :=
  License.id l' = License.id l
  /\ License.licenseKey l' = License.licenseKey l
  /\ License.email l' = License.email l
  /\ License.plan l' = License.plan l
  /\ License.maxDevices l' = License.maxDevices l
  /\ License.expiresAt l' = License.expiresAt l
  /\ (License.isActive l = false -> License.isActive l' = false).

(** A release row and a later state of it: the artifact is the same, the
    download counter has not gone down and a withdrawn release is still
    withdrawn. *)
Definition releaseKept (u u' : Update.t) : Prop :=
  Update.id u' = Update.id u
  /\ Update.version u' = Update.version u
  /\ Update.buildNumber u' = Update.buildNumber u
  /\ Update.releaseType u' = Update.releaseType u
  /\ Update.filename u' = Update.filename u
  /\ Update.fileSize u' = Update.fileSize u
  /\ Update.checksum u' = Update.checksum u
  /\ Update.releaseNotes u' = Update.releaseNotes u
  /\ Update.forceUpdate u' = Update.forceUpdate u
  /\ Update.downloadCount u <= Update.downloadCount u'
  /\ (Update.isActive u = false -> Update.isActive u' = false).

(** ** Sample data *)

Module Samples.

Definition key : string := "MACMAN-ABCDE-12345-XY9Z0".

(** A license no machine has used yet. *)
Definition unused (quota : Z) : License.t :=
  License.mk 0 key None "Individual" quota true None None 0.

(** A license one machine was activated on, at time 1. *)
Definition license (quota : Z) (active : bool) (expires : option Z) : License.t :=
  License.mk 0 key None "Individual" quota active expires (Some 1) 1.

Definition bound (i : nat) (machine : string) (active : bool) : LicenseActivation.t :=
  LicenseActivation.mk i 0 machine None None None active None None.

Definition request (machine : string) : ValidateLicenseDto :=
  mkValidateLicenseDto key machine None (Some "14.0"%string) (Some "2.0.0"%string).

(** One license, no device yet. *)
Definition fresh (quota : Z) : Store := mkStore [unused quota] [] [] [] 1.

(** One license with machine ["m1"] bound. *)
Definition oneBound (quota : Z) (active : bool) (expires : option Z) : Store :=
  mkStore [license quota active expires] [bound 1 "m1" true] [] [] 2.

Definition release (i : nat) (version : string) (build : Z) (active : bool) : Update.t :=
  Update.mk i version build "normal" (String.append version ".dmg") 1000 "c0ffee"
    "notes" false active 0.

Definition releases : Store :=
  mkStore [] []
    [release 0 "1.0.9" 10009 true; release 1 "1.0.10" 10010 true;
     release 2 "1.0.11" 10011 false]
    [] 3.

Definition check (platform : string) : CheckUpdateDto :=
  mkCheckUpdateDto "1.0.0" platform "user-1" None.

Definition attempt (i : nat) (user target status : string) : UpdateHistory.t :=
  UpdateHistory.mk i 1 user "1.0.0" target "manual" status (Some "darwin"%string)
    None None None.

(** Two open attempts of ["user-1"] at 1.0.10, and one of another user. *)
Definition attempts : Store :=
  mkStore [] []
    [release 0 "1.0.9" 10009 true; release 1 "1.0.10" 10010 true]
    [attempt 2 "user-1" "1.0.10" "started"; attempt 3 "user-2" "1.0.10" "started";
     attempt 4 "user-1" "1.0.10" "started"]
    5.

(** A license is created, two machines are validated, one is released
    and validated again. *)
Definition session : list Call :=
  let key := LicenseKey.generateLicenseKey (Byte.x00, Byte.x01, Byte.x02)
               (Byte.x10, Byte.x20, Byte.x30) (Byte.x41, Byte.x42, Byte.x43) in
  [CreateLicense (Byte.x00, Byte.x01, Byte.x02) (Byte.x10, Byte.x20, Byte.x30)
     (Byte.x41, Byte.x42, Byte.x43)
     (LicenseRoutes.mkCreateLicenseBody None "2 Devices" None);
   ValidateLicense 10 (mkValidateLicenseDto key "m1" None None None);
   ValidateLicense 11 (mkValidateLicenseDto key "m2" None None None);
   ValidateLicense 12 (mkValidateLicenseDto key "m3" None None None);
   DeactivateDevice 13 key "m1";
   ValidateLicense 14 (mkValidateLicenseDto key "m3" None None None);
   CreateUpdate (mkCreateUpdateDto "1.0.9" 10009 "normal" "a.dmg" 5 "beef" "" false);
   CheckForUpdate (check "darwin")].

End Samples.

(** * Properties *)

(** ** The key and version helpers *)

Section VersionFacts.

Import LicenseKey.

Lemma split_noDot (p : string) : noDot p = true -> split p = [p].
Proof.
  induction p as [|c p IH]; simpl; intros H; [reflexivity|].
  apply andb_true_iff in H as [Hc Hp].
  apply negb_true_iff in Hc. rewrite Hc, (IH Hp). reflexivity.
Qed.

Lemma split_dotted (p rest : string) :
  noDot p = true -> split (dotted p rest) = p :: split rest.
Proof.
  unfold dotted.
  induction p as [|c p IH]; simpl; intros H; [reflexivity|].
  apply andb_true_iff in H as [Hc Hp].
  apply negb_true_iff in Hc. rewrite Hc, (IH Hp). reflexivity.
Qed.

Lemma digitsValue_uint (d : Decimal.uint) (acc : nat) :
  digitsValue (Z.of_nat acc) (NilEmpty.string_of_uint d)
  = Some (Z.of_nat (Nat.of_uint_acc d acc)).
Proof.
  revert acc.
  induction d as [|d IH|d IH|d IH|d IH|d IH|d IH|d IH|d IH|d IH|d IH]; intros acc;
    [reflexivity|..];
    cbn [NilEmpty.string_of_uint digitsValue Nat.of_uint_acc];
    match goal with
    | |- context [isDigit ?c] =>
        change (isDigit c) with true; cbv iota;
        let k := eval vm_compute in (Z.of_nat (nat_of_ascii c) - 48) in
        change (Z.of_nat (nat_of_ascii c) - 48) with k
    end;
    rewrite <- IH; f_equal; rewrite Nat.tail_mul_spec; lia.
Qed.

Lemma noDot_uint (d : Decimal.uint) : noDot (NilEmpty.string_of_uint d) = true.
Proof. induction d; simpl; auto. Qed.

Lemma Number_decimal (n : nat) : Number (decimal n) = Num (Z.of_nat n).
Proof.
  unfold Number, decimal.
  change 0 with (Z.of_nat 0).
  rewrite digitsValue_uint.
  change (Nat.of_uint_acc (Nat.to_uint n) 0) with (Nat.of_uint (Nat.to_uint n)).
  rewrite DecimalNat.Unsigned.of_to. reflexivity.
Qed.

Lemma noDot_decimal (n : nat) : noDot (decimal n) = true.
Proof. apply noDot_uint. Qed.

End VersionFacts.

(** The key format of the specification's examples. *)
Example isValidLicenseKeyFormat_samples :
  LicenseKey.isValidLicenseKeyFormat "MACMAN-ABCDE-12345-XY9Z0" = true
  /\ LicenseKey.isValidLicenseKeyFormat "macman-ABCDE-12345-XY9Z0" = false
  /\ LicenseKey.isValidLicenseKeyFormat "MACMAN-ABCD-12345-XY9Z0" = false
  /\ LicenseKey.isValidLicenseKeyFormat "MACMAN-ABCDE-12345" = false
  /\ LicenseKey.isValidLicenseKeyFormat "MACMAN-ABCDE-12345-XY9Z0 " = false.
Proof. repeat split. Qed.

Example versionToBuildNumber_samples :
  LicenseKey.versionToBuildNumber "2" = LicenseKey.Num 20000
  /\ LicenseKey.versionToBuildNumber "1.5" = LicenseKey.Num 10500
  /\ LicenseKey.versionToBuildNumber "1.2.3.4" = LicenseKey.Num 10203
  /\ LicenseKey.versionToBuildNumber "1.x.3" = LicenseKey.Num 10003
  /\ LicenseKey.versionToBuildNumber "beta" = LicenseKey.NaN.
Proof. repeat split. Qed.

(** C9.  [versionToBuildNumber] weighs the parts of a version as
    major*10000 + minor*100 + patch, a missing minor or patch counting 0
    (the weights are exact while the result is below 2^53).  It sends
    "1.0.8" to 10008 and "1.2.0" to 10200, and versions of equal weighted
    score get equal build numbers whatever their text: "1.100.0" and
    "2.0.0", "1.0" and "1.0.0". *)
Theorem versionToBuildNumber_weighted :
  (forall M m p : nat,
      Z.of_nat M * 10000 + Z.of_nat m * 100 + Z.of_nat p < 2 ^ 53 ->
      LicenseKey.versionToBuildNumber (dotted (decimal M) (dotted (decimal m) (decimal p)))
      = LicenseKey.Num (Z.of_nat M * 10000 + Z.of_nat m * 100 + Z.of_nat p)
      /\ LicenseKey.versionToBuildNumber (dotted (decimal M) (decimal m))
         = LicenseKey.Num (Z.of_nat M * 10000 + Z.of_nat m * 100 + 0)
      /\ LicenseKey.versionToBuildNumber (decimal M)
         = LicenseKey.Num (Z.of_nat M * 10000 + 0 * 100 + 0))
  /\ LicenseKey.versionToBuildNumber "1.0.8" = LicenseKey.Num 10008
  /\ LicenseKey.versionToBuildNumber "1.2.0" = LicenseKey.Num 10200
  /\ (forall M m p M' m' p' : nat,
         Z.of_nat M * 10000 + Z.of_nat m * 100 + Z.of_nat p < 2 ^ 53 ->
         Z.of_nat M * 10000 + Z.of_nat m * 100 + Z.of_nat p
         = Z.of_nat M' * 10000 + Z.of_nat m' * 100 + Z.of_nat p' ->
         LicenseKey.versionToBuildNumber (dotted (decimal M) (dotted (decimal m) (decimal p)))
         = LicenseKey.versionToBuildNumber
             (dotted (decimal M') (dotted (decimal m') (decimal p'))))
  /\ ("1.100.0"%string <> "2.0.0"%string
      /\ LicenseKey.versionToBuildNumber "1.100.0" = LicenseKey.versionToBuildNumber "2.0.0")
  /\ ("1.0"%string <> "1.0.0"%string
      /\ LicenseKey.versionToBuildNumber "1.0" = LicenseKey.versionToBuildNumber "1.0.0").
Proof.
  assert (full : forall M m p : nat,
             LicenseKey.versionToBuildNumber
               (dotted (decimal M) (dotted (decimal m) (decimal p)))
             = LicenseKey.Num (Z.of_nat M * 10000 + Z.of_nat m * 100 + Z.of_nat p)).
  { intros M m p. unfold LicenseKey.versionToBuildNumber.
    rewrite !split_dotted, split_noDot by apply noDot_decimal.
    cbn [map LicenseKey.first nth_error].
    rewrite !Number_decimal. reflexivity. }
  split; [|split; [reflexivity|split; [reflexivity|split; [|split]]]].
  - intros M m p _. split; [apply full|split].
    + unfold LicenseKey.versionToBuildNumber.
      rewrite split_dotted, split_noDot by apply noDot_decimal.
      cbn [map LicenseKey.first nth_error].
      rewrite !Number_decimal. reflexivity.
    + unfold LicenseKey.versionToBuildNumber.
      rewrite split_noDot by apply noDot_decimal.
      cbn [map LicenseKey.first nth_error].
      rewrite !Number_decimal. reflexivity.
  - intros M m p M' m' p' _ Heq. rewrite !full, Heq. reflexivity.
  - split; [discriminate|reflexivity].
  - split; [discriminate|reflexivity].
Qed.

Lemma versionToBuildNumber_weighted_witness :
  LicenseKey.versionToBuildNumber (dotted (decimal 1) (dotted (decimal 0) (decimal 8)))
  = LicenseKey.Num 10008
  /\ LicenseKey.versionToBuildNumber (dotted (decimal 1) (dotted (decimal 100) (decimal 0)))
     = LicenseKey.versionToBuildNumber (dotted (decimal 2) (dotted (decimal 0) (decimal 0))).
Proof.
  split.
  - apply (proj1 versionToBuildNumber_weighted 1%nat 0%nat 8%nat). reflexivity.
  - apply (proj1 (proj2 (proj2 (proj2 versionToBuildNumber_weighted)))
             1%nat 100%nat 0%nat 2%nat 0%nat 0%nat); reflexivity.
Defined.

(** ** The update resolver *)

Section UpdateFacts.

Import UpdateService.

Lemma firstDescending_none (rows : list Update.t) :
  firstDescending rows = None -> rows = [].
Proof.
  destruct rows as [|u rest]; [reflexivity|]. simpl.
  destruct (firstDescending rest) as [v|]; [|discriminate].
  destruct (Update.buildNumber u <? Update.buildNumber v); discriminate.
Qed.

Lemma firstDescending_max (rows : list Update.t) (latest : Update.t) :
  firstDescending rows = Some latest ->
  In latest rows
  /\ forall u, In u rows -> Update.buildNumber u <= Update.buildNumber latest.
Proof.
  revert latest. induction rows as [|u rest IH]; intros latest; simpl; [discriminate|].
  destruct (firstDescending rest) as [v|] eqn:Hrest.
  - destruct (IH v eq_refl) as [Hin Hmax].
    destruct (Update.buildNumber u <? Update.buildNumber v) eqn:Hlt; intros [= <-].
    + apply Z.ltb_lt in Hlt. split; [now right|].
      intros w [<-|Hw]; [lia|now apply Hmax].
    + apply Z.ltb_ge in Hlt. split; [now left|].
      intros w [<-|Hw]; [lia|]. specialize (Hmax w Hw). lia.
  - intros [= <-]. apply firstDescending_none in Hrest. subst rest.
    split; [now left|]. intros w [<-|[]]. lia.
Qed.

Lemma newerActive_spec (current : Z) (u : Update.t) :
  newerActive current u = true
  <-> Update.isActive u = true /\ current < Update.buildNumber u.
Proof.
  unfold newerActive. rewrite andb_true_iff, Z.ltb_lt. tauto.
Qed.

Lemma findFirst_none (current : Z) (s : Store) :
  (forall u, In u (updates s) -> Update.isActive u = true ->
             current < Update.buildNumber u -> False) ->
  findFirst current s = None.
Proof.
  intros Hnone. unfold findFirst.
  destruct (firstDescending _) as [v|] eqn:Hv; [|reflexivity].
  apply firstDescending_max in Hv as [Hin _].
  apply filter_In in Hin as [Hin Hq]. apply newerActive_spec in Hq as [Ha Hb].
  destruct (Hnone v Hin Ha Hb).
Qed.

Lemma findFirst_some (current : Z) (s : Store) (u : Update.t) :
  In u (updates s) -> Update.isActive u = true -> current < Update.buildNumber u ->
  exists latest,
    findFirst current s = Some latest
    /\ In latest (updates s)
    /\ Update.isActive latest = true
    /\ current < Update.buildNumber latest
    /\ forall w, In w (updates s) -> Update.isActive w = true ->
                 current < Update.buildNumber w ->
                 Update.buildNumber w <= Update.buildNumber latest.
Proof.
  intros Hin Ha Hb. unfold findFirst.
  assert (Hq : In u (filter (newerActive current) (updates s))).
  { apply filter_In. split; [assumption|]. now apply newerActive_spec. }
  destruct (firstDescending _) as [latest|] eqn:Hl.
  - exists latest. apply firstDescending_max in Hl as [Hlin Hmax].
    apply filter_In in Hlin as [Hlin Hlq]. apply newerActive_spec in Hlq as [Hla Hlb].
    repeat split; try assumption.
    intros w Hw Hwa Hwb. apply Hmax. apply filter_In. split; [assumption|].
    now apply newerActive_spec.
  - apply firstDescending_none in Hl. rewrite Hl in Hq. destruct Hq.
Qed.

End UpdateFacts.

(** C5.  For a reported version whose parts are runs of decimal digits
    and whose build number [current] is below 2^53 (there the number read
    off the version is the one the code derives):
    when no active release has a build number above [current] the answer
    is [updateAvailable = false] and the store, its history included, is
    left as it was; otherwise the release offered is active, above
    [current] and of the highest build number among all such releases, one
    ['started'] history row for this user and version pair is appended,
    and the answer carries that release's version, build number, release
    type, download path, file size, checksum, release notes and
    force-update flag. *)
Theorem checkForUpdate_offers_highest (d : CheckUpdateDto) (s : Store) (current : Z) :
  decimalParts (ck_version d) = true ->
  LicenseKey.versionToBuildNumber (ck_version d) = LicenseKey.Num current ->
  current < 2 ^ 53 ->
  ((forall u, In u (updates s) -> Update.isActive u = true ->
              current < Update.buildNumber u -> False) ->
   exists r,
     UpdateService.checkForUpdate d s = (Returned r, s)
     /\ updateAvailable r = false /\ latestVersion r = None)
  /\ ((exists u, In u (updates s) /\ Update.isActive u = true
                 /\ current < Update.buildNumber u) ->
      exists latest r s',
        UpdateService.checkForUpdate d s = (Returned r, s')
        /\ In latest (updates s)
        /\ Update.isActive latest = true
        /\ current < Update.buildNumber latest
        /\ (forall w, In w (updates s) -> Update.isActive w = true ->
                      current < Update.buildNumber w ->
                      Update.buildNumber w <= Update.buildNumber latest)
        /\ updateAvailable r = true
        /\ latestVersion r
           = Some (mkLatestVersion (Update.version latest) (Update.buildNumber latest)
                     (Update.releaseType latest)
                     (String.append "/api/v2/updates/download/" (Update.version latest))
                     (Update.fileSize latest) (Update.checksum latest)
                     (Update.releaseNotes latest) (Update.forceUpdate latest))
        /\ updateHistory s'
           = updateHistory s ++
               [UpdateHistory.mk (nextId s) (Update.id latest) (ck_userId d) (ck_version d)
                  (Update.version latest) "manual" "started" (Some (ck_platform d))
                  (ck_appVersion d) None None]
        /\ updates s' = updates s
        /\ licenses s' = licenses s
        /\ activations s' = activations s).
Proof.
  intros _ Hv _. unfold UpdateService.checkForUpdate. rewrite Hv. split.
  - intros Hnone. rewrite (findFirst_none current s Hnone).
    exists UpdateService.upToDate. repeat split.
  - intros (u & Hin & Ha & Hb).
    destruct (findFirst_some current s u Hin Ha Hb)
      as (latest & Hf & Hlin & Hla & Hlb & Hmax).
    rewrite Hf. eexists latest, _, _. split; [reflexivity|].
    repeat split; assumption.
Qed.

Lemma checkForUpdate_offers_highest_witness :
  exists latest r s',
    UpdateService.checkForUpdate (Samples.check "darwin") Samples.releases = (Returned r, s')
    /\ In latest (updates Samples.releases)
    /\ Update.isActive latest = true
    /\ 10000 < Update.buildNumber latest
    /\ (forall w, In w (updates Samples.releases) -> Update.isActive w = true ->
                  10000 < Update.buildNumber w ->
                  Update.buildNumber w <= Update.buildNumber latest)
    /\ updateAvailable r = true
    /\ latestVersion r
       = Some (mkLatestVersion (Update.version latest) (Update.buildNumber latest)
                 (Update.releaseType latest)
                 (String.append "/api/v2/updates/download/" (Update.version latest))
                 (Update.fileSize latest) (Update.checksum latest)
                 (Update.releaseNotes latest) (Update.forceUpdate latest))
    /\ updateHistory s'
       = updateHistory Samples.releases ++
           [UpdateHistory.mk (nextId Samples.releases) (Update.id latest) "user-1" "1.0.0"
              (Update.version latest) "manual" "started" (Some "darwin"%string)
              None None None]
    /\ updates s' = updates Samples.releases
    /\ licenses s' = licenses Samples.releases
    /\ activations s' = activations Samples.releases.
Proof.
  apply (proj2 (checkForUpdate_offers_highest (Samples.check "darwin") Samples.releases
                  10000 eq_refl eq_refl eq_refl)).
  exists (Samples.release 0 "1.0.9" 10009 true).
  split; [left; reflexivity|split; reflexivity].
Defined.

(** From 1.0.0 with builds 10009 and 10010 active (and 10011 withdrawn):
    10010 is offered. *)
Example checkForUpdate_two_candidates :
  fst (UpdateService.checkForUpdate (Samples.check "darwin") Samples.releases)
  = Returned (UpdateService.offer (Samples.release 1 "1.0.10" 10010 true)).
Proof. reflexivity. Qed.

Example checkForUpdate_single_candidate :
  fst (UpdateService.checkForUpdate (Samples.check "darwin")
         (mkStore [] [] [Samples.release 0 "1.0.9" 10009 true] [] 1))
  = Returned (UpdateService.offer (Samples.release 0 "1.0.9" 10009 true)).
Proof. reflexivity. Qed.

Example checkForUpdate_nothing_newer :
  UpdateService.checkForUpdate (mkCheckUpdateDto "1.0.10" "darwin" "user-1" None)
    Samples.releases
  = (Returned UpdateService.upToDate, Samples.releases).
Proof. reflexivity. Qed.

(** C6, as the specification words it, fails: a second release with the
    version "1.0.9" is refused with a [BadRequestError], not with the
    [ConflictError] class. *)
Lemma createUpdate_duplicate_not_conflict :
  UpdateService.createUpdate
    (mkCreateUpdateDto "1.0.9" 10009 "normal" "again.dmg" 5 "beef" "" false)
    Samples.releases
  = (Threw (BadRequestError (Text "Update version 1.0.9 already exists")), Samples.releases)
  /\ forall msg,
       fst (UpdateService.createUpdate
              (mkCreateUpdateDto "1.0.9" 10009 "normal" "again.dmg" 5 "beef" "" false)
              Samples.releases)
       <> Threw (ConflictError msg).
Proof. split; [reflexivity|]. intros msg. discriminate. Qed.

(** C6, amended.  Creating a release whose version string is already
    stored is refused with a [BadRequestError] and leaves the store, the
    existing release included, as it was; with a version not yet stored
    the release is persisted with the given fields, active and with a
    download counter of zero. *)
Theorem createUpdate_duplicate_or_fresh (d : CreateUpdateDto) (s : Store) :
  (forall existing,
      In existing (updates s) -> Update.version existing = cu_version d ->
      exists msg,
        UpdateService.createUpdate d s = (Threw (BadRequestError (Text msg)), s))
  /\ ((forall u, In u (updates s) -> Update.version u <> cu_version d) ->
      exists update,
        UpdateService.createUpdate d s
        = (Returned update,
           mkStore (licenses s) (activations s) (updates s ++ [update])
             (updateHistory s) (S (nextId s)))
        /\ Update.version update = cu_version d
        /\ Update.buildNumber update = cu_buildNumber d
        /\ Update.releaseType update = cu_releaseType d
        /\ Update.filename update = cu_filename d
        /\ Update.fileSize update = cu_fileSize d
        /\ Update.checksum update = cu_checksum d
        /\ Update.releaseNotes update = cu_releaseNotes d
        /\ Update.forceUpdate update = cu_forceUpdate d
        /\ Update.isActive update = true
        /\ Update.downloadCount update = 0).
Proof.
  unfold UpdateService.createUpdate, UpdateService.findUnique. split.
  - intros existing Hin Hv.
    destruct (find _ (updates s)) as [u|] eqn:Hf.
    + eexists. reflexivity.
    + exfalso. apply (find_none _ _ Hf) in Hin. rewrite Hv, String.eqb_refl in Hin.
      discriminate.
  - intros Hfresh.
    destruct (find _ (updates s)) as [u|] eqn:Hf.
    + apply find_some in Hf as [Hin Heq]. apply String.eqb_eq in Heq.
      destruct (Hfresh u Hin Heq).
    + eexists. split; [reflexivity|]. repeat split.
Qed.

Lemma createUpdate_duplicate_or_fresh_witness :
  (exists msg,
      UpdateService.createUpdate
        (mkCreateUpdateDto "1.0.9" 10009 "normal" "again.dmg" 5 "beef" "" false)
        Samples.releases
      = (Threw (BadRequestError (Text msg)), Samples.releases))
  /\ exists update,
       UpdateService.createUpdate
         (mkCreateUpdateDto "1.0.9" 10009 "normal" "first.dmg" 5 "beef" "" false) emptyStore
       = (Returned update, mkStore [] [] [update] [] 1)
       /\ Update.isActive update = true
       /\ Update.downloadCount update = 0.
Proof.
  split.
  - apply (proj1 (createUpdate_duplicate_or_fresh
                    (mkCreateUpdateDto "1.0.9" 10009 "normal" "again.dmg" 5 "beef" "" false)
                    Samples.releases)
             (Samples.release 0 "1.0.9" 10009 true)).
    + left. reflexivity.
    + reflexivity.
  - destruct (proj2 (createUpdate_duplicate_or_fresh
                       (mkCreateUpdateDto "1.0.9" 10009 "normal" "first.dmg" 5 "beef" "" false)
                       emptyStore))
      as (update & Hc & _ & _ & _ & _ & _ & _ & _ & _ & Ha & Hd).
    + intros u [].
    + exists update. split; [exact Hc|split; assumption].
Defined.

(** C10.  Two update checks that differ in nothing but the platform get
    the same answer: the same [updateAvailable] flag and the same release
    with the same metadata, or the same failure.  This holds for the
    service and for the route, where an absent platform stands for
    ['darwin']. *)
Theorem checkForUpdate_ignores_platform :
  (forall (version userId : string) (appVersion : option string)
          (platform1 platform2 : string) (s : Store),
      fst (UpdateService.checkForUpdate
             (mkCheckUpdateDto version platform1 userId appVersion) s)
      = fst (UpdateService.checkForUpdate
               (mkCheckUpdateDto version platform2 userId appVersion) s))
  /\ (forall (version userId appVersion : option string)
             (platform1 platform2 : option string) (s : Store),
         fst (UpdateController.check
                (UpdateController.mkCheckQuery version platform1 userId appVersion) s)
         = fst (UpdateController.check
                  (UpdateController.mkCheckQuery version platform2 userId appVersion) s)).
Proof.
  assert (service : forall version userId appVersion platform1 platform2 s,
             fst (UpdateService.checkForUpdate
                    (mkCheckUpdateDto version platform1 userId appVersion) s)
             = fst (UpdateService.checkForUpdate
                      (mkCheckUpdateDto version platform2 userId appVersion) s)).
  { intros version userId appVersion platform1 platform2 s.
    unfold UpdateService.checkForUpdate. simpl ck_version.
    destruct (LicenseKey.versionToBuildNumber version) as [|current]; [reflexivity|].
    destruct (UpdateService.findFirst current s); reflexivity. }
  split; [exact service|].
  intros version userId appVersion platform1 platform2 s.
  unfold UpdateController.check, UpdateController.checkUpdateSchema. simpl.
  destruct (UpdateController.nonEmpty version) eqn:Hv;
    destruct (UpdateController.nonEmpty userId) eqn:Hu; simpl; try reflexivity.
  unfold UpdateController.checkForUpdate. simpl. rewrite Hv, Hu. simpl.
  destruct version as [v|]; [|discriminate]. destruct userId as [u|]; [|discriminate].
  set (p1 := match platform1 with Some p => p | None => "darwin"%string end).
  set (p2 := match platform2 with Some p => p | None => "darwin"%string end).
  pose proof (service v u appVersion p1 p2 s) as Hs.
  destruct (UpdateService.checkForUpdate (mkCheckUpdateDto v p1 u appVersion) s) as [[r1|e1] s1];
    destruct (UpdateService.checkForUpdate (mkCheckUpdateDto v p2 u appVersion) s) as [[r2|e2] s2];
    simpl in *; congruence.
Qed.

Example checkForUpdate_platform_sample :
  fst (UpdateService.checkForUpdate (Samples.check "darwin") Samples.releases)
  = fst (UpdateService.checkForUpdate (Samples.check "win32") Samples.releases).
Proof. reflexivity. Qed.

(** ** The license tables *)

Section TableFacts.

Import LicenseService.

Lemma find_updateWhere {A : Type} (p sel : A -> bool) (f : A -> A) (rows : list A) :
  (forall x, p (f x) = p x) ->
  find p (updateWhere sel f rows)
  = option_map (fun x => if sel x then f x else x) (find p rows).
Proof.
  intros Hp. unfold updateWhere. induction rows as [|x rows IH]; [reflexivity|].
  simpl. destruct (sel x) eqn:Hs.
  - rewrite Hp. destruct (p x); [simpl; now rewrite Hs|exact IH].
  - destruct (p x); [simpl; now rewrite Hs|exact IH].
Qed.

Lemma active_of_active (license : License.t) (s : Store) :
  filter LicenseActivation.isActive (activeActivationsOf license s)
  = activeActivationsOf license s.
Proof.
  unfold activeActivationsOf.
  induction (activations s) as [|a rows IH]; [reflexivity|]. simpl.
  destruct (Nat.eqb _ _); simpl; [|exact IH].
  destruct (LicenseActivation.isActive a) eqn:Ha; simpl; [|exact IH].
  rewrite Ha, IH. reflexivity.
Qed.

Lemma activeCount_slots (license : License.t) (s s' : Store) :
  slots s' = slots s -> activeCount license s' = activeCount license s.
Proof.
  unfold activeCount, activeActivationsOf, slots. intros H. f_equal.
  revert H. generalize (activations s). generalize (activations s').
  induction l as [|a l IH]; intros [|b l0] H; try discriminate; [reflexivity|].
  simpl in H. injection H as H1 H2 H3 H4. simpl. rewrite H1, H3.
  destruct (_ && _); simpl; rewrite (IH l0 H4); reflexivity.
Qed.

Lemma boundTo_find (license : License.t) (machine : string) (s : Store) :
  boundTo license machine s ->
  exists existing,
    find (sameActiveMachine machine) (activeActivationsOf license s) = Some existing
    /\ In existing (activations s)
    /\ LicenseActivation.licenseId existing = License.id license
    /\ LicenseActivation.machineId existing = machine
    /\ LicenseActivation.isActive existing = true.
Proof.
  intros (a & Hin & Hl & Hm & Ha).
  destruct (find _ _) as [e|] eqn:Hf.
  - exists e. split; [reflexivity|].
    apply find_some in Hf as [He Hs]. apply filter_In in He as [He Hq].
    apply andb_true_iff in Hq as [Hq1 Hq2]. apply andb_true_iff in Hs as [Hs1 _].
    apply Nat.eqb_eq in Hq1. apply String.eqb_eq in Hs1. auto.
  - exfalso. assert (Hq : In a (activeActivationsOf license s)).
    { apply filter_In. split; [assumption|].
      rewrite Hl, Nat.eqb_refl, Ha. reflexivity. }
    apply (find_none _ _ Hf) in Hq. unfold sameActiveMachine in Hq.
    rewrite Hm, String.eqb_refl, Ha in Hq. discriminate.
Qed.

Lemma not_boundTo_find (license : License.t) (machine : string) (s : Store) :
  ~ boundTo license machine s ->
  find (sameActiveMachine machine) (activeActivationsOf license s) = None.
Proof.
  intros Hn. destruct (find _ _) as [e|] eqn:Hf; [|reflexivity].
  exfalso. apply Hn. apply find_some in Hf as [He Hs].
  apply filter_In in He as [He Hq].
  apply andb_true_iff in Hq as [Hq1 Hq2]. apply andb_true_iff in Hs as [Hs1 _].
  apply Nat.eqb_eq in Hq1. apply String.eqb_eq in Hs1.
  exists e. auto.
Qed.

Lemma isExpired_false (now : Z) (license : License.t) :
  unexpired now license -> isExpired now license = false.
Proof.
  unfold unexpired, isExpired. intros H.
  destruct (License.expiresAt license) as [t|]; [|reflexivity].
  apply Z.ltb_ge. now apply H.
Qed.

Lemma slots_refresh (now : Z) (d : ValidateLicenseDto) (i : nat) (s : Store) :
  slots (refreshActivation now d i s) = slots s.
Proof.
  unfold slots, refreshActivation, updateWhere. simpl. rewrite map_map.
  apply map_ext. intros a. destruct (hasId i a); reflexivity.
Qed.

Lemma findUnique_stamp (now : Z) (i : nat) (count : Z) (key : string) (s : Store) :
  findUnique key (stampLicense now i count s)
  = option_map (fun l => if licenseHasId i l then stamp now count l else l)
      (findUnique key s).
Proof.
  unfold findUnique, stampLicense. simpl. apply find_updateWhere. reflexivity.
Qed.

End TableFacts.

(** ** Validation *)

(** C1.  [validateLicense] decides in this order, each step ending the
    call: (1) a malformed key is [invalid_key], whatever the store holds;
    (2) a key storage does not know is [invalid_key]; (3) a license with
    [isActive = false] is [inactive]; (4) a license whose expiration lies
    in the past is [expired], also when the machine is already bound;
    (5) a machine with an active activation succeeds and no slot is
    taken; (6) with the active-device count at or above [maxDevices] the
    answer is [max_devices_reached]; (7) otherwise one active activation
    is created and the call succeeds. *)
Theorem validateLicense_decision_order (now : Z) (d : ValidateLicenseDto) (s : Store) :
  (LicenseKey.isValidLicenseKeyFormat (licenseKey d) = false ->
   forall s0,
     LicenseService.validateLicense now d s0
     = (mkLicenseResponse false "Invalid license key format" None (Some invalid_key) None,
        s0))
  /\ (LicenseKey.isValidLicenseKeyFormat (licenseKey d) = true ->
      (LicenseService.findUnique (licenseKey d) s = None ->
       LicenseService.validateLicense now d s
       = (mkLicenseResponse false "License key not found" None (Some invalid_key) None, s))
      /\ forall license,
          LicenseService.findUnique (licenseKey d) s = Some license ->
          (License.isActive license = false ->
           LicenseService.validateLicense now d s
           = (mkLicenseResponse false "This license has been deactivated" None
                (Some inactive) None, s))
          /\ (License.isActive license = true ->
              (forall t,
                  License.expiresAt license = Some t -> t < now ->
                  LicenseService.validateLicense now d s
                  = (mkLicenseResponse false "This license has expired" None
                       (Some expired) None, s))
              /\ (unexpired now license ->
                  (boundTo license (machineId d) s ->
                   fst (LicenseService.validateLicense now d s)
                   = mkLicenseResponse true "License validated successfully"
                       (Some (mkLicenseData (License.licenseKey license)
                                (License.plan license) (License.maxDevices license)
                                (activeCount license s) (License.isActive license)))
                       None None
                   /\ slots (snd (LicenseService.validateLicense now d s)) = slots s
                   /\ licenses (snd (LicenseService.validateLicense now d s)) = licenses s
                   /\ activeCount license (snd (LicenseService.validateLicense now d s))
                      = activeCount license s)
                  /\ (~ boundTo license (machineId d) s ->
                      (License.maxDevices license <= activeCount license s ->
                       valid (fst (LicenseService.validateLicense now d s)) = false
                       /\ errorType (fst (LicenseService.validateLicense now d s))
                          = Some max_devices_reached
                       /\ purchaseUrl (fst (LicenseService.validateLicense now d s))
                          = Some "https://macman.dev/#pricing"%string
                       /\ snd (LicenseService.validateLicense now d s) = s)
                      /\ (activeCount license s < License.maxDevices license ->
                          fst (LicenseService.validateLicense now d s)
                          = mkLicenseResponse true "License activated successfully"
                              (Some (mkLicenseData (License.licenseKey license)
                                       (License.plan license) (License.maxDevices license)
                                       (activeCount license s + 1)
                                       (License.isActive license)))
                              None None
                          /\ activations (snd (LicenseService.validateLicense now d s))
                             = activations s ++
                                 [LicenseActivation.mk (nextId s) (License.id license)
                                    (machineId d) (deviceName d) (osVersion d)
                                    (appVersion d) true None None]
                          /\ activeCount license
                               (snd (LicenseService.validateLicense now d s))
                             = activeCount license s + 1))))).
Proof.
  unfold LicenseService.validateLicense. split.
  - intros Hf s0. rewrite Hf. reflexivity.
  - intros Hf. rewrite Hf. simpl negb. cbv iota. split.
    + intros Hn. rewrite Hn. reflexivity.
    + intros license Hl. rewrite Hl. split.
      * intros Ha. rewrite Ha. reflexivity.
      * intros Ha. rewrite Ha. simpl negb. cbv iota. split.
        -- intros t Ht Hlt. unfold LicenseService.isExpired. rewrite Ht.
           apply Z.ltb_lt in Hlt. rewrite Hlt. reflexivity.
        -- intros Hu. rewrite (isExpired_false now license Hu). split.
           ++ intros Hb. destruct (boundTo_find license (machineId d) s Hb)
                as (existing & Hfind & _). rewrite Hfind. simpl fst. simpl snd.
              pose proof (slots_refresh now d (LicenseActivation.id existing) s) as Hs.
              unfold LicenseService.success. rewrite Ha.
              split; [reflexivity|]. split; [exact Hs|]. split; [reflexivity|].
              now apply activeCount_slots.
           ++ intros Hnb. rewrite (not_boundTo_find license (machineId d) s Hnb).
              rewrite active_of_active. fold (activeCount license s). split.
              ** intros Hfull. apply Z.geb_le in Hfull.
                 rewrite Hfull. repeat split.
              ** intros Hroom.
                 destruct (activeCount license s >=? License.maxDevices license) eqn:Hge.
                 { apply Z.geb_le in Hge. lia. }
                 simpl fst. simpl snd. unfold LicenseService.success. rewrite Ha.
                 split; [reflexivity|].
                 split; [reflexivity|].
                 unfold activeCount, LicenseService.activeActivationsOf. simpl.
                 rewrite filter_app, length_app. simpl.
                 rewrite Nat.eqb_refl. simpl. lia.
Qed.

Lemma validateLicense_decision_order_witness :
  LicenseService.validateLicense 10
    (mkValidateLicenseDto "macman-ABCDE-12345-XY9Z0" "m1" None None None)
    (Samples.oneBound 1 true None)
  = (mkLicenseResponse false "Invalid license key format" None (Some invalid_key) None,
     Samples.oneBound 1 true None)
  /\ LicenseService.validateLicense 10 (Samples.request "m1") emptyStore
     = (mkLicenseResponse false "License key not found" None (Some invalid_key) None,
        emptyStore)
  /\ LicenseService.validateLicense 10 (Samples.request "m1")
       (Samples.oneBound 1 false None)
     = (mkLicenseResponse false "This license has been deactivated" None
          (Some inactive) None, Samples.oneBound 1 false None)
  /\ LicenseService.validateLicense 10 (Samples.request "m1")
       (Samples.oneBound 1 true (Some 5))
     = (mkLicenseResponse false "This license has expired" None (Some expired) None,
        Samples.oneBound 1 true (Some 5))
  /\ fst (LicenseService.validateLicense 10 (Samples.request "m1")
            (Samples.oneBound 1 true None))
     = mkLicenseResponse true "License validated successfully"
         (Some (mkLicenseData Samples.key "Individual" 1 1 true)) None None
  /\ errorType (fst (LicenseService.validateLicense 10 (Samples.request "m2")
                       (Samples.oneBound 1 true None)))
     = Some max_devices_reached
  /\ fst (LicenseService.validateLicense 10 (Samples.request "m2")
            (Samples.oneBound 2 true None))
     = mkLicenseResponse true "License activated successfully"
         (Some (mkLicenseData Samples.key "Individual" 2 2 true)) None None.
Proof.
  assert (never : forall quota, unexpired 10 (Samples.license quota true None)).
  { intros quota t Ht. discriminate Ht. }
  assert (held : forall quota,
             boundTo (Samples.license quota true None) "m1"
               (Samples.oneBound quota true None)).
  { intros quota. exists (Samples.bound 1 "m1" true).
    split; [left; reflexivity|repeat split]. }
  assert (free : forall quota,
             ~ boundTo (Samples.license quota true None) "m2"
                 (Samples.oneBound quota true None)).
  { intros quota (a & [<-|[]] & _ & Hm & _). discriminate Hm. }
  split; [|split; [|split; [|split; [|split; [|split]]]]].
  - apply (proj1 (validateLicense_decision_order 10
                    (mkValidateLicenseDto "macman-ABCDE-12345-XY9Z0" "m1" None None None)
                    emptyStore)).
    reflexivity.
  - apply (proj1 (proj2 (validateLicense_decision_order 10 (Samples.request "m1")
                           emptyStore) eq_refl)).
    reflexivity.
  - apply (proj1 (proj2 (proj2 (validateLicense_decision_order 10 (Samples.request "m1")
                                  (Samples.oneBound 1 false None)) eq_refl)
                    (Samples.license 1 false None) eq_refl)).
    reflexivity.
  - apply (proj1 (proj2 (proj2 (proj2 (validateLicense_decision_order 10
                                         (Samples.request "m1")
                                         (Samples.oneBound 1 true (Some 5))) eq_refl)
                           (Samples.license 1 true (Some 5)) eq_refl) eq_refl) 5);
      reflexivity.
  - apply (proj1 (proj2 (proj2 (proj2 (proj2 (validateLicense_decision_order 10
                                                (Samples.request "m1")
                                                (Samples.oneBound 1 true None)) eq_refl)
                                  (Samples.license 1 true None) eq_refl) eq_refl)
                    (never 1))
             (held 1)).
  - apply (proj1 (proj2 (proj2 (proj2 (proj2 (proj2 (validateLicense_decision_order 10
                                                       (Samples.request "m2")
                                                       (Samples.oneBound 1 true None))
                                                eq_refl)
                                         (Samples.license 1 true None) eq_refl) eq_refl)
                           (never 1))
                    (free 1))).
    vm_compute. discriminate.
  - apply (proj2 (proj2 (proj2 (proj2 (proj2 (proj2 (validateLicense_decision_order 10
                                                       (Samples.request "m2")
                                                       (Samples.oneBound 2 true None))
                                                eq_refl)
                                         (Samples.license 2 true None) eq_refl) eq_refl)
                           (never 2))
                    (free 2))).
    reflexivity.
Defined.

Section RevalidationFacts.

Import LicenseService.

Lemma boundTo_slots (license : License.t) (machine : string) (s : Store) :
  boundTo license machine s <-> In (License.id license, machine, true) (slots s).
Proof.
  unfold boundTo, slots. rewrite in_map_iff. split.
  - intros (a & Hin & Hl & Hm & Ha). exists a. rewrite Hl, Hm, Ha. auto.
  - intros (a & Heq & Hin). injection Heq as Hl Hm Ha. exists a. auto.
Qed.

Lemma refresh_rows (now : Z) (d : ValidateLicenseDto) (i : nat)
    (rows : list LicenseActivation.t) :
  Forall2 (fun a a' =>
             if Nat.eqb (LicenseActivation.id a) i
             then sameBinding a a'
                  /\ LicenseActivation.lastSeenAt a' = Some now
                  /\ LicenseActivation.osVersion a'
                     = match osVersion d with
                       | Some v => Some v
                       | None => LicenseActivation.osVersion a
                       end
                  /\ LicenseActivation.appVersion a'
                     = match appVersion d with
                       | Some v => Some v
                       | None => LicenseActivation.appVersion a
                       end
             else a' = a)
    rows (updateWhere (hasId i) (refresh now d) rows).
Proof.
  induction rows as [|a rows IH]; simpl; constructor; [|exact IH].
  unfold hasId. destruct (Nat.eqb (LicenseActivation.id a) i); [|reflexivity].
  unfold sameBinding, refresh, orKeep. simpl. repeat split.
Qed.

(** A bound machine of a license that is switched off, or has expired,
    is refused, and nothing is written. *)
Lemma validate_bound_off (now : Z) (d : ValidateLicenseDto) (s : Store)
    (license : License.t) :
  findUnique (licenseKey d) s = Some license ->
  LicenseKey.isValidLicenseKeyFormat (licenseKey d) = true ->
  (License.isActive license = false ->
   validateLicense now d s
   = (mkLicenseResponse false "This license has been deactivated" None (Some inactive) None,
      s))
  /\ (License.isActive license = true ->
      forall t, License.expiresAt license = Some t -> t < now ->
      validateLicense now d s
      = (mkLicenseResponse false "This license has expired" None (Some expired) None, s)).
Proof.
  intros Hl Hf. unfold validateLicense. rewrite Hf, Hl. split.
  - intros ->. reflexivity.
  - intros -> t Ht Hlt. unfold isExpired. rewrite Ht.
    apply Z.ltb_lt in Hlt. rewrite Hlt. reflexivity.
Qed.

(** What one validation of a bound machine does to the store. *)
Lemma validate_bound_store (now : Z) (d : ValidateLicenseDto) (s : Store)
    (license : License.t) :
  findUnique (licenseKey d) s = Some license ->
  boundTo license (machineId d) s ->
  slots (snd (validateLicense now d s)) = slots s
  /\ licenses (snd (validateLicense now d s)) = licenses s.
Proof.
  intros Hl Hb. unfold validateLicense. rewrite Hl.
  destruct (boundTo_find license (machineId d) s Hb) as (existing & Hfind & _).
  rewrite Hfind.
  destruct (negb (LicenseKey.isValidLicenseKeyFormat (licenseKey d))); [now split|].
  destruct (negb (License.isActive license)); [now split|].
  destruct (isExpired now license); [now split|].
  simpl snd. split; [apply slots_refresh|reflexivity].
Qed.

Lemma validate_bound_answer (now : Z) (d : ValidateLicenseDto) (s : Store)
    (license : License.t) :
  findUnique (licenseKey d) s = Some license ->
  boundTo license (machineId d) s ->
  LicenseKey.isValidLicenseKeyFormat (licenseKey d) = true ->
  License.isActive license = true ->
  unexpired now license ->
  fst (validateLicense now d s)
  = validated "License validated successfully" license (activeCount license s)
  /\ exists existing,
       In existing (activations s)
       /\ LicenseActivation.licenseId existing = License.id license
       /\ LicenseActivation.machineId existing = machineId d
       /\ LicenseActivation.isActive existing = true
       /\ snd (validateLicense now d s)
          = refreshActivation now d (LicenseActivation.id existing) s.
Proof.
  intros Hl Hb Hf Ha Hu. unfold validateLicense. rewrite Hf, Hl, Ha.
  rewrite (isExpired_false now license Hu).
  destruct (boundTo_find license (machineId d) s Hb)
    as (existing & Hfind & Hin & Hlid & Hm & Hact).
  rewrite Hfind. simpl. split.
  - unfold success, validated. rewrite Ha. reflexivity.
  - exists existing. auto.
Qed.

End RevalidationFacts.

(** C3, as the specification words it, fails: a machine holds an active
    activation of a license that was deactivated, or that has expired, and
    validating it again does not succeed. *)
Lemma revalidation_fails_when_license_off :
  boundTo (Samples.license 1 false None) "m1" (Samples.oneBound 1 false None)
  /\ snd (LicenseService.deactivateLicense Samples.key (Samples.oneBound 1 true None))
     = Samples.oneBound 1 false None
  /\ LicenseService.findUnique Samples.key (Samples.oneBound 1 false None)
     = Some (Samples.license 1 false None)
  /\ valid (fst (LicenseService.validateLicense 10 (Samples.request "m1")
                   (Samples.oneBound 1 false None))) = false
  /\ errorType (fst (LicenseService.validateLicense 10 (Samples.request "m1")
                       (Samples.oneBound 1 false None))) = Some inactive
  /\ boundTo (Samples.license 1 true (Some 5)) "m1" (Samples.oneBound 1 true (Some 5))
  /\ errorType (fst (LicenseService.validateLicense 10 (Samples.request "m1")
                       (Samples.oneBound 1 true (Some 5)))) = Some expired.
Proof.
  split; [|split; [|split; [|split; [|split; [|split]]]]]; try reflexivity.
  - exists (Samples.bound 1 "m1" true). split; [left; reflexivity|repeat split].
  - exists (Samples.bound 1 "m1" true). split; [left; reflexivity|repeat split].
Qed.

Section RepeatFacts.

Import LicenseService.

Lemma findUnique_licenses (key : string) (s s' : Store) :
  licenses s' = licenses s -> findUnique key s' = findUnique key s.
Proof. unfold findUnique. intros ->. reflexivity. Qed.

Lemma slots_length (s s' : Store) :
  slots s' = slots s -> List.length (activations s') = List.length (activations s).
Proof.
  unfold slots. intros H. apply (f_equal (@List.length _)) in H.
  now rewrite !length_map in H.
Qed.

Lemma revalidate_many (d : ValidateLicenseDto) (license : License.t) (nows : list Z) :
  LicenseKey.isValidLicenseKeyFormat (licenseKey d) = true ->
  License.isActive license = true ->
  Forall (fun now => unexpired now license) nows ->
  forall s,
    findUnique (licenseKey d) s = Some license ->
    boundTo license (machineId d) s ->
    Forall (eq (validated "License validated successfully" license (activeCount license s)))
      (fst (validateAll (map (fun now => (now, d)) nows) s))
    /\ List.length (fst (validateAll (map (fun now => (now, d)) nows) s)) = List.length nows
    /\ slots (snd (validateAll (map (fun now => (now, d)) nows) s)) = slots s
    /\ licenses (snd (validateAll (map (fun now => (now, d)) nows) s)) = licenses s.
Proof.
  intros Hf Ha Hu. induction Hu as [|now nows Hnow Hrest IH]; intros s Hl Hb.
  - simpl. auto.
  - simpl.
    destruct (validate_bound_store now d s license Hl Hb) as [Hs Hls].
    destruct (validate_bound_answer now d s license Hl Hb Hf Ha Hnow) as [Hr _].
    destruct (validateLicense now d s) as [r s1]. simpl in Hs, Hls, Hr.
    assert (Hl1 : findUnique (licenseKey d) s1 = Some license).
    { rewrite (findUnique_licenses _ s s1 Hls). exact Hl. }
    assert (Hb1 : boundTo license (machineId d) s1).
    { apply boundTo_slots. rewrite Hs. now apply boundTo_slots. }
    destruct (IH s1 Hl1 Hb1) as (Hall & Hlen & Hs2 & Hl2).
    rewrite (activeCount_slots license s s1 Hs) in Hall.
    destruct (validateAll _ s1) as [rs s2]. simpl in *.
    repeat split; [constructor; [now symmetry|exact Hall]|now rewrite Hlen|congruence..].
Qed.

End RepeatFacts.

(** C3, amended.  Let machine [machineId d] hold an active activation of
    the license with key [licenseKey d].  Then no validation of that pair
    moves a slot: bindings, active flags, the number of activations, the
    license rows (cached count included) and every active-device count
    stay as they were.  With a well-formed key the call has three
    outcomes.  A deactivated license is refused as [inactive] and an
    active license whose expiration has passed as [expired], and nothing
    is written.  For an active license that is not expired the call
    succeeds and reports the active-device count found before the call;
    it writes the rows with the id of the matching activation and nothing
    else: [lastSeenAt] becomes the time of the call, [osVersion] and
    [appVersion] become the requested values where the request gives one
    and keep the stored value where it does not, the other columns and
    every other row and table are kept; repeating the call any number of
    times gives that same answer every time. *)
Theorem revalidation_keeps_slots (d : ValidateLicenseDto) (s : Store) (license : License.t) :
  LicenseService.findUnique (licenseKey d) s = Some license ->
  boundTo license (machineId d) s ->
  (forall now,
      slots (snd (LicenseService.validateLicense now d s)) = slots s
      /\ licenses (snd (LicenseService.validateLicense now d s)) = licenses s
      /\ List.length (activations (snd (LicenseService.validateLicense now d s)))
         = List.length (activations s)
      /\ forall l, activeCount l (snd (LicenseService.validateLicense now d s))
                   = activeCount l s)
  /\ (LicenseKey.isValidLicenseKeyFormat (licenseKey d) = true ->
      (License.isActive license = false ->
       forall now,
         LicenseService.validateLicense now d s
         = (mkLicenseResponse false "This license has been deactivated" None
              (Some inactive) None, s))
      /\ (License.isActive license = true ->
          forall now t,
            License.expiresAt license = Some t -> t < now ->
            LicenseService.validateLicense now d s
            = (mkLicenseResponse false "This license has expired" None
                 (Some expired) None, s))
      /\ (License.isActive license = true ->
          (forall now,
              unexpired now license ->
              fst (LicenseService.validateLicense now d s)
              = validated "License validated successfully" license (activeCount license s)
              /\ updates (snd (LicenseService.validateLicense now d s)) = updates s
              /\ updateHistory (snd (LicenseService.validateLicense now d s))
                 = updateHistory s
              /\ nextId (snd (LicenseService.validateLicense now d s)) = nextId s
              /\ exists existing,
                   In existing (activations s)
                   /\ LicenseActivation.licenseId existing = License.id license
                   /\ LicenseActivation.machineId existing = machineId d
                   /\ LicenseActivation.isActive existing = true
                   /\ Forall2
                        (fun a a' =>
                           if Nat.eqb (LicenseActivation.id a)
                                (LicenseActivation.id existing)
                           then sameBinding a a'
                                /\ LicenseActivation.lastSeenAt a' = Some now
                                /\ LicenseActivation.osVersion a'
                                   = match osVersion d with
                                     | Some v => Some v
                                     | None => LicenseActivation.osVersion a
                                     end
                                /\ LicenseActivation.appVersion a'
                                   = match appVersion d with
                                     | Some v => Some v
                                     | None => LicenseActivation.appVersion a
                                     end
                           else a' = a)
                        (activations s)
                        (activations (snd (LicenseService.validateLicense now d s))))
          /\ (forall nows,
                 Forall (fun now => unexpired now license) nows ->
                 Forall (eq (validated "License validated successfully" license
                               (activeCount license s)))
                   (fst (validateAll (map (fun now => (now, d)) nows) s))
                 /\ List.length (fst (validateAll (map (fun now => (now, d)) nows) s))
                    = List.length nows
                 /\ slots (snd (validateAll (map (fun now => (now, d)) nows) s))
                    = slots s
                 /\ licenses (snd (validateAll (map (fun now => (now, d)) nows) s))
                    = licenses s))).
Proof.
  intros Hl Hb. split.
  - intros now. destruct (validate_bound_store now d s license Hl Hb) as [Hs Hls].
    repeat split; try assumption.
    + now apply slots_length.
    + intros l. now apply activeCount_slots.
  - intros Hf. split; [|split].
    + intros Ha now. now apply (proj1 (validate_bound_off now d s license Hl Hf)).
    + intros Ha now t Ht Hlt.
      now apply (proj2 (validate_bound_off now d s license Hl Hf) Ha t).
    + intros Ha. split.
      * intros now Hu.
        destruct (validate_bound_answer now d s license Hl Hb Hf Ha Hu)
          as (Hr & existing & Hin & Hlid & Hm & Hact & Hs).
        split; [exact Hr|]. rewrite Hs.
        split; [reflexivity|]. split; [reflexivity|]. split; [reflexivity|].
        exists existing. repeat split; try assumption.
        apply refresh_rows.
      * intros nows Hu. now apply revalidate_many.
Qed.

Lemma revalidation_keeps_slots_witness :
  fst (LicenseService.validateLicense 10 (Samples.request "m1")
         (Samples.oneBound 1 true None))
  = validated "License validated successfully" (Samples.license 1 true None) 1
  /\ slots (snd (validateAll [(10, Samples.request "m1"); (11, Samples.request "m1");
                              (12, Samples.request "m1")]
                   (Samples.oneBound 1 true None)))
     = slots (Samples.oneBound 1 true None)
  /\ slots (snd (LicenseService.validateLicense 10 (Samples.request "m1")
                   (Samples.oneBound 1 true (Some 5))))
     = slots (Samples.oneBound 1 true (Some 5))
  /\ LicenseService.validateLicense 10 (Samples.request "m1")
       (Samples.oneBound 1 true (Some 5))
     = (mkLicenseResponse false "This license has expired" None (Some expired) None,
        Samples.oneBound 1 true (Some 5))
  /\ LicenseService.validateLicense 10 (Samples.request "m1")
       (Samples.oneBound 1 false None)
     = (mkLicenseResponse false "This license has been deactivated" None
          (Some inactive) None,
        Samples.oneBound 1 false None).
Proof.
  assert (held : forall active expires,
             boundTo (Samples.license 1 active expires) "m1"
               (Samples.oneBound 1 active expires)).
  { intros active expires. exists (Samples.bound 1 "m1" true).
    split; [left; reflexivity|repeat split]. }
  assert (never : forall now, unexpired now (Samples.license 1 true None)).
  { intros now t Ht. discriminate Ht. }
  split; [|split; [|split; [|split]]].
  - apply (proj1 (proj2 (proj2 (proj2 (revalidation_keeps_slots (Samples.request "m1")
                                         (Samples.oneBound 1 true None)
                                         (Samples.license 1 true None)
                                         eq_refl (held true None)) eq_refl))
                    eq_refl) 10 (never 10)).
  - apply (proj2 (proj2 (proj2 (proj2 (revalidation_keeps_slots (Samples.request "m1")
                                         (Samples.oneBound 1 true None)
                                         (Samples.license 1 true None)
                                         eq_refl (held true None)) eq_refl))
                    eq_refl) [10; 11; 12]).
    repeat constructor; apply never.
  - apply (proj1 (revalidation_keeps_slots (Samples.request "m1")
                    (Samples.oneBound 1 true (Some 5)) (Samples.license 1 true (Some 5))
                    eq_refl (held true (Some 5))) 10).
  - apply (proj1 (proj2 (proj2 (revalidation_keeps_slots (Samples.request "m1")
                                  (Samples.oneBound 1 true (Some 5))
                                  (Samples.license 1 true (Some 5))
                                  eq_refl (held true (Some 5))) eq_refl))
             eq_refl 10 5 eq_refl).
    reflexivity.
  - apply (proj1 (proj2 (revalidation_keeps_slots (Samples.request "m1")
                           (Samples.oneBound 1 false None)
                           (Samples.license 1 false None)
                           eq_refl (held false None)) eq_refl)
             eq_refl 10).
Defined.

(** ** The device quota *)

Section QuotaFacts.

Import LicenseService.

Lemma activeCount_heldSlots (license : License.t) (s : Store) :
  activeCount license s = heldSlots (License.id license) s.
Proof.
  unfold activeCount, heldSlots, activeActivationsOf, slots. f_equal.
  induction (activations s) as [|a rows IH]; [reflexivity|]. simpl.
  destruct (_ && _); simpl; now rewrite IH.
Qed.

Lemma heldSlots_app (lid : nat) (s s' : Store) (new : list (nat * string * bool)) :
  slots s' = slots s ++ new ->
  heldSlots lid s'
  = heldSlots lid s
    + Z.of_nat (List.length
                  (filter (fun x : nat * string * bool =>
                             Nat.eqb (fst (fst x)) lid && snd x) new)).
Proof.
  unfold heldSlots. intros ->. rewrite filter_app, length_app. lia.
Qed.

(** One validation of a machine not yet bound, with room left. *)
Lemma validate_new (now : Z) (d : ValidateLicenseDto) (s : Store) (license : License.t) :
  LicenseKey.isValidLicenseKeyFormat (licenseKey d) = true ->
  findUnique (licenseKey d) s = Some license ->
  License.isActive license = true ->
  unexpired now license ->
  ~ boundTo license (machineId d) s ->
  activeCount license s < License.maxDevices license ->
  fst (validateLicense now d s)
  = validated "License activated successfully" license (activeCount license s + 1)
  /\ findUnique (licenseKey d) (snd (validateLicense now d s))
     = Some (stamp now (activeCount license s + 1) license)
  /\ slots (snd (validateLicense now d s))
     = slots s ++ [(License.id license, machineId d, true)].
Proof.
  intros Hf Hl Ha Hu Hnb Hroom. unfold validateLicense.
  rewrite Hf, Hl, Ha, (isExpired_false now license Hu).
  rewrite (not_boundTo_find license (machineId d) s Hnb).
  rewrite active_of_active. fold (activeCount license s). simpl negb. cbv iota.
  destruct (activeCount license s >=? License.maxDevices license) eqn:Hge.
  { apply Z.geb_le in Hge. lia. }
  simpl fst. simpl snd. split; [|split].
  - unfold success, validated. rewrite Ha. reflexivity.
  - rewrite findUnique_stamp.
    replace (findUnique (licenseKey d) (createActivation license d s))
      with (Some license) by (symmetry; exact Hl).
    simpl. unfold licenseHasId. rewrite Nat.eqb_refl. reflexivity.
  - unfold slots. simpl. rewrite map_app. reflexivity.
Qed.

Lemma terms_stamp (now count : Z) (license : License.t) :
  terms (stamp now count license) = terms license.
Proof. reflexivity. Qed.

Lemma bind_all (lid : nat) (key : string) (quota : Z) (expires : option Z)
    (requests : list (Z * ValidateLicenseDto)) :
  LicenseKey.isValidLicenseKeyFormat key = true ->
  Forall (fun r => licenseKey (snd r) = key
                   /\ forall t, expires = Some t -> fst r <= t) requests ->
  NoDup (map machineOf requests) ->
  forall s,
    (exists license,
        findUnique key s = Some license /\ terms license = (lid, key, quota, true, expires)) ->
    (forall r, In r requests -> ~ In (lid, machineOf r, true) (slots s)) ->
    heldSlots lid s + Z.of_nat (List.length requests) <= quota ->
    (exists license,
        findUnique key (snd (validateAll requests s)) = Some license
        /\ terms license = (lid, key, quota, true, expires))
    /\ Forall (fun a => valid a = true) (fst (validateAll requests s))
    /\ List.length (fst (validateAll requests s)) = List.length requests
    /\ slots (snd (validateAll requests s))
       = slots s ++ map (fun r => (lid, machineOf r, true)) requests.
Proof.
  intros Hf Hreq. induction Hreq as [|[now d] rest [Hk Hexp] Hrest IH];
    intros Hnd s Hlic Hfree Hroom.
  - simpl. rewrite app_nil_r. auto.
  - simpl in Hk, Hexp. subst key. destruct Hlic as (license & Hl & Ht).
    injection Ht as Hid Hkey Hq Ha He.
    inversion Hnd as [|m ms Hnotin Hnd']; subst m ms.
    assert (Hu : unexpired now license).
    { intros t Ht. apply Hexp. now rewrite <- He. }
    assert (Hnb : ~ boundTo license (machineId d) s).
    { rewrite boundTo_slots, Hid. apply (Hfree (now, d)). now left. }
    assert (Hlt : activeCount license s < License.maxDevices license).
    { rewrite activeCount_heldSlots, Hid, Hq. simpl List.length in Hroom. lia. }
    destruct (validate_new now d s license Hf Hl Ha Hu Hnb Hlt) as (Hr & Hl1 & Hs1).
    simpl. destruct (validateLicense now d s) as [r s1]. simpl in Hr, Hl1, Hs1.
    rewrite Hid in Hs1.
    assert (Hlic1 : exists license1,
               findUnique (licenseKey d) s1 = Some license1
               /\ terms license1 = (lid, licenseKey d, quota, true, expires)).
    { eexists. split; [exact Hl1|]. rewrite terms_stamp. unfold terms. congruence. }
    assert (Hfree1 : forall r0, In r0 rest -> ~ In (lid, machineOf r0, true) (slots s1)).
    { intros r0 Hin. rewrite Hs1, in_app_iff. intros [Hold|[Heq|[]]].
      - apply (Hfree r0); [now right|exact Hold].
      - injection Heq as Hm. apply Hnotin. apply in_map_iff. exists r0.
        split; [symmetry; exact Hm|exact Hin]. }
    assert (Hroom1 : heldSlots lid s1 + Z.of_nat (List.length rest) <= quota).
    { rewrite (heldSlots_app lid s s1 _ Hs1). simpl. rewrite Nat.eqb_refl. simpl.
      simpl List.length in Hroom. lia. }
    destruct (IH Hnd' s1 Hlic1 Hfree1 Hroom1) as (Hlic2 & Hall & Hlen & Hs2).
    destruct (validateAll rest s1) as [rs s2]. simpl in *.
    split; [exact Hlic2|]. split; [|split].
    + constructor; [now rewrite Hr|exact Hall].
    + now rewrite Hlen.
    + rewrite Hs2, Hs1, <- app_assoc. reflexivity.
Qed.

End QuotaFacts.

Section FullFacts.

Import LicenseService.

(** One validation of a machine not yet bound, with no room left. *)
Lemma validate_full (now : Z) (d : ValidateLicenseDto) (s : Store) (license : License.t) :
  LicenseKey.isValidLicenseKeyFormat (licenseKey d) = true ->
  findUnique (licenseKey d) s = Some license ->
  License.isActive license = true ->
  unexpired now license ->
  ~ boundTo license (machineId d) s ->
  License.maxDevices license <= activeCount license s ->
  validateLicense now d s
  = (failure (maxDevicesMessage license) max_devices_reached (Some purchaseLink), s).
Proof.
  intros Hf Hl Ha Hu Hnb Hfull. unfold validateLicense.
  rewrite Hf, Hl, Ha, (isExpired_false now license Hu).
  rewrite (not_boundTo_find license (machineId d) s Hnb).
  rewrite active_of_active. fold (activeCount license s).
  apply Z.geb_le in Hfull. rewrite Hfull. reflexivity.
Qed.

Lemma heldSlots_none (lid : nat) (s : Store) :
  (forall a, In a (activations s) -> LicenseActivation.licenseId a <> lid) ->
  heldSlots lid s = 0.
Proof.
  unfold heldSlots, slots. intros Hnone.
  induction (activations s) as [|a rows IH]; [reflexivity|]. simpl.
  destruct (Nat.eqb (LicenseActivation.licenseId a) lid) eqn:Hid.
  - apply Nat.eqb_eq in Hid. destruct (Hnone a (or_introl eq_refl) Hid).
  - simpl. apply IH. intros b Hb. apply Hnone. now right.
Qed.

Lemma held_all {A : Type} (lid : nat) (f : A -> string) (xs : list A) :
  List.length
    (filter (fun x : nat * string * bool => Nat.eqb (fst (fst x)) lid && snd x)
       (map (fun r => (lid, f r, true)) xs))
  = List.length xs.
Proof.
  induction xs as [|x xs IH]; [reflexivity|]. simpl.
  rewrite Nat.eqb_refl. simpl. now rewrite IH.
Qed.

End FullFacts.

(** C2.  Take an active license with a well-formed key, [maxDevices = N]
    and no activation yet, and N requests for it from N distinct machines,
    run one after the other while the license is not expired: all N
    succeed.  A further request from one more distinct machine is answered
    [max_devices_reached] with the purchase link, and leaves the store,
    hence the set of active activations, as it was. *)
Theorem quota_allows_maxDevices_machines
    (requests : list (Z * ValidateLicenseDto)) (extra : Z * ValidateLicenseDto)
    (s : Store) (license : License.t) :
  LicenseKey.isValidLicenseKeyFormat (License.licenseKey license) = true ->
  LicenseService.findUnique (License.licenseKey license) s = Some license ->
  License.isActive license = true ->
  (forall a, In a (activations s) ->
             LicenseActivation.licenseId a <> License.id license) ->
  License.maxDevices license = Z.of_nat (List.length requests) ->
  Forall (fun r => licenseKey (snd r) = License.licenseKey license
                   /\ unexpired (fst r) license) (requests ++ [extra]) ->
  NoDup (map machineOf (requests ++ [extra])) ->
  Forall (fun a => valid a = true) (fst (validateAll requests s))
  /\ List.length (fst (validateAll requests s)) = List.length requests
  /\ valid (fst (LicenseService.validateLicense (fst extra) (snd extra)
                   (snd (validateAll requests s)))) = false
  /\ errorType (fst (LicenseService.validateLicense (fst extra) (snd extra)
                       (snd (validateAll requests s)))) = Some max_devices_reached
  /\ purchaseUrl (fst (LicenseService.validateLicense (fst extra) (snd extra)
                         (snd (validateAll requests s))))
     = Some "https://macman.dev/#pricing"%string
  /\ snd (LicenseService.validateLicense (fst extra) (snd extra)
            (snd (validateAll requests s)))
     = snd (validateAll requests s).
Proof.
  intros Hf Hl Ha Hnone Hq Hreq Hnd.
  apply Forall_app in Hreq as [Hreq Hextra].
  apply Forall_inv in Hextra as [Hk Hu].
  rewrite map_app in Hnd. simpl in Hnd.
  pose proof (NoDup_remove_1 _ _ _ Hnd) as Hnd1. rewrite app_nil_r in Hnd1.
  pose proof (NoDup_remove_2 _ _ _ Hnd) as Hnew. rewrite app_nil_r in Hnew.
  assert (Hfree : forall m, ~ In (License.id license, m, true) (slots s)).
  { intros m Hin. apply in_map_iff in Hin as (a & Heq & Hin).
    injection Heq as Hid _ _. exact (Hnone a Hin Hid). }
  destruct (bind_all (License.id license) (License.licenseKey license)
              (License.maxDevices license) (License.expiresAt license) requests Hf)
    with (s := s) as ((license1 & Hl1 & Ht1) & Hall & Hlen & Hs1).
  - eapply Forall_impl; [|exact Hreq]. intros r [Hrk Hru]. split; [exact Hrk|exact Hru].
  - exact Hnd1.
  - exists license. split; [exact Hl|]. unfold terms. now rewrite Ha.
  - intros r _. apply Hfree.
  - rewrite (heldSlots_none _ s Hnone). lia.
  - split; [exact Hall|]. split; [exact Hlen|].
    injection Ht1 as Hid1 Hkey1 Hq1 Ha1 He1.
    rewrite <- Hk in Hl1.
    rewrite (validate_full (fst extra) (snd extra) _ license1).
    + repeat split.
    + now rewrite Hk.
    + exact Hl1.
    + exact Ha1.
    + intros t Ht. apply Hu. now rewrite <- He1.
    + rewrite boundTo_slots, Hid1, Hs1, in_app_iff. intros [Hold|Hin].
      * exact (Hfree _ Hold).
      * apply in_map_iff in Hin as (r & Heq & Hin). injection Heq as Hm.
        apply Hnew. apply in_map_iff. exists r. split; [exact Hm|exact Hin].
    + rewrite activeCount_heldSlots, Hid1, Hq1.
      rewrite (heldSlots_app _ s _ _ Hs1), (heldSlots_none _ s Hnone), held_all. lia.
Qed.

Lemma quota_allows_maxDevices_machines_witness :
  Forall (fun a => valid a = true)
    (fst (validateAll [(10, Samples.request "m1"); (11, Samples.request "m2")]
            (Samples.fresh 2)))
  /\ errorType (fst (LicenseService.validateLicense 12 (Samples.request "m3")
                       (snd (validateAll
                               [(10, Samples.request "m1"); (11, Samples.request "m2")]
                               (Samples.fresh 2)))))
     = Some max_devices_reached
  /\ snd (LicenseService.validateLicense 12 (Samples.request "m3")
            (snd (validateAll [(10, Samples.request "m1"); (11, Samples.request "m2")]
                    (Samples.fresh 2))))
     = snd (validateAll [(10, Samples.request "m1"); (11, Samples.request "m2")]
              (Samples.fresh 2)).
Proof.
  destruct (quota_allows_maxDevices_machines
              [(10, Samples.request "m1"); (11, Samples.request "m2")]
              (12, Samples.request "m3") (Samples.fresh 2) (Samples.unused 2))
    as (Hall & _ & _ & He & _ & Hs).
  - reflexivity.
  - reflexivity.
  - reflexivity.
  - intros a [].
  - reflexivity.
  - repeat constructor; intros t Ht; discriminate Ht.
  - repeat constructor; simpl; intuition discriminate.
  - split; [exact Hall|split; [exact He|exact Hs]].
Defined.

(** ** Releasing a device *)

Section DeactivateFacts.

Import LicenseService.

Lemma boundTo_find_all (license : License.t) (machine : string) (s : Store) :
  boundTo license machine s ->
  exists activation,
    find (sameActiveMachine machine) (activationsOf license s) = Some activation
    /\ In activation (activations s)
    /\ LicenseActivation.licenseId activation = License.id license
    /\ LicenseActivation.machineId activation = machine
    /\ LicenseActivation.isActive activation = true.
Proof.
  intros (a & Hin & Hl & Hm & Ha).
  destruct (find _ _) as [e|] eqn:Hf.
  - exists e. split; [reflexivity|].
    apply find_some in Hf as [He Hs]. apply filter_In in He as [He Hq].
    apply andb_true_iff in Hs as [Hs1 Hs2].
    apply Nat.eqb_eq in Hq. apply String.eqb_eq in Hs1. auto.
  - exfalso. assert (Hq : In a (activationsOf license s)).
    { apply filter_In. split; [assumption|]. rewrite Hl. apply Nat.eqb_refl. }
    apply (find_none _ _ Hf) in Hq. unfold sameActiveMachine in Hq.
    rewrite Hm, String.eqb_refl, Ha in Hq. discriminate.
Qed.

Lemma not_boundTo_find_all (license : License.t) (machine : string) (s : Store) :
  ~ boundTo license machine s ->
  find (sameActiveMachine machine) (activationsOf license s) = None.
Proof.
  intros Hn. destruct (find _ _) as [e|] eqn:Hf; [|reflexivity].
  exfalso. apply Hn. apply find_some in Hf as [He Hs].
  apply filter_In in He as [He Hq]. apply andb_true_iff in Hs as [Hs1 Hs2].
  apply Nat.eqb_eq in Hq. apply String.eqb_eq in Hs1.
  exists e. auto.
Qed.

Lemma updateWhere_none {A : Type} (sel : A -> bool) (f : A -> A) (rows : list A) :
  (forall x, In x rows -> sel x = false) -> updateWhere sel f rows = rows.
Proof.
  unfold updateWhere. induction rows as [|x rows IH]; intros H; [reflexivity|].
  simpl. rewrite (H x (or_introl eq_refl)), IH; [reflexivity|].
  intros y Hy. apply H. now right.
Qed.

Lemma switchOff_rows (now : Z) (i : nat) (rows : list LicenseActivation.t) :
  Forall2 (fun a a' =>
             if Nat.eqb (LicenseActivation.id a) i
             then a' = switchOff now a
             else a' = a)
    rows (updateWhere (hasId i) (switchOff now) rows).
Proof.
  induction rows as [|a rows IH]; simpl; constructor; [|exact IH].
  unfold hasId. destruct (Nat.eqb (LicenseActivation.id a) i); reflexivity.
Qed.

(** With row ids that are unique, switching one active row off lowers the
    count of active rows of its license by one. *)
Lemma switchOff_count (now : Z) (lid : nat) (activation : LicenseActivation.t)
    (rows : list LicenseActivation.t) :
  NoDup (map LicenseActivation.id rows) ->
  In activation rows ->
  LicenseActivation.licenseId activation = lid ->
  LicenseActivation.isActive activation = true ->
  Z.of_nat (List.length
              (filter (fun a => Nat.eqb (LicenseActivation.licenseId a) lid
                                && LicenseActivation.isActive a)
                 (updateWhere (hasId (LicenseActivation.id activation))
                    (switchOff now) rows)))
  = Z.of_nat (List.length
                (filter (fun a => Nat.eqb (LicenseActivation.licenseId a) lid
                                  && LicenseActivation.isActive a) rows)) - 1.
Proof.
  intros Hnd Hin Hl Ha. induction rows as [|a rows IH]; [destruct Hin|].
  simpl in Hnd. inversion Hnd as [|i ids Hnotin Hnd']; subst i ids.
  destruct Hin as [<-|Hin].
  - assert (Htail : updateWhere (hasId (LicenseActivation.id a)) (switchOff now) rows
                    = rows).
    { apply updateWhere_none. intros x Hx. unfold hasId. apply Nat.eqb_neq.
      intros Heq. apply Hnotin. rewrite <- Heq. now apply in_map. }
    assert (Hhead : hasId (LicenseActivation.id a) a = true).
    { unfold hasId. apply Nat.eqb_refl. }
    change (updateWhere (hasId (LicenseActivation.id a)) (switchOff now) (a :: rows))
      with ((if hasId (LicenseActivation.id a) a then switchOff now a else a)
              :: updateWhere (hasId (LicenseActivation.id a)) (switchOff now) rows).
    rewrite Htail, Hhead. cbn [filter].
    change (LicenseActivation.isActive (switchOff now a)) with false.
    rewrite andb_false_r, Hl, Nat.eqb_refl, Ha. cbn [andb List.length]. lia.
  - assert (Hne : hasId (LicenseActivation.id activation) a = false).
    { unfold hasId. apply Nat.eqb_neq. intros Heq. apply Hnotin.
      rewrite Heq. now apply in_map. }
    change (updateWhere (hasId (LicenseActivation.id activation)) (switchOff now)
              (a :: rows))
      with ((if hasId (LicenseActivation.id activation) a then switchOff now a else a)
              :: updateWhere (hasId (LicenseActivation.id activation)) (switchOff now)
                   rows).
    rewrite Hne. cbn [filter].
    destruct (Nat.eqb (LicenseActivation.licenseId a) lid
              && LicenseActivation.isActive a); cbn [List.length].
    + specialize (IH Hnd' Hin). lia.
    + exact (IH Hnd' Hin).
Qed.

End DeactivateFacts.

(** C4.  [deactivateDevice] fails with [NotFoundError] exactly when the
    key names no license with an active activation of the machine (no such
    license, no such device, or a device already inactive); a failing
    call is a [NotFoundError] and changes nothing.  Otherwise it succeeds:
    the rows with the id of the matching active activation become
    inactive and get the deactivation time, every other row is kept, and
    the cached [deviceCount] of the license goes down by exactly one; with
    unique row ids the number of active activations of the license goes
    down by exactly one as well. *)
Theorem deactivateDevice_pairs_release (now : Z) (key machine : string) (s : Store) :
  ((exists msg,
       fst (LicenseService.deactivateDevice now key machine s) = Threw (NotFoundError msg))
   <-> ~ (exists license,
             LicenseService.findUnique key s = Some license
             /\ boundTo license machine s))
  /\ (forall e,
         fst (LicenseService.deactivateDevice now key machine s) = Threw e ->
         (exists msg, e = NotFoundError msg)
         /\ snd (LicenseService.deactivateDevice now key machine s) = s)
  /\ (forall license,
         LicenseService.findUnique key s = Some license ->
         boundTo license machine s ->
         exists activation license',
           fst (LicenseService.deactivateDevice now key machine s) = Returned true
           /\ In activation (activations s)
           /\ LicenseActivation.licenseId activation = License.id license
           /\ LicenseActivation.machineId activation = machine
           /\ LicenseActivation.isActive activation = true
           /\ Forall2
                (fun a a' =>
                   if Nat.eqb (LicenseActivation.id a) (LicenseActivation.id activation)
                   then LicenseActivation.isActive a' = false
                        /\ LicenseActivation.deactivatedAt a' = Some now
                        /\ LicenseActivation.id a' = LicenseActivation.id a
                        /\ LicenseActivation.licenseId a' = LicenseActivation.licenseId a
                        /\ LicenseActivation.machineId a' = LicenseActivation.machineId a
                   else a' = a)
                (activations s)
                (activations (snd (LicenseService.deactivateDevice now key machine s)))
           /\ LicenseService.findUnique key
                (snd (LicenseService.deactivateDevice now key machine s))
              = Some license'
           /\ License.deviceCount license' = License.deviceCount license - 1
           /\ terms license' = terms license
           /\ (NoDup (map LicenseActivation.id (activations s)) ->
               activeCount license
                 (snd (LicenseService.deactivateDevice now key machine s))
               = activeCount license s - 1)).
Proof.
  unfold LicenseService.deactivateDevice.
  destruct (LicenseService.findUnique key s) as [license|] eqn:Hl.
  - destruct (find (LicenseService.sameActiveMachine machine)
                (LicenseService.activationsOf license s)) as [activation|] eqn:Hfind.
    + assert (Hb : boundTo license machine s).
      { apply find_some in Hfind as [He Hs]. apply filter_In in He as [He Hq].
        apply andb_true_iff in Hs as [Hs1 Hs2].
        apply Nat.eqb_eq in Hq. apply String.eqb_eq in Hs1. exists activation. auto. }
      split; [|split].
      * simpl. split.
        -- intros [msg Hmsg]. discriminate Hmsg.
        -- intros Hn. exfalso. apply Hn. exists license. auto.
      * intros e He. discriminate He.
      * intros license0 [= <-] _.
        apply find_some in Hfind as [He Hs]. apply filter_In in He as [He Hq].
        apply andb_true_iff in Hs as [Hs1 Hs2].
        apply Nat.eqb_eq in Hq. apply String.eqb_eq in Hs1.
        exists activation,
          (LicenseService.setDeviceCount (License.deviceCount license - 1) license).
        simpl fst. simpl snd.
        split; [reflexivity|]. split; [exact He|]. split; [exact Hq|].
        split; [exact Hs1|]. split; [exact Hs2|]. split; [|split; [|split; [|split]]].
        -- simpl. eapply Forall2_impl; [|apply switchOff_rows].
           intros a a' Ha. simpl in Ha.
           destruct (Nat.eqb _ _); [subst a'; repeat split|exact Ha].
        -- unfold LicenseService.findUnique. simpl.
           rewrite find_updateWhere by reflexivity.
           fold (LicenseService.findUnique key s). rewrite Hl. simpl.
           unfold LicenseService.licenseHasId. rewrite Nat.eqb_refl. reflexivity.
        -- reflexivity.
        -- reflexivity.
        -- intros Hnd. unfold activeCount, LicenseService.activeActivationsOf. simpl.
           apply switchOff_count; assumption.
    + assert (Hnb : ~ boundTo license machine s).
      { intros Hb. destruct (boundTo_find_all license machine s Hb) as (a & Ha & _).
        rewrite Ha in Hfind. discriminate Hfind. }
      split; [|split].
      * simpl. split.
        -- intros _ (license0 & [= <-] & Hb). exact (Hnb Hb).
        -- intros _. eexists. reflexivity.
      * simpl. intros e [= <-]. split; [eexists; reflexivity|reflexivity].
      * intros license0 [= <-] Hb. destruct (Hnb Hb).
  - split; [|split].
    + simpl. split.
      * intros _ (license0 & Habs & _). discriminate Habs.
      * intros _. eexists. reflexivity.
    + simpl. intros e [= <-]. split; [eexists; reflexivity|reflexivity].
    + intros license0 Habs. discriminate Habs.
Qed.

Lemma deactivateDevice_pairs_release_witness :
  (exists msg,
      fst (LicenseService.deactivateDevice 20 Samples.key "m9"
             (Samples.oneBound 2 true None))
      = Threw (NotFoundError msg))
  /\ exists activation license',
       fst (LicenseService.deactivateDevice 20 Samples.key "m1"
              (Samples.oneBound 2 true None))
       = Returned true
       /\ In activation (activations (Samples.oneBound 2 true None))
       /\ LicenseService.findUnique Samples.key
            (snd (LicenseService.deactivateDevice 20 Samples.key "m1"
                    (Samples.oneBound 2 true None)))
          = Some license'
       /\ License.deviceCount license' = 0
       /\ activeCount (Samples.license 2 true None)
            (snd (LicenseService.deactivateDevice 20 Samples.key "m1"
                    (Samples.oneBound 2 true None)))
          = 0.
Proof.
  split.
  - apply (proj2 (proj1 (deactivateDevice_pairs_release 20 Samples.key "m9"
                           (Samples.oneBound 2 true None)))).
    intros (license & Hl & a & [<-|[]] & _ & Hm & _). discriminate Hm.
  - destruct (proj2 (proj2 (deactivateDevice_pairs_release 20 Samples.key "m1"
                              (Samples.oneBound 2 true None)))
                (Samples.license 2 true None) eq_refl)
      as (activation & license' & Hr & Hin & _ & _ & _ & _ & Hl & Hc & _ & Hn).
    + exists (Samples.bound 1 "m1" true). split; [left; reflexivity|repeat split].
    + exists activation, license'.
      split; [exact Hr|]. split; [exact Hin|]. split; [exact Hl|].
      split; [exact Hc|]. apply Hn. repeat constructor. intros [].
Defined.

Example deactivateDevice_then_validate :
  let s1 := snd (LicenseService.deactivateDevice 20 Samples.key "m1"
                   (Samples.oneBound 1 true None)) in
  fst (LicenseService.deactivateDevice 21 Samples.key "m1" s1)
  = Threw (NotFoundError "Device activation not found")
  /\ valid (fst (LicenseService.validateLicense 22 (Samples.request "m1") s1)) = true
  /\ activeCount (Samples.license 1 true None)
       (snd (LicenseService.validateLicense 22 (Samples.request "m1") s1)) = 1.
Proof. repeat split. Qed.

(** ** Creating a license *)

Section CreateFacts.

Import LicenseRoutes.

Lemma isTier_In (p : string) : isTier p = true <-> In p planTiers.
Proof.
  unfold isTier. rewrite existsb_exists. split.
  - intros (x & Hin & Heq). apply String.eqb_eq in Heq. now subst x.
  - intros Hin. exists p. split; [exact Hin|apply String.eqb_refl].
Qed.

Lemma schema_accepts (isEmail : string -> bool) (b : CreateLicenseBody) :
  createLicenseSchema isEmail b = [] <->
  (forall e, email b = Some e -> isEmail e = true)
  /\ In (plan b) planTiers
  /\ (forall m, max_devices b = Some m -> 0 < m).
Proof.
  unfold createLicenseSchema. rewrite <- isTier_In. split.
  - intros H. apply app_eq_nil in H as [He H]. apply app_eq_nil in H as [Hp Hm].
    split; [|split].
    + intros e Heq. rewrite Heq in He. destruct (isEmail e); [reflexivity|discriminate].
    + destruct (isTier (plan b)); [reflexivity|discriminate].
    + intros m Heq. rewrite Heq in Hm. destruct (0 <? m) eqn:Hlt; [|discriminate].
      now apply Z.ltb_lt.
  - intros (He & Hp & Hm). rewrite Hp.
    destruct (email b) as [e|]; [rewrite (He e eq_refl)|];
      (destruct (max_devices b) as [m|];
       [specialize (Hm m eq_refl); apply Z.ltb_lt in Hm; rewrite Hm|]); reflexivity.
Qed.

End CreateFacts.

(** C7.  [POST /admin/licenses]: (a) a plan outside the four tiers is
    refused as a validation failure naming [plan], and nothing is stored;
    (b) a license that is created has [maxDevices] equal to the override
    when one is given, and otherwise to the table Individual 1,
    2 Devices 2, 5 Devices 5, Enterprise 999; it is active, its device
    count is zero, and it is the row appended to the table; (c) a body
    the schema accepts, with a key not yet stored, does create a
    license. *)
Theorem createLicense_quota_from_plan (isEmail : string -> bool) (key : string)
    (b : LicenseRoutes.CreateLicenseBody) (s : Store) :
  (~ In (LicenseRoutes.plan b) ["Individual"; "2 Devices"; "5 Devices"; "Enterprise"]%string ->
   InvalidPlan (fst (LicenseRoutes.createLicense isEmail key b s))
   /\ snd (LicenseRoutes.createLicense isEmail key b s) = s)
  /\ (forall license s',
         LicenseRoutes.createLicense isEmail key b s = (Returned license, s') ->
         (forall m, LicenseRoutes.max_devices b = Some m -> License.maxDevices license = m)
         /\ (LicenseRoutes.max_devices b = None ->
             (LicenseRoutes.plan b = "Individual"%string -> License.maxDevices license = 1)
             /\ (LicenseRoutes.plan b = "2 Devices"%string -> License.maxDevices license = 2)
             /\ (LicenseRoutes.plan b = "5 Devices"%string -> License.maxDevices license = 5)
             /\ (LicenseRoutes.plan b = "Enterprise"%string
                 -> License.maxDevices license = 999))
         /\ In (LicenseRoutes.plan b)
              ["Individual"; "2 Devices"; "5 Devices"; "Enterprise"]%string
         /\ License.isActive license = true
         /\ License.deviceCount license = 0
         /\ License.licenseKey license = key
         /\ License.plan license = LicenseRoutes.plan b
         /\ License.email license = LicenseRoutes.email b
         /\ licenses s' = licenses s ++ [license]
         /\ activations s' = activations s)
  /\ ((forall e, LicenseRoutes.email b = Some e -> isEmail e = true) ->
      In (LicenseRoutes.plan b) ["Individual"; "2 Devices"; "5 Devices"; "Enterprise"]%string ->
      (forall m, LicenseRoutes.max_devices b = Some m -> 0 < m) ->
      LicenseService.findUnique key s = None ->
      exists license s',
        LicenseRoutes.createLicense isEmail key b s = (Returned license, s')).
Proof.
  change ["Individual"; "2 Devices"; "5 Devices"; "Enterprise"]%string
    with LicenseRoutes.planTiers.
  split; [|split].
  - intros Hp. unfold LicenseRoutes.createLicense.
    assert (Hin : In "plan"%string (LicenseRoutes.createLicenseSchema isEmail b)).
    { unfold LicenseRoutes.createLicenseSchema.
      destruct (LicenseRoutes.isTier (LicenseRoutes.plan b)) eqn:Ht.
      - apply isTier_In in Ht. destruct (Hp Ht).
      - apply in_or_app. right. left. reflexivity. }
    destruct (LicenseRoutes.createLicenseSchema isEmail b) as [|p ps]; [destruct Hin|].
    split; [|reflexivity]. eexists. split; [reflexivity|exact Hin].
  - intros license s' Hc. unfold LicenseRoutes.createLicense in Hc.
    destruct (LicenseRoutes.createLicenseSchema isEmail b) as [|p ps] eqn:Hs;
      [|discriminate Hc].
    apply schema_accepts in Hs as (He & Hp & Hm).
    unfold LicenseService.createLicense in Hc. simpl in Hc.
    destruct (LicenseService.findUnique key s); [discriminate Hc|].
    injection Hc as <- <-. simpl.
    split; [|split; [|repeat split; assumption]].
    + intros m Heq. rewrite Heq. specialize (Hm m Heq).
      destruct (m =? 0) eqn:H0; [apply Z.eqb_eq in H0; lia|reflexivity].
    + intros Hnone. rewrite Hnone.
      repeat split; intros ->; reflexivity.
  - intros He Hp Hm Hfresh. unfold LicenseRoutes.createLicense.
    rewrite (proj2 (schema_accepts isEmail b) (conj He (conj Hp Hm))).
    unfold LicenseService.createLicense. rewrite Hfresh. eexists _, _. reflexivity.
Qed.

Lemma createLicense_quota_from_plan_witness :
  (InvalidPlan (fst (LicenseRoutes.createLicense (fun _ => true) Samples.key
                       (LicenseRoutes.mkCreateLicenseBody None "Family" None) emptyStore))
   /\ snd (LicenseRoutes.createLicense (fun _ => true) Samples.key
             (LicenseRoutes.mkCreateLicenseBody None "Family" None) emptyStore)
      = emptyStore)
  /\ (exists license s',
         LicenseRoutes.createLicense (fun _ => true) Samples.key
           (LicenseRoutes.mkCreateLicenseBody None "5 Devices" None) emptyStore
         = (Returned license, s')
         /\ License.maxDevices license = 5
         /\ License.isActive license = true
         /\ License.deviceCount license = 0)
  /\ exists license s',
       LicenseRoutes.createLicense (fun _ => true) Samples.key
         (LicenseRoutes.mkCreateLicenseBody None "Individual" (Some 3)) emptyStore
       = (Returned license, s')
       /\ License.maxDevices license = 3.
Proof.
  split; [|split].
  - apply (proj1 (createLicense_quota_from_plan (fun _ => true) Samples.key
                    (LicenseRoutes.mkCreateLicenseBody None "Family" None) emptyStore)).
    simpl. intuition discriminate.
  - destruct (proj2 (proj2 (createLicense_quota_from_plan (fun _ => true) Samples.key
                              (LicenseRoutes.mkCreateLicenseBody None "5 Devices" None)
                              emptyStore)))
      as (license & s' & Hc).
    + intros e He. reflexivity.
    + simpl. auto.
    + intros m Hm. discriminate Hm.
    + reflexivity.
    + exists license, s'. split; [exact Hc|].
      destruct (proj1 (proj2 (createLicense_quota_from_plan (fun _ => true) Samples.key
                                (LicenseRoutes.mkCreateLicenseBody None "5 Devices" None)
                                emptyStore)) license s' Hc)
        as (_ & Ht & _ & Ha & Hd & _).
      split; [|split; assumption].
      apply (proj1 (proj2 (proj2 (Ht eq_refl)))). reflexivity.
  - destruct (proj2 (proj2 (createLicense_quota_from_plan (fun _ => true) Samples.key
                              (LicenseRoutes.mkCreateLicenseBody None "Individual" (Some 3))
                              emptyStore)))
      as (license & s' & Hc).
    + intros e He. reflexivity.
    + simpl. auto.
    + intros m [= <-]. reflexivity.
    + reflexivity.
    + exists license, s'. split; [exact Hc|].
      apply (proj1 (proj1 (proj2 (createLicense_quota_from_plan (fun _ => true) Samples.key
                                    (LicenseRoutes.mkCreateLicenseBody None "Individual"
                                       (Some 3))
                                    emptyStore)) license s' Hc)).
      reflexivity.
Defined.

Example createLicense_service_fallback :
  LicenseService.getMaxDevicesForPlan "Family" = 1
  /\ fst (LicenseRoutes.createLicense (fun _ => true) Samples.key
            (LicenseRoutes.mkCreateLicenseBody None "Individual" (Some 0)) emptyStore)
     = Threw (BadRequestError (ValidationFailed ["max_devices"%string])).
Proof. split; reflexivity. Qed.

(** ** Requests in flight together *)

(** Run alone, the round trips of a validation add up to [validateLicense]. *)
Lemma run_validateLicense (now : Z) (d : ValidateLicenseDto) (s : Store) :
  Interleaving.run now 3 (Interleaving.Pending d) s
  = (Interleaving.Settled (fst (LicenseService.validateLicense now d s)),
     snd (LicenseService.validateLicense now d s)).
Proof.
  unfold LicenseService.validateLicense. simpl.
  destruct (negb (LicenseKey.isValidLicenseKeyFormat (licenseKey d))); [reflexivity|].
  destruct (LicenseService.findUnique (licenseKey d) s) as [license|]; [|reflexivity].
  destruct (negb (License.isActive license)); [reflexivity|].
  destruct (LicenseService.isExpired now license); [reflexivity|].
  destruct (find _ _); [reflexivity|].
  destruct (_ >=? _); reflexivity.
Qed.

(** C8.  The code does not keep the quota when two validations overlap.
    On a license with [maxDevices = 1] and no device, requests from "m1"
    and "m2" whose lookups both run before either insert both see a count
    of 0, both insert and both succeed: two active activations against a
    quota of one, with a cached count of 1.  Run one after the other, the
    second is refused. *)
Theorem validation_race_exceeds_quota :
  let '(a, b, s') :=
    Interleaving.interleave 10 [true; false; true; true; false; false]
      (Interleaving.Pending (Samples.request "m1"))
      (Interleaving.Pending (Samples.request "m2")) (Samples.fresh 1) in
  Interleaving.settledValid a = true
  /\ Interleaving.settledValid b = true
  /\ License.maxDevices (Samples.unused 1) = 1
  /\ activeCount (Samples.unused 1) s' = 2
  /\ option_map License.deviceCount (LicenseService.findUnique Samples.key s') = Some 1
  /\ errorType (fst (LicenseService.validateLicense 10 (Samples.request "m2")
                       (snd (LicenseService.validateLicense 10 (Samples.request "m1")
                               (Samples.fresh 1)))))
     = Some max_devices_reached.
Proof. vm_compute. repeat split. Qed.

(** ** Row ids stay unique *)

Section IdFacts.

Import LicenseService.

Lemma ids_updateWhere (sel : LicenseActivation.t -> bool)
    (f : LicenseActivation.t -> LicenseActivation.t) (rows : list LicenseActivation.t) :
  (forall a, LicenseActivation.id (f a) = LicenseActivation.id a) ->
  map LicenseActivation.id (updateWhere sel f rows) = map LicenseActivation.id rows.
Proof.
  intros Hid. unfold updateWhere. rewrite map_map. apply map_ext.
  intros a. destruct (sel a); [apply Hid|reflexivity].
Qed.

Lemma uniqueIds_same (s s' : Store) :
  map LicenseActivation.id (activations s') = map LicenseActivation.id (activations s) ->
  nextId s' = nextId s ->
  uniqueIds s -> uniqueIds s'.
Proof.
  unfold uniqueIds. intros Hids Hnext [Hnd Hlt]. rewrite Hids, Hnext. split; [exact Hnd|].
  rewrite Forall_forall in *. intros a Ha.
  apply (in_map LicenseActivation.id) in Ha. rewrite Hids in Ha.
  apply in_map_iff in Ha as (b & Hb & Hin). rewrite <- Hb. now apply Hlt.
Qed.

Lemma uniqueIds_create (license : License.t) (d : ValidateLicenseDto) (s : Store) :
  uniqueIds s -> uniqueIds (createActivation license d s).
Proof.
  unfold uniqueIds, createActivation. simpl. intros [Hnd Hlt]. split.
  - rewrite map_app. simpl. apply NoDup_app.
    + exact Hnd.
    + repeat constructor. intros [].
    + intros i Hin [<-|[]]. apply in_map_iff in Hin as (a & Ha & Hin).
      rewrite Forall_forall in Hlt. specialize (Hlt a Hin). lia.
  - apply Forall_app. split.
    + eapply Forall_impl; [|exact Hlt]. intros a Ha. simpl in Ha. lia.
    + repeat constructor.
Qed.

(** Validation and device release keep the row ids unique. *)
Lemma validateLicense_uniqueIds (now : Z) (d : ValidateLicenseDto) (s : Store) :
  uniqueIds s -> uniqueIds (snd (validateLicense now d s)).
Proof.
  intros Hu. unfold validateLicense.
  destruct (negb (LicenseKey.isValidLicenseKeyFormat (licenseKey d))); [exact Hu|].
  destruct (findUnique (licenseKey d) s) as [license|]; [|exact Hu].
  destruct (negb (License.isActive license)); [exact Hu|].
  destruct (isExpired now license); [exact Hu|].
  destruct (find _ _) as [existing|].
  - simpl. apply (uniqueIds_same s); [|reflexivity|exact Hu].
    simpl. now apply ids_updateWhere.
  - destruct (_ >=? _); [exact Hu|]. simpl.
    apply (uniqueIds_same (createActivation license d s)); [reflexivity|reflexivity|].
    now apply uniqueIds_create.
Qed.

Lemma deactivateDevice_uniqueIds (now : Z) (key machine : string) (s : Store) :
  uniqueIds s -> uniqueIds (snd (deactivateDevice now key machine s)).
Proof.
  intros Hu. unfold deactivateDevice.
  destruct (findUnique key s) as [license|]; [|exact Hu].
  destruct (find _ _) as [activation|]; [|exact Hu].
  simpl. apply (uniqueIds_same s); [|reflexivity|exact Hu].
  simpl. now apply ids_updateWhere.
Qed.

End IdFacts.

(** * Further properties of the code *)

(** ** License keys *)

Section KeyFacts.

Import LicenseKey.

Lemma literal_spec (p s r : string) :
  literal p s = Some r <-> s = String.append p r.
Proof.
  revert s. induction p as [|a p IH]; intros s; simpl.
  - split; [now intros [= ->]|now intros ->].
  - destruct s as [|b s].
    + split; discriminate.
    + destruct (Ascii.eqb a b) eqn:Hab.
      * apply Ascii.eqb_eq in Hab. subst b. rewrite IH.
        split; [now intros ->|now intros [= ->]].
      * apply Ascii.eqb_neq in Hab. split; [discriminate|].
        intros [= Heq _]. now destruct Hab.
Qed.

Lemma segment_spec (n : nat) (s r : string) :
  segment n s = Some r
  <-> exists x, s = String.append x r /\ String.length x = n
                /\ forallb keyChar (list_ascii_of_string x) = true.
Proof.
  revert s. induction n as [|n IH]; intros s; simpl.
  - split.
    + intros [= ->]. exists EmptyString. auto.
    + intros (x & -> & Hlen & _). destruct x; [reflexivity|discriminate Hlen].
  - destruct s as [|c s].
    + split; [discriminate|]. intros (x & Heq & Hlen & _).
      destruct x; discriminate.
    + destruct (keyChar c) eqn:Hc.
      * rewrite IH. split.
        -- intros (x & -> & Hlen & Hall). exists (String c x). simpl.
           rewrite Hc, Hlen. auto.
        -- intros (x & Heq & Hlen & Hall). destruct x as [|c' x]; [discriminate Hlen|].
           simpl in Heq, Hlen, Hall. injection Heq as <- ->. injection Hlen as Hlen.
           apply andb_true_iff in Hall as [_ Hall]. exists x. auto.
      * split; [discriminate|]. intros (x & Heq & Hlen & Hall).
        destruct x as [|c' x]; [discriminate Hlen|].
        simpl in Heq, Hall. injection Heq as <- _. rewrite Hc in Hall. discriminate Hall.
Qed.

Lemma append_empty (c : string) : String.append c "" = c.
Proof. induction c as [|x c IH]; simpl; [reflexivity|now rewrite IH]. Qed.

Lemma isValid_of_segments (a b c : string) :
  fiveKeyChars a -> fiveKeyChars b -> fiveKeyChars c ->
  isValidLicenseKeyFormat
    (String.append "MACMAN-"
       (String.append a (String "-" (String.append b (String "-" c)))))
  = true.
Proof.
  unfold isValidLicenseKeyFormat, fiveKeyChars.
  intros [Hla Hka] [Hlb Hkb] [Hlc Hkc].
  assert (H1 : literal "MACMAN-"
                 (String.append "MACMAN-"
                    (String.append a (String "-" (String.append b (String "-" c)))))
               = Some (String.append a (String "-" (String.append b (String "-" c))))).
  { apply literal_spec. reflexivity. }
  rewrite H1. cbn [bind].
  assert (H2 : segment 5 (String.append a (String "-" (String.append b (String "-" c))))
               = Some (String "-" (String.append b (String "-" c)))).
  { apply segment_spec. exists a. auto. }
  rewrite H2. cbn [bind].
  assert (H3 : literal "-" (String "-" (String.append b (String "-" c)))
               = Some (String.append b (String "-" c))).
  { apply literal_spec. reflexivity. }
  rewrite H3. cbn [bind].
  assert (H4 : segment 5 (String.append b (String "-" c)) = Some (String "-" c)).
  { apply segment_spec. exists b. auto. }
  rewrite H4. cbn [bind].
  assert (H5 : literal "-" (String "-" c) = Some c).
  { apply literal_spec. reflexivity. }
  rewrite H5. cbn [bind].
  assert (H6 : segment 5 c = Some EmptyString).
  { apply segment_spec. exists c. split; [now rewrite append_empty|auto]. }
  rewrite H6. reflexivity.
Qed.

End KeyFacts.

(** X1.  [isValidLicenseKeyFormat] accepts exactly the strings
    [MACMAN-a-b-c] whose three segments are five characters of
    [[A-Z0-9]] each; nothing may precede or follow. *)
Theorem isValidLicenseKeyFormat_shape (key : string) :
  LicenseKey.isValidLicenseKeyFormat key = true
  <-> exists a b c,
        key = String.append "MACMAN-"
                (String.append a (String "-" (String.append b (String "-" c))))
        /\ fiveKeyChars a /\ fiveKeyChars b /\ fiveKeyChars c.
Proof.
  unfold LicenseKey.isValidLicenseKeyFormat, fiveKeyChars. split.
  - destruct (LicenseKey.literal "MACMAN-" key) as [r1|] eqn:H1; [|discriminate].
    cbn [bind].
    destruct (LicenseKey.segment 5 r1) as [r2|] eqn:H2; [|discriminate]. cbn [bind].
    destruct (LicenseKey.literal "-" r2) as [r3|] eqn:H3; [|discriminate]. cbn [bind].
    destruct (LicenseKey.segment 5 r3) as [r4|] eqn:H4; [|discriminate]. cbn [bind].
    destruct (LicenseKey.literal "-" r4) as [r5|] eqn:H5; [|discriminate]. cbn [bind].
    destruct (LicenseKey.segment 5 r5) as [[|c0 r6]|] eqn:H6; try discriminate.
    intros _.
    apply literal_spec in H1, H3, H5.
    apply segment_spec in H2 as (a & Ha & Hla & Hka).
    apply segment_spec in H4 as (b & Hb & Hlb & Hkb).
    apply segment_spec in H6 as (c & Hc & Hlc & Hkc).
    exists a, b, c. subst. simpl.
    rewrite append_empty. auto 10.
  - intros (a & b & c & -> & Ha & Hb & Hc).
    now apply isValid_of_segments.
Qed.

Section GenerateFacts.

Import LicenseKey.

Lemma upperChar_keyChar (c : ascii) :
  isUpper c || isLower c || isDigit c = true -> keyChar (upperChar c) = true.
Proof.
  destruct c as [[] [] [] [] [] [] [] []]; vm_compute; intros H;
    first [reflexivity | discriminate H].
Qed.

Lemma keyChars_upper (s : string) :
  forallb keyChar (list_ascii_of_string (toUpperCase (keepAlphanumeric s))) = true.
Proof.
  induction s as [|c s IH]; simpl; [reflexivity|].
  destruct (isUpper c || isLower c || isDigit c) eqn:Hc; [|exact IH].
  simpl. rewrite (upperChar_keyChar c Hc). exact IH.
Qed.

Lemma length_toUpperCase (s : string) :
  String.length (toUpperCase s) = String.length s.
Proof. induction s as [|c s IH]; simpl; [reflexivity|now rewrite IH]. Qed.

Lemma length_keepAlphanumeric (s : string) :
  (String.length (keepAlphanumeric s) <= String.length s)%nat.
Proof.
  induction s as [|c s IH]; simpl; [lia|].
  destruct (isUpper c || isLower c || isDigit c); simpl; lia.
Qed.

Lemma substring_short (n : nat) (s : string) :
  (String.length s <= n)%nat -> substring 0 n s = s.
Proof.
  revert n. induction s as [|c s IH]; intros [|n] H; simpl in *; try reflexivity; try lia.
  rewrite IH; [reflexivity|lia].
Qed.

Lemma length_append (a b : string) :
  String.length (String.append a b) = (String.length a + String.length b)%nat.
Proof. induction a as [|c a IH]; simpl; [reflexivity|now rewrite IH]. Qed.

Lemma chars_append (a b : string) :
  list_ascii_of_string (String.append a b)
  = list_ascii_of_string a ++ list_ascii_of_string b.
Proof. induction a as [|c a IH]; simpl; [reflexivity|now rewrite IH]. Qed.

Lemma zeros_keyChars (n : nat) :
  forallb keyChar (repeat "0"%char n) = true.
Proof. induction n as [|n IH]; simpl; [reflexivity|exact IH]. Qed.

Lemma length_zeros (n : nat) :
  String.length (string_of_list_ascii (repeat "0"%char n)) = n.
Proof. induction n as [|n IH]; simpl; [reflexivity|now rewrite IH]. Qed.

(** Every segment is at most four characters of the drawn bytes followed
    by zeros. *)
Lemma keySegment_split (r : Byte.byte * Byte.byte * Byte.byte) :
  exists x,
    keySegment r = String.append x (String "0" EmptyString)
    /\ String.length x = 4%nat
    /\ forallb keyChar (list_ascii_of_string x) = true.
Proof.
  destruct r as [[b0 b1] b2]. unfold keySegment.
  set (t := toUpperCase (keepAlphanumeric (base64 b0 b1 b2))).
  assert (Hlen : (String.length t <= 4)%nat).
  { unfold t. rewrite length_toUpperCase.
    apply (Nat.le_trans _ _ _ (length_keepAlphanumeric _)). simpl. lia. }
  assert (Hk : forallb keyChar (list_ascii_of_string t) = true) by apply keyChars_upper.
  rewrite substring_short by lia. unfold padEnd.
  destruct (5 - String.length t)%nat as [|k] eqn:Hk5; [lia|].
  exists (String.append t (string_of_list_ascii (repeat "0"%char k))).
  split; [|split].
  - replace (S k) with (k + 1)%nat by lia. rewrite repeat_app. simpl.
    clear. generalize (repeat "0"%char k). intros zs.
    induction t as [|c t IH]; simpl.
    + induction zs as [|z zs IHz]; simpl; [reflexivity|now rewrite IHz].
    + now rewrite IH.
  - rewrite length_append, length_zeros. lia.
  - rewrite chars_append, forallb_app, Hk, list_ascii_of_string_of_list_ascii.
    apply zeros_keyChars.
Qed.

Lemma keySegment_five (r : Byte.byte * Byte.byte * Byte.byte) :
  fiveKeyChars (keySegment r).
Proof.
  destruct (keySegment_split r) as (x & -> & Hlen & Hk). split.
  - rewrite length_append, Hlen. reflexivity.
  - rewrite chars_append, forallb_app, Hk. reflexivity.
Qed.

End GenerateFacts.

(** X2.  Whatever bytes the random source returns, the key
    [generateLicenseKey] builds from them passes
    [isValidLicenseKeyFormat]. *)
Theorem generateLicenseKey_valid (r1 r2 r3 : Byte.byte * Byte.byte * Byte.byte) :
  LicenseKey.isValidLicenseKeyFormat (LicenseKey.generateLicenseKey r1 r2 r3) = true.
Proof.
  unfold LicenseKey.generateLicenseKey.
  apply isValid_of_segments; apply keySegment_five.
Qed.

(** X3.  The fifth character of every segment of a generated key is
    the padding character [0]: three random bytes give four base64
    characters, so a generated key reads [MACMAN-xxxx0-xxxx0-xxxx0] with
    at most four random characters in each segment. *)
Theorem generateLicenseKey_padding (r1 r2 r3 : Byte.byte * Byte.byte * Byte.byte) :
  exists x1 x2 x3,
    LicenseKey.generateLicenseKey r1 r2 r3
    = String.append "MACMAN-"
        (String.append x1
           (String.append "0-"
              (String.append x2 (String.append "0-" (String.append x3 "0")))))
    /\ String.length x1 = 4%nat /\ String.length x2 = 4%nat /\ String.length x3 = 4%nat.
Proof.
  destruct (keySegment_split r1) as (x1 & H1 & L1 & _).
  destruct (keySegment_split r2) as (x2 & H2 & L2 & _).
  destruct (keySegment_split r3) as (x3 & H3 & L3 & _).
  exists x1, x2, x3. unfold LicenseKey.generateLicenseKey. rewrite H1, H2, H3.
  split; [|auto]. f_equal.
  assert (Happ : forall a b c, String.append (String.append a b) c
                               = String.append a (String.append b c)).
  { intros a b c. induction a as [|ch a IH]; simpl; [reflexivity|now rewrite IH]. }
  rewrite Happ. f_equal. simpl. f_equal. f_equal. rewrite Happ. reflexivity.
Qed.

(** ** Comparing versions *)

Section CompareFacts.

Import LicenseKey.

Lemma orZero_num (part : option number) : exists z, orZero part = Num z.
Proof. destruct part as [[|z]|]; simpl; eauto. Qed.

Lemma compareFrom_antisym (n i : nat) (parts1 parts2 : list number) :
  compareFrom n i parts2 parts1 = - compareFrom n i parts1 parts2.
Proof.
  revert i. induction n as [|n IH]; intros i; simpl; [reflexivity|].
  destruct (orZero_num (nth_error parts1 i)) as [x ->].
  destruct (orZero_num (nth_error parts2 i)) as [y ->]. simpl.
  destruct (y <? x) eqn:Hyx; destruct (x <? y) eqn:Hxy; try reflexivity.
  - apply Z.ltb_lt in Hyx, Hxy. lia.
  - apply IH.
Qed.

Lemma compareFrom_same (n i : nat) (parts1 parts2 : list number) :
  (forall j, orZero (nth_error parts1 j) = orZero (nth_error parts2 j)) ->
  compareFrom n i parts1 parts2 = 0.
Proof.
  intros Hsame. revert i. induction n as [|n IH]; intros i; simpl; [reflexivity|].
  rewrite Hsame. destruct (orZero_num (nth_error parts2 i)) as [y ->]. simpl.
  rewrite Z.ltb_irrefl. apply IH.
Qed.

Lemma split_append (v w : string) :
  split (String.append v (String "." w)) = split v ++ split w.
Proof.
  induction v as [|c v IH]; simpl; [reflexivity|].
  destruct (Ascii.eqb c "."); rewrite IH; [reflexivity|].
  destruct (split v) as [|p ps] eqn:Hs; [|reflexivity].
  destruct v as [|c' v']; simpl in Hs; [discriminate|].
  destruct (Ascii.eqb c' "."); [discriminate|]. destruct (split v'); discriminate.
Qed.

End CompareFacts.

(** X4.  [compareVersions] is antisymmetric, a version compares equal
    to itself, and a trailing [.0] makes no difference: [v] and [v.0]
    compare equal for every [v]. *)
Theorem compareVersions_antisymmetric (v1 v2 : string) :
  LicenseKey.compareVersions v2 v1 = - LicenseKey.compareVersions v1 v2
  /\ LicenseKey.compareVersions v1 v1 = 0
  /\ LicenseKey.compareVersions v1 (dotted v1 "0") = 0
  /\ (LicenseKey.compareVersions v1 v2 = 1
      \/ LicenseKey.compareVersions v1 v2 = 0
      \/ LicenseKey.compareVersions v1 v2 = -1).
Proof.
  unfold LicenseKey.compareVersions. split; [|split; [|split]].
  - rewrite Nat.max_comm. apply compareFrom_antisym.
  - now apply compareFrom_same.
  - apply compareFrom_same. intros j. unfold dotted.
    rewrite split_append, map_app. simpl.
    destruct (Nat.lt_ge_cases j (List.length (map LicenseKey.Number (LicenseKey.split v1))))
      as [Hlt|Hge].
    + now rewrite nth_error_app1.
    + rewrite nth_error_app2 by exact Hge.
      rewrite (proj2 (nth_error_None _ _) Hge).
      destruct (j - _)%nat as [|[|k]]; reflexivity.
  - generalize (Nat.max (List.length (map LicenseKey.Number (LicenseKey.split v1)))
                  (List.length (map LicenseKey.Number (LicenseKey.split v2)))).
    generalize 0%nat. intros i n. revert i.
    induction n as [|n IH]; intros i; simpl; [auto|].
    destruct (LicenseKey.gt _ _); [auto|]. destruct (LicenseKey.gt _ _); [auto|]. apply IH.
Qed.

(** X5.  On three-part decimal versions whose minor and patch parts are
    below 100 and whose build numbers are below 2^53 (where the numbers
    of the code are exact), [compareVersions] orders versions exactly as
    their build numbers do: the build numbers are the weighted sums of
    the parts and the result is the sign of their difference. *)
Theorem compareVersions_agrees_with_build (M m p M' m' p' : nat) :
  (m < 100)%nat -> (p < 100)%nat -> (m' < 100)%nat -> (p' < 100)%nat ->
  Z.of_nat M * 10000 + Z.of_nat m * 100 + Z.of_nat p < 2 ^ 53 ->
  Z.of_nat M' * 10000 + Z.of_nat m' * 100 + Z.of_nat p' < 2 ^ 53 ->
  exists b b',
    b = Z.of_nat M * 10000 + Z.of_nat m * 100 + Z.of_nat p
    /\ b' = Z.of_nat M' * 10000 + Z.of_nat m' * 100 + Z.of_nat p'
    /\ 0 <= b < 2 ^ 53 /\ 0 <= b' < 2 ^ 53
    /\
    LicenseKey.versionToBuildNumber (dotted (decimal M) (dotted (decimal m) (decimal p)))
    = LicenseKey.Num b
    /\ LicenseKey.versionToBuildNumber
         (dotted (decimal M') (dotted (decimal m') (decimal p')))
       = LicenseKey.Num b'
    /\ LicenseKey.compareVersions
         (dotted (decimal M) (dotted (decimal m) (decimal p)))
         (dotted (decimal M') (dotted (decimal m') (decimal p')))
       = Z.sgn (b - b').
Proof.
  intros Hm Hp Hm' Hp' Hb Hb'.
  exists (Z.of_nat M * 10000 + Z.of_nat m * 100 + Z.of_nat p),
         (Z.of_nat M' * 10000 + Z.of_nat m' * 100 + Z.of_nat p').
  split; [reflexivity|]. split; [reflexivity|].
  split; [lia|]. split; [lia|]. clear Hb Hb'.
  unfold LicenseKey.versionToBuildNumber, LicenseKey.compareVersions.
  rewrite !split_dotted, !split_noDot by apply noDot_decimal.
  cbn [map LicenseKey.first nth_error List.length Nat.max LicenseKey.compareFrom].
  rewrite !Number_decimal.
  cbn [LicenseKey.orZero LicenseKey.mul LicenseKey.add LicenseKey.gt].
  split; [reflexivity|]. split; [reflexivity|].
  destruct (Z.of_nat M' <? Z.of_nat M) eqn:H1;
    [apply Z.ltb_lt in H1; symmetry; apply Z.sgn_pos; lia|apply Z.ltb_ge in H1].
  destruct (Z.of_nat M <? Z.of_nat M') eqn:H2;
    [apply Z.ltb_lt in H2; symmetry; apply Z.sgn_neg; lia|apply Z.ltb_ge in H2].
  destruct (Z.of_nat m' <? Z.of_nat m) eqn:H3;
    [apply Z.ltb_lt in H3; symmetry; apply Z.sgn_pos; lia|apply Z.ltb_ge in H3].
  destruct (Z.of_nat m <? Z.of_nat m') eqn:H4;
    [apply Z.ltb_lt in H4; symmetry; apply Z.sgn_neg; lia|apply Z.ltb_ge in H4].
  destruct (Z.of_nat p' <? Z.of_nat p) eqn:H5;
    [apply Z.ltb_lt in H5; symmetry; apply Z.sgn_pos; lia|apply Z.ltb_ge in H5].
  destruct (Z.of_nat p <? Z.of_nat p') eqn:H6;
    [apply Z.ltb_lt in H6; symmetry; apply Z.sgn_neg; lia|apply Z.ltb_ge in H6].
  symmetry. apply Z.sgn_null_iff. lia.
Qed.

Lemma compareVersions_agrees_with_build_witness :
  exists b b',
    b = Z.of_nat 1 * 10000 + Z.of_nat 2 * 100 + Z.of_nat 10
    /\ b' = Z.of_nat 1 * 10000 + Z.of_nat 2 * 100 + Z.of_nat 9
    /\ 0 <= b < 2 ^ 53 /\ 0 <= b' < 2 ^ 53
    /\ LicenseKey.versionToBuildNumber (dotted (decimal 1) (dotted (decimal 2) (decimal 10)))
    = LicenseKey.Num b
    /\ LicenseKey.versionToBuildNumber (dotted (decimal 1) (dotted (decimal 2) (decimal 9)))
       = LicenseKey.Num b'
    /\ LicenseKey.compareVersions
         (dotted (decimal 1) (dotted (decimal 2) (decimal 10)))
         (dotted (decimal 1) (dotted (decimal 2) (decimal 9)))
       = Z.sgn (b - b').
Proof.
  apply (compareVersions_agrees_with_build 1 2 10 1 2 9); try lia; reflexivity.
Defined.

(** Beyond that bound the two orders part: the comparison puts 1.100.0
    below 2.0.0, the build numbers are equal. *)
Example compareVersions_parts_from_build :
  LicenseKey.compareVersions "1.100.0" "2.0.0" = -1
  /\ LicenseKey.versionToBuildNumber "1.100.0" = LicenseKey.versionToBuildNumber "2.0.0".
Proof. split; reflexivity. Qed.

(** ** Downloads and withdrawn releases *)

Section ReleaseFacts.

Import UpdateService.

Lemma findUnique_version (version : string) (s : Store) (u : Update.t) :
  findUnique version s = Some u -> In u (updates s) /\ Update.version u = version.
Proof.
  unfold findUnique. intros H. apply find_some in H as [Hin Heq].
  apply String.eqb_eq in Heq. auto.
Qed.

Lemma findUnique_updateWhere (version : string) (f : Update.t -> Update.t) (s : Store) :
  (forall u, Update.version (f u) = Update.version u) ->
  findUnique version (withUpdates (updateWhere (hasVersion version) f (updates s)) s)
  = option_map f (findUnique version s).
Proof.
  intros Hv. unfold findUnique. simpl. rewrite find_updateWhere.
  - destruct (find _ (updates s)) as [u|] eqn:Hf; [|reflexivity]. simpl.
    apply find_some in Hf as [_ Heq]. unfold hasVersion. now rewrite Heq.
  - intros u. now rewrite Hv.
Qed.

Lemma rows_updateWhere {A : Type} (sel : A -> bool) (f : A -> A) (l : list A) :
  Forall2 (fun a a' => if sel a then a' = f a else a' = a) l (updateWhere sel f l).
Proof.
  induction l as [|a l IH]; simpl; constructor; [|exact IH].
  destruct (sel a); reflexivity.
Qed.

End ReleaseFacts.

(** X6.  [downloadUpdate] on an unknown version fails with
    [NotFoundError] and changes nothing.  On a known version the download
    counter of that release goes up by exactly one and no other release
    changes, whether or not the release is active and whether or not its
    file is on disk; the answer is the 404 reply exactly when the file
    is missing. *)
Theorem downloadUpdate_counts (existsSync : string -> bool) (size : string -> Z)
    (version : string) (s : Store) :
  (UpdateService.findUnique version s = None ->
   exists msg,
     UpdateController.downloadUpdate existsSync size version s
     = (Threw (NotFoundError msg), s))
  /\ (forall u,
         UpdateService.findUnique version s = Some u ->
         exists reply u',
           fst (UpdateController.downloadUpdate existsSync size version s) = Returned reply
           /\ (reply = UpdateController.FileNotFound
               <-> existsSync (Update.filename u) = false)
           /\ UpdateService.findUnique version
                (snd (UpdateController.downloadUpdate existsSync size version s))
              = Some u'
           /\ Update.downloadCount u' = Update.downloadCount u + 1
           /\ Update.isActive u' = Update.isActive u
           /\ Forall2
                (fun a a' =>
                   if String.eqb (Update.version a) version
                   then Update.downloadCount a' = Update.downloadCount a + 1
                        /\ Update.id a' = Update.id a
                        /\ Update.version a' = Update.version a
                        /\ Update.buildNumber a' = Update.buildNumber a
                        /\ Update.isActive a' = Update.isActive a
                   else a' = a)
                (updates s)
                (updates (snd (UpdateController.downloadUpdate existsSync size version s)))
           /\ licenses (snd (UpdateController.downloadUpdate existsSync size version s))
              = licenses s
           /\ updateHistory
                (snd (UpdateController.downloadUpdate existsSync size version s))
              = updateHistory s).
Proof.
  unfold UpdateController.downloadUpdate, UpdateService.getUpdateByVersion,
    UpdateService.incrementDownloadCount.
  split.
  - intros ->. eexists. reflexivity.
  - intros u Hu. rewrite Hu.
    exists (if existsSync (Update.filename u)
            then UpdateController.Stream (Update.filename u) (size (Update.filename u))
            else UpdateController.FileNotFound),
           (UpdateService.countDownload u).
    destruct (existsSync (Update.filename u)) eqn:He; simpl fst; simpl snd.
    + split; [reflexivity|]. split; [split; discriminate|].
      split; [rewrite findUnique_updateWhere by reflexivity; now rewrite Hu|].
      split; [reflexivity|]. split; [reflexivity|]. split; [|split; reflexivity].
      simpl. eapply Forall2_impl; [|apply rows_updateWhere].
      intros a a' Ha. unfold UpdateService.hasVersion in Ha.
      destruct (String.eqb (Update.version a) version); [subst a'; repeat split|exact Ha].
    + split; [reflexivity|]. split; [split; reflexivity|].
      split; [rewrite findUnique_updateWhere by reflexivity; now rewrite Hu|].
      split; [reflexivity|]. split; [reflexivity|]. split; [|split; reflexivity].
      simpl. eapply Forall2_impl; [|apply rows_updateWhere].
      intros a a' Ha. unfold UpdateService.hasVersion in Ha.
      destruct (String.eqb (Update.version a) version); [subst a'; repeat split|exact Ha].
Qed.

Lemma downloadUpdate_counts_witness :
  (exists msg,
      UpdateController.downloadUpdate (fun _ => false) (fun _ => 0) "9.9.9" Samples.releases
      = (Threw (NotFoundError msg), Samples.releases))
  /\ exists reply u',
       fst (UpdateController.downloadUpdate (fun _ => false) (fun _ => 0) "1.0.11"
              Samples.releases)
       = Returned reply
       /\ reply = UpdateController.FileNotFound
       /\ UpdateService.findUnique "1.0.11"
            (snd (UpdateController.downloadUpdate (fun _ => false) (fun _ => 0) "1.0.11"
                    Samples.releases))
          = Some u'
       /\ Update.downloadCount u' = 1
       /\ Update.isActive u' = false.
Proof.
  split.
  - apply (proj1 (downloadUpdate_counts (fun _ => false) (fun _ => 0) "9.9.9"
                    Samples.releases)).
    reflexivity.
  - destruct (proj2 (downloadUpdate_counts (fun _ => false) (fun _ => 0) "1.0.11"
                       Samples.releases)
                (Samples.release 2 "1.0.11" 10011 false) eq_refl)
      as (reply & u' & Hr & Hf & Hu & Hc & Ha & _).
    exists reply, u'. split; [exact Hr|]. split; [now apply Hf|].
    split; [exact Hu|]. split; [exact Hc|exact Ha].
Defined.

(** X7.  [deactivateUpdate] on an unknown version raises the storage
    client's error and changes nothing.  On a known version no later
    [checkForUpdate] offers that version, whatever the client reports;
    the release can still be fetched by [getUpdateByVersion]. *)
Theorem deactivateUpdate_withdraws (version : string) (s : Store) :
  (UpdateService.findUnique version s = None ->
   exists msg,
     UpdateService.deactivateUpdate version s = (Threw (PrismaError msg), s))
  /\ (forall u,
         UpdateService.findUnique version s = Some u ->
         exists u',
           fst (UpdateService.deactivateUpdate version s) = Returned u'
           /\ Update.isActive u' = false
           /\ Update.version u' = version
           /\ UpdateService.getUpdateByVersion version
                (snd (UpdateService.deactivateUpdate version s))
              = Returned u')
  /\ (forall d r s2 offered,
         UpdateService.checkForUpdate d (snd (UpdateService.deactivateUpdate version s))
         = (Returned r, s2) ->
         latestVersion r = Some offered ->
         lv_version offered <> version).
Proof.
  split; [|split].
  - unfold UpdateService.deactivateUpdate. intros ->. eexists. reflexivity.
  - intros u Hu. unfold UpdateService.deactivateUpdate. rewrite Hu.
    exists (UpdateService.withdraw u). simpl fst. simpl snd.
    apply findUnique_version in Hu as Hv. destruct Hv as [_ Hv].
    split; [reflexivity|]. split; [reflexivity|]. split; [exact Hv|].
    unfold UpdateService.getUpdateByVersion.
    rewrite findUnique_updateWhere by reflexivity. now rewrite Hu.
  - intros d r s2 offered Hc Hl.
    assert (Hoff : forall a,
               In a (updates (snd (UpdateService.deactivateUpdate version s))) ->
               Update.version a = version -> Update.isActive a = false).
    { unfold UpdateService.deactivateUpdate.
      destruct (UpdateService.findUnique version s) as [u|] eqn:Hu; simpl.
      - intros a Hin Hv. unfold updateWhere in Hin.
        apply in_map_iff in Hin as (b & Hb & Hin).
        unfold UpdateService.hasVersion in Hb.
        destruct (String.eqb (Update.version b) version) eqn:Hbv.
        + subst a. reflexivity.
        + subst a. apply String.eqb_neq in Hbv. now destruct Hbv.
      - intros a Hin Hv. unfold UpdateService.findUnique in Hu.
        apply (find_none _ _ Hu) in Hin. rewrite Hv, String.eqb_refl in Hin.
        discriminate Hin. }
    unfold UpdateService.checkForUpdate in Hc.
    destruct (LicenseKey.versionToBuildNumber (ck_version d)) as [|current];
      [discriminate Hc|].
    unfold UpdateService.findFirst in Hc.
    destruct (UpdateService.firstDescending _) as [latest|] eqn:Hf.
    + injection Hc as <- _. simpl in Hl. injection Hl as <-. simpl.
      apply firstDescending_max in Hf as [Hin _].
      apply filter_In in Hin as [Hin Hq]. apply newerActive_spec in Hq as [Ha _].
      intros Hv. rewrite (Hoff latest Hin Hv) in Ha. discriminate Ha.
    + injection Hc as <- _. discriminate Hl.
Qed.

Lemma deactivateUpdate_withdraws_witness :
  (exists msg,
      UpdateService.deactivateUpdate "9.9.9" Samples.releases
      = (Threw (PrismaError msg), Samples.releases))
  /\ (exists u',
         fst (UpdateService.deactivateUpdate "1.0.10" Samples.releases) = Returned u'
         /\ Update.isActive u' = false)
  /\ forall offered,
       latestVersion (UpdateService.offer (Samples.release 0 "1.0.9" 10009 true))
       = Some offered ->
       lv_version offered <> "1.0.10"%string.
Proof.
  split; [|split].
  - apply (proj1 (deactivateUpdate_withdraws "9.9.9" Samples.releases)). reflexivity.
  - destruct (proj1 (proj2 (deactivateUpdate_withdraws "1.0.10" Samples.releases))
                (Samples.release 1 "1.0.10" 10010 true) eq_refl)
      as (u' & Hr & Ha & _).
    exists u'. auto.
  - intros offered.
    apply (proj2 (proj2 (deactivateUpdate_withdraws "1.0.10" Samples.releases))
             (Samples.check "darwin")
             (UpdateService.offer (Samples.release 0 "1.0.9" 10009 true))
             (snd (UpdateService.checkForUpdate (Samples.check "darwin")
                     (snd (UpdateService.deactivateUpdate "1.0.10" Samples.releases))))).
    reflexivity.
Defined.

(** ** Update history *)

Section HistoryFacts.

Import UpdateService.

Lemma find_last {A : Type} (p : A -> bool) (l : list A) (a : A) :
  find p (l ++ [a])
  = match find p l with
    | Some x => Some x
    | None => if p a then Some a else None
    end.
Proof.
  induction l as [|x l IH]; simpl; [reflexivity|].
  destruct (p x); [reflexivity|exact IH].
Qed.

Lemma find_rev_split {A : Type} (p : A -> bool) (l : list A) (h : A) :
  find p (rev l) = Some h ->
  exists pre post,
    l = pre ++ h :: post /\ p h = true /\ Forall (fun x => p x = false) post.
Proof.
  revert h. induction l as [|a l IH]; intros h; simpl; [discriminate|].
  rewrite find_last. destruct (find p (rev l)) as [x|] eqn:Hf.
  - intros [= <-]. destruct (IH x eq_refl) as (pre & post & -> & Hp & Hpost).
    exists (a :: pre), post. auto.
  - destruct (p a) eqn:Hpa; [|discriminate]. intros [= <-].
    exists [], l. split; [reflexivity|]. split; [exact Hpa|].
    apply Forall_forall. intros x Hx. apply (find_none _ _ Hf). now apply in_rev in Hx.
Qed.

Lemma find_rev_none {A : Type} (p : A -> bool) (l : list A) :
  (forall x, In x l -> p x = false) -> find p (rev l) = None.
Proof.
  intros H. destruct (find p (rev l)) as [x|] eqn:Hf; [|reflexivity].
  apply find_some in Hf as [Hin Hp]. apply in_rev in Hin.
  rewrite (H x Hin) in Hp. discriminate Hp.
Qed.

Lemma openFor_spec (userId toVersion : string) (h : UpdateHistory.t) :
  openFor userId toVersion h = true
  <-> UpdateHistory.userId h = userId
      /\ UpdateHistory.toVersion h = toVersion
      /\ UpdateHistory.status h = "started"%string.
Proof.
  unfold openFor. rewrite !andb_true_iff, !String.eqb_eq. tauto.
Qed.

(** With unique ids, an update by id rewrites the one row that has it. *)
Lemma updateWhere_one (i : nat) (f : UpdateHistory.t -> UpdateHistory.t)
    (pre post : list UpdateHistory.t) (h : UpdateHistory.t) :
  NoDup (map UpdateHistory.id (pre ++ h :: post)) ->
  UpdateHistory.id h = i ->
  updateWhere (historyHasId i) f (pre ++ h :: post) = pre ++ f h :: post.
Proof.
  intros Hnd Hi. unfold updateWhere. rewrite map_app. simpl.
  rewrite map_app in Hnd. simpl in Hnd.
  pose proof (NoDup_remove_2 _ _ _ Hnd) as Hnotin.
  unfold historyHasId at 2. rewrite Hi, Nat.eqb_refl.
  f_equal; [|f_equal].
  - rewrite <- (map_id pre) at 2. apply map_ext_in. intros x Hx.
    unfold historyHasId. destruct (Nat.eqb (UpdateHistory.id x) i) eqn:Hx1; [|reflexivity].
    apply Nat.eqb_eq in Hx1. exfalso. apply Hnotin. apply in_or_app. left.
    rewrite Hi, <- Hx1. now apply in_map.
  - rewrite <- (map_id post) at 2. apply map_ext_in. intros x Hx.
    unfold historyHasId. destruct (Nat.eqb (UpdateHistory.id x) i) eqn:Hx1; [|reflexivity].
    apply Nat.eqb_eq in Hx1. exfalso. apply Hnotin. apply in_or_app. right.
    rewrite Hi, <- Hx1. now apply in_map.
Qed.

End HistoryFacts.

(** X8.  [updateHistoryStatus] changes nothing when the user has no
    ['started'] row for the target version.  Otherwise, with unique row
    ids, it rewrites exactly one row, the last ['started'] row of that
    user and version: its status becomes the reported one, [completedAt]
    is stamped for ['completed'] only, an absent error message keeps the
    stored one; every other row and every other table is kept. *)
Theorem updateHistoryStatus_closes_latest (now : Z) (userId toVersion : string)
    (c : UpdateService.Closing) (errorMessage : option string) (s : Store) :
  ((forall h, In h (updateHistory s) ->
              UpdateHistory.userId h = userId ->
              UpdateHistory.toVersion h = toVersion ->
              UpdateHistory.status h <> "started"%string) ->
   UpdateService.updateHistoryStatus now userId toVersion c errorMessage s = s)
  /\ (NoDup (map UpdateHistory.id (updateHistory s)) ->
      (exists h, In h (updateHistory s)
                 /\ UpdateHistory.userId h = userId
                 /\ UpdateHistory.toVersion h = toVersion
                 /\ UpdateHistory.status h = "started"%string) ->
      exists pre h post,
        updateHistory s = pre ++ h :: post
        /\ UpdateHistory.userId h = userId
        /\ UpdateHistory.toVersion h = toVersion
        /\ UpdateHistory.status h = "started"%string
        /\ Forall (fun x => ~ (UpdateHistory.userId x = userId
                               /\ UpdateHistory.toVersion x = toVersion
                               /\ UpdateHistory.status x = "started"%string)) post
        /\ UpdateService.updateHistoryStatus now userId toVersion c errorMessage s
           = mkStore (licenses s) (activations s) (updates s)
               (pre ++
                  UpdateHistory.mk (UpdateHistory.id h) (UpdateHistory.updateId h)
                    userId (UpdateHistory.fromVersion h) toVersion
                    (UpdateHistory.updateType h)
                    (match c with
                     | UpdateService.completed => "completed"
                     | UpdateService.failed => "failed"
                     end)
                    (UpdateHistory.platform h) (UpdateHistory.appVersion h)
                    (match errorMessage with
                     | Some m => Some m
                     | None => UpdateHistory.errorMessage h
                     end)
                    (match c with
                     | UpdateService.completed => Some now
                     | UpdateService.failed => UpdateHistory.completedAt h
                     end)
                  :: post)
               (nextId s)).
Proof.
  unfold UpdateService.updateHistoryStatus, UpdateService.findLatest. split.
  - intros Hnone. rewrite find_rev_none; [reflexivity|].
    intros h Hin. destruct (UpdateService.openFor userId toVersion h) eqn:Ho; [|reflexivity].
    apply openFor_spec in Ho as (Hu & Hv & Hs). destruct (Hnone h Hin Hu Hv Hs).
  - intros Hnd (h0 & Hin0 & Hu0 & Hv0 & Hs0).
    destruct (find _ (rev (updateHistory s))) as [h|] eqn:Hf.
    + apply find_rev_split in Hf as (pre & post & Heq & Hp & Hpost).
      apply openFor_spec in Hp as (Hu & Hv & Hs).
      exists pre, h, post. split; [exact Heq|]. split; [exact Hu|].
      split; [exact Hv|]. split; [exact Hs|]. split.
      * eapply Forall_impl; [|exact Hpost]. intros x Hx Habs.
        simpl in Hx. pose proof (proj2 (openFor_spec userId toVersion x) Habs) as Ho.
        congruence.
      * unfold withHistory. rewrite Heq in Hnd |- *.
        rewrite (updateWhere_one _ _ pre post h Hnd eq_refl).
        unfold UpdateService.close, UpdateService.closingText, orKeep.
        rewrite Hu, Hv. destruct c; reflexivity.
    + exfalso. assert (Hin : In h0 (rev (updateHistory s))) by now apply in_rev in Hin0.
      apply (find_none _ _ Hf) in Hin.
      rewrite (proj2 (openFor_spec userId toVersion h0) (conj Hu0 (conj Hv0 Hs0))) in Hin.
      discriminate Hin.
Qed.

Lemma updateHistoryStatus_closes_latest_witness :
  UpdateService.updateHistoryStatus 50 "user-9" "1.0.10" UpdateService.completed None
    Samples.attempts
  = Samples.attempts
  /\ exists pre h post,
       updateHistory Samples.attempts = pre ++ h :: post
       /\ UpdateHistory.userId h = "user-1"%string
       /\ Forall (fun x => ~ (UpdateHistory.userId x = "user-1"%string
                              /\ UpdateHistory.toVersion x = "1.0.10"%string
                              /\ UpdateHistory.status x = "started"%string)) post
       /\ updateHistory
            (UpdateService.updateHistoryStatus 50 "user-1" "1.0.10" UpdateService.failed
               (Some "disk full"%string) Samples.attempts)
          = pre ++
              UpdateHistory.mk (UpdateHistory.id h) (UpdateHistory.updateId h) "user-1"
                (UpdateHistory.fromVersion h) "1.0.10" (UpdateHistory.updateType h) "failed"
                (UpdateHistory.platform h) (UpdateHistory.appVersion h)
                (Some "disk full"%string) (UpdateHistory.completedAt h)
              :: post.
Proof.
  split.
  - apply (proj1 (updateHistoryStatus_closes_latest 50 "user-9" "1.0.10"
                    UpdateService.completed None Samples.attempts)).
    intros h [<-|[<-|[<-|[]]]]; discriminate.
  - destruct (proj2 (updateHistoryStatus_closes_latest 50 "user-1" "1.0.10"
                       UpdateService.failed (Some "disk full"%string) Samples.attempts))
      as (pre & h & post & Heq & Hu & _ & _ & Hpost & Hs).
    + repeat constructor; simpl; intuition discriminate.
    + exists (Samples.attempt 2 "user-1" "1.0.10" "started").
      split; [left; reflexivity|repeat split].
    + exists pre, h, post. split; [exact Heq|]. split; [exact Hu|].
      split; [exact Hpost|]. rewrite Hs. reflexivity.
Defined.

Example updateHistoryStatus_latest_sample :
  map UpdateHistory.status
    (updateHistory
       (UpdateService.updateHistoryStatus 50 "user-1" "1.0.10" UpdateService.completed
          None Samples.attempts))
  = ["started"; "started"; "completed"]%string.
Proof. reflexivity. Qed.

(** X9.  A check that offers a release opens a history row that the next
    status report of the same user for the offered version closes: with
    row ids below the counter, [recordHistory] after [checkForUpdate]
    leaves the earlier rows as they were and turns the row just opened
    into ['completed'] (stamped) or ['failed'] (not stamped); a
    ['started'] report leaves it open. *)
Theorem check_then_report (now : Z) (d : CheckUpdateDto) (s s1 : Store)
    (r : UpdateResponse) (offered : LatestVersion)
    (status : UpdateController.HistoryStatus) (errorMessage : option string) :
  Forall (fun h => (UpdateHistory.id h < nextId s)%nat) (updateHistory s) ->
  UpdateService.checkForUpdate d s = (Returned r, s1) ->
  latestVersion r = Some offered ->
  exists updateId,
    updateHistory
      (UpdateController.recordHistory now (ck_userId d) (lv_version offered) status
         errorMessage s1)
    = updateHistory s ++
        [UpdateHistory.mk (nextId s) updateId (ck_userId d) (ck_version d)
           (lv_version offered) "manual"
           (match status with
            | UpdateController.started => "started"
            | UpdateController.completed => "completed"
            | UpdateController.failed => "failed"
            end)
           (Some (ck_platform d)) (ck_appVersion d)
           (match status with
            | UpdateController.started => None
            | _ => errorMessage
            end)
           (match status with
            | UpdateController.completed => Some now
            | _ => None
            end)].
Proof.
  intros Hids Hc Hl. unfold UpdateService.checkForUpdate in Hc.
  destruct (LicenseKey.versionToBuildNumber (ck_version d)) as [|current];
    [discriminate Hc|].
  destruct (UpdateService.findFirst current s) as [latest|];
    injection Hc as <- <-; [|discriminate Hl].
  simpl in Hl. injection Hl as <-. simpl lv_version.
  exists (Update.id latest).
  set (row := UpdateHistory.mk (nextId s) (Update.id latest) (ck_userId d) (ck_version d)
                (Update.version latest) "manual" "started" (Some (ck_platform d))
                (ck_appVersion d) None None).
  assert (Hclose : forall c,
             updateHistory
               (UpdateService.updateHistoryStatus now (ck_userId d) (Update.version latest)
                  c errorMessage
                  (UpdateService.recordUpdateHistory (Update.id latest) (ck_userId d)
                     (ck_version d) (Update.version latest) "manual" "started"
                     (Some (ck_platform d)) (ck_appVersion d) None s))
             = updateHistory s ++ [UpdateService.close now c errorMessage row]).
  { intros c. unfold UpdateService.updateHistoryStatus, UpdateService.findLatest,
      UpdateService.recordUpdateHistory. simpl updateHistory. fold row.
    rewrite rev_app_distr. simpl rev. simpl app.
    assert (Ho : UpdateService.openFor (ck_userId d) (Update.version latest) row = true).
    { apply openFor_spec. repeat split. }
    cbn [find]. rewrite Ho. simpl.
    unfold updateWhere. rewrite map_app. simpl.
    unfold UpdateService.historyHasId at 2. simpl UpdateHistory.id. rewrite Nat.eqb_refl.
    f_equal. rewrite <- (map_id (updateHistory s)) at 2. apply map_ext_in.
    intros x Hx. rewrite Forall_forall in Hids. specialize (Hids x Hx).
    unfold UpdateService.historyHasId.
    destruct (Nat.eqb (UpdateHistory.id x) (nextId s)) eqn:Heq; [|reflexivity].
    apply Nat.eqb_eq in Heq. lia. }
  destruct status; simpl UpdateController.recordHistory.
  - reflexivity.
  - rewrite Hclose. destruct errorMessage; reflexivity.
  - rewrite Hclose. destruct errorMessage; reflexivity.
Qed.

Lemma check_then_report_witness :
  exists updateId,
    updateHistory
      (UpdateController.recordHistory 60 "user-1" "1.0.10" UpdateController.completed None
         (snd (UpdateService.checkForUpdate (Samples.check "darwin") Samples.attempts)))
    = updateHistory Samples.attempts ++
        [UpdateHistory.mk 5 updateId "user-1" "1.0.0" "1.0.10" "manual" "completed"
           (Some "darwin"%string) None None (Some 60)].
Proof.
  apply (check_then_report 60 (Samples.check "darwin") Samples.attempts
           (snd (UpdateService.checkForUpdate (Samples.check "darwin") Samples.attempts))
           (UpdateService.offer (Samples.release 1 "1.0.10" 10010 true))
           (mkLatestVersion "1.0.10" 10010 "normal" "/api/v2/updates/download/1.0.10"
              1000 "c0ffee" "notes" false)
           UpdateController.completed None).
  - repeat constructor.
  - reflexivity.
  - reflexivity.
Defined.

(** ** Paging through the releases *)

Section PageFacts.

Import UpdateService.

Lemma firstn_plus {A : Type} (n m : nat) (l : list A) :
  firstn (n + m) l = firstn n l ++ firstn m (skipn n l).
Proof.
  revert l. induction n as [|n IH]; intros l; simpl; [reflexivity|].
  destruct l as [|x l]; simpl; [now destruct m|]. now rewrite IH.
Qed.

Lemma chunks {A : Type} (size : nat) (l : list A) (n : nat) :
  flat_map (fun k => firstn size (skipn (k * size) l)) (seq 0 n) = firstn (n * size) l.
Proof.
  induction n as [|n IH]; [reflexivity|].
  rewrite seq_S, flat_map_app, IH. simpl. rewrite app_nil_r.
  rewrite <- firstn_plus. f_equal. lia.
Qed.

Lemma insertDescending_perm (u : Update.t) (l : list Update.t) :
  Permutation (insertDescending u l) (u :: l).
Proof.
  induction l as [|v l IH]; simpl; [reflexivity|].
  destruct (Update.buildNumber v <=? Update.buildNumber u); [reflexivity|].
  rewrite IH. apply perm_swap.
Qed.

Lemma sortDescending_perm (l : list Update.t) : Permutation (sortDescending l) l.
Proof.
  induction l as [|u l IH]; simpl; [reflexivity|].
  rewrite insertDescending_perm. now constructor.
Qed.

Lemma insertDescending_sorted (u : Update.t) (l : list Update.t) :
  descending l -> descending (insertDescending u l).
Proof.
  unfold descending. induction l as [|v l IH]; intros Hs; simpl.
  - repeat constructor.
  - inversion Hs as [|x xs Hxs Hall]; subst.
    destruct (Update.buildNumber v <=? Update.buildNumber u) eqn:Hle.
    + apply Z.leb_le in Hle. constructor; [exact Hs|].
      constructor; [exact Hle|].
      eapply Forall_impl; [|exact Hall]. intros w Hw. simpl in Hw. lia.
    + apply Z.leb_gt in Hle. constructor; [now apply IH|].
      assert (Hul : Forall (fun b => Update.buildNumber b <= Update.buildNumber v)
                      (u :: l)) by (constructor; [lia|exact Hall]).
      now rewrite <- (insertDescending_perm u l) in Hul.
Qed.

Lemma sortDescending_sorted (l : list Update.t) : descending (sortDescending l).
Proof.
  induction l as [|u l IH]; simpl; [constructor|]. now apply insertDescending_sorted.
Qed.

Lemma length_sortDescending (l : list Update.t) :
  List.length (sortDescending l) = List.length l.
Proof. apply Permutation_length, sortDescending_perm. Qed.

Lemma pageRows_chunk (k : nat) (limit : Z) (s : Store) :
  1 <= limit ->
  pageRows (Z.of_nat (S k)) limit s
  = firstn (Z.to_nat limit) (skipn (k * Z.to_nat limit) (sortDescending (updates s))).
Proof.
  intros Hl. unfold pageRows, getAllUpdates.
  assert (H1 : (1 <=? Z.of_nat (S k)) = true) by (apply Z.leb_le; lia).
  assert (H2 : (1 <=? limit) = true) by (apply Z.leb_le; lia).
  rewrite H1, H2. cbn [pg_updates]. do 2 f_equal.
  replace (Z.of_nat (S k) - 1) with (Z.of_nat k) by lia.
  rewrite Z2Nat.inj_mul, Nat2Z.id by lia. reflexivity.
Qed.

End PageFacts.

(** X10.  [getAllUpdates] with a page size [limit >= 1]: every page
    from 1 on is answered, holds at most [limit] releases and reports the
    same totals; the pages 1 to [pages] laid end to end are the releases
    in descending build order, each release exactly once; pages after
    that are empty; [pages] is the least count of pages that holds all
    releases. *)
Theorem getAllUpdates_pages (limit : Z) (s : Store) :
  1 <= limit ->
  let total := Z.of_nat (List.length (updates s)) in
  let pages := (total + limit - 1) / limit in
  (forall page,
      1 <= page ->
      exists pg,
        UpdateService.getAllUpdates page limit s = Some pg
        /\ Z.of_nat (List.length (UpdateService.pg_updates pg)) <= limit
        /\ UpdateService.pg_total pg = total
        /\ UpdateService.pg_pages pg = pages
        /\ (pages < page -> UpdateService.pg_updates pg = []))
  /\ flat_map (fun k => pageRows (Z.of_nat k) limit s) (seq 1 (Z.to_nat pages))
     = UpdateService.sortDescending (updates s)
  /\ Permutation (UpdateService.sortDescending (updates s)) (updates s)
  /\ descending (UpdateService.sortDescending (updates s))
  /\ total <= pages * limit
  /\ (0 < total -> (pages - 1) * limit < total)
  /\ (total = 0 -> pages = 0).
Proof.
  intros Hl total pages.
  assert (Hdiv : total + limit - 1 = limit * pages + (total + limit - 1) mod limit).
  { unfold pages. apply Z.div_mod. lia. }
  assert (Hmod : 0 <= (total + limit - 1) mod limit < limit)
    by (apply Z.mod_pos_bound; lia).
  assert (Hpages : 0 <= pages) by (unfold pages; apply Z.div_pos; unfold total; lia).
  assert (Hcover : total <= pages * limit) by lia.
  split; [|split; [|split; [|split; [|split; [|split]]]]].
  - intros page Hp. unfold UpdateService.getAllUpdates.
    assert (H1 : (1 <=? page) = true) by (apply Z.leb_le; lia).
    assert (H2 : (1 <=? limit) = true) by (apply Z.leb_le; lia).
    rewrite H1, H2. eexists. split; [reflexivity|]. simpl.
    split; [|split; [reflexivity|split; [reflexivity|]]].
    + pose proof (firstn_le_length (Z.to_nat limit)
                    (skipn (Z.to_nat ((page - 1) * limit))
                       (UpdateService.sortDescending (updates s)))). lia.
    + intros Hbeyond. rewrite skipn_all2; [now destruct (Z.to_nat limit)|].
      rewrite length_sortDescending. fold total in Hcover. unfold total in *. nia.
  - rewrite <- seq_shift, flat_map_concat_map, map_map, <- flat_map_concat_map.
    rewrite (flat_map_ext _ (fun k => firstn (Z.to_nat limit)
                                        (skipn (k * Z.to_nat limit)
                                           (UpdateService.sortDescending (updates s))))).
    + rewrite chunks. apply firstn_all2. rewrite length_sortDescending.
      unfold total in *. nia.
    + intros k. now apply pageRows_chunk.
  - apply sortDescending_perm.
  - apply sortDescending_sorted.
  - exact Hcover.
  - intros Hpos. nia.
  - intros H0. unfold pages. rewrite H0. apply Z.div_small. lia.
Qed.

Lemma getAllUpdates_pages_witness :
  flat_map (fun k => pageRows (Z.of_nat k) 2 Samples.releases) (seq 1 2)
  = UpdateService.sortDescending (updates Samples.releases)
  /\ map Update.version (pageRows 1 2 Samples.releases) = ["1.0.11"; "1.0.10"]%string
  /\ map Update.version (pageRows 2 2 Samples.releases) = ["1.0.9"]%string.
Proof.
  split; [|split; reflexivity].
  apply (getAllUpdates_pages 2 Samples.releases). lia.
Defined.

(** ** The shape of a validation answer *)

(** X11.  Every answer of [validateLicense] is of one of two shapes.  A
    success carries the license data and neither an error type nor a
    purchase link; the data echo the requested key, show the license as
    active and count at least one device.  A refusal carries no data, has
    an error type other than [machine_mismatch], bears the purchase link
    exactly when the type is [max_devices_reached], and leaves the store
    as it was. *)
Theorem validateLicense_answer_shape (now : Z) (d : ValidateLicenseDto) (s : Store) :
  (valid (fst (LicenseService.validateLicense now d s)) = true
   /\ errorType (fst (LicenseService.validateLicense now d s)) = None
   /\ purchaseUrl (fst (LicenseService.validateLicense now d s)) = None
   /\ exists payload,
        data (fst (LicenseService.validateLicense now d s)) = Some payload
        /\ d_licenseKey payload = licenseKey d
        /\ d_isActive payload = true
        /\ 1 <= d_deviceCount payload)
  \/ (valid (fst (LicenseService.validateLicense now d s)) = false
      /\ data (fst (LicenseService.validateLicense now d s)) = None
      /\ snd (LicenseService.validateLicense now d s) = s
      /\ exists e,
           errorType (fst (LicenseService.validateLicense now d s)) = Some e
           /\ e <> machine_mismatch
           /\ (e = max_devices_reached
               -> purchaseUrl (fst (LicenseService.validateLicense now d s))
                  = Some "https://macman.dev/#pricing"%string)
           /\ (e <> max_devices_reached
               -> purchaseUrl (fst (LicenseService.validateLicense now d s)) = None)).
Proof.
  assert (refusal : forall msg e url,
             e <> machine_mismatch ->
             (e = max_devices_reached -> url = Some "https://macman.dev/#pricing"%string) ->
             (e <> max_devices_reached -> url = None) ->
             valid (LicenseService.failure msg e url) = false
             /\ data (LicenseService.failure msg e url) = None
             /\ s = s
             /\ exists e0,
                  errorType (LicenseService.failure msg e url) = Some e0
                  /\ e0 <> machine_mismatch
                  /\ (e0 = max_devices_reached
                      -> purchaseUrl (LicenseService.failure msg e url)
                         = Some "https://macman.dev/#pricing"%string)
                  /\ (e0 <> max_devices_reached
                      -> purchaseUrl (LicenseService.failure msg e url) = None)).
  { intros msg e url H1 H2 H3. split; [reflexivity|]. split; [reflexivity|].
    split; [reflexivity|]. exists e. auto. }
  unfold LicenseService.validateLicense.
  destruct (negb (LicenseKey.isValidLicenseKeyFormat (licenseKey d))).
  { right. apply refusal; [discriminate|discriminate|reflexivity]. }
  destruct (LicenseService.findUnique (licenseKey d) s) as [license|] eqn:Hl.
  2:{ right. apply refusal; [discriminate|discriminate|reflexivity]. }
  assert (Hkey : License.licenseKey license = licenseKey d).
  { unfold LicenseService.findUnique in Hl. apply find_some in Hl as [_ Hk].
    now apply String.eqb_eq in Hk. }
  destruct (License.isActive license) eqn:Ha; simpl negb; cbv iota.
  2:{ right. apply refusal; [discriminate|discriminate|reflexivity]. }
  destruct (LicenseService.isExpired now license).
  { right. apply refusal; [discriminate|discriminate|reflexivity]. }
  destruct (find _ _) as [existing|] eqn:Hf.
  - left. simpl. split; [reflexivity|]. split; [reflexivity|]. split; [reflexivity|].
    eexists. split; [reflexivity|]. simpl.
    split; [exact Hkey|]. split; [exact Ha|].
    apply find_some in Hf as [Hin _].
    destruct (LicenseService.activeActivationsOf license s); [destruct Hin|].
    simpl List.length. lia.
  - destruct (_ >=? _).
    + right. apply refusal; [discriminate|reflexivity|].
      intros H. now destruct H.
    + left. simpl. split; [reflexivity|]. split; [reflexivity|]. split; [reflexivity|].
      eexists. split; [reflexivity|]. simpl.
      split; [exact Hkey|]. split; [exact Ha|]. lia.
Qed.

(** ** The invariant of the store *)

Section SoundFacts.

Import LicenseService.

Lemma Forall_lt_grow (n n' : nat) (l : list nat) :
  (n <= n')%nat -> Forall (fun i => (i < n)%nat) l -> Forall (fun i => (i < n')%nat) l.
Proof. intros Hle. apply Forall_impl. intros i Hi. lia. Qed.

Lemma soundOf_grow L A B V H (n n' : nat) :
  (n <= n')%nat -> soundOf L A B V H n -> soundOf L A B V H n'.
Proof.
  intros Hle (H1 & H2 & H3 & H4 & H5 & H6 & H7 & H8 & H9 & H10 & H11 & H12).
  repeat split; try assumption; eapply Forall_lt_grow; eassumption.
Qed.

Lemma sound_keep (s s' : Store) :
  map facts (licenses s') = map facts (licenses s) ->
  map LicenseActivation.id (activations s') = map LicenseActivation.id (activations s) ->
  slots s' = slots s ->
  map Update.version (updates s') = map Update.version (updates s) ->
  map UpdateHistory.id (updateHistory s') = map UpdateHistory.id (updateHistory s) ->
  (nextId s <= nextId s')%nat ->
  sound s -> sound s'.
Proof.
  unfold sound. intros -> -> -> -> -> Hle. now apply soundOf_grow.
Qed.

Lemma map_updateWhere_same {A B : Type} (g : A -> B) (sel : A -> bool) (f : A -> A)
    (l : list A) :
  (forall a, g (f a) = g a) -> map g (updateWhere sel f l) = map g l.
Proof.
  intros Hg. unfold updateWhere. rewrite map_map. apply map_ext.
  intros a. destruct (sel a); [apply Hg|reflexivity].
Qed.

Lemma fresh_not_in (n : nat) (l : list nat) :
  Forall (fun i => (i < n)%nat) l -> ~ In n l.
Proof. rewrite Forall_forall. intros H Hin. specialize (H n Hin). lia. Qed.

Lemma NoDup_snoc {A : Type} (l : list A) (x : A) :
  NoDup l -> ~ In x l -> NoDup (l ++ [x]).
Proof.
  intros Hnd Hx. apply NoDup_app; [exact Hnd|repeat constructor; intros []|].
  intros a Ha [<-|[]]. exact (Hx Ha).
Qed.

Lemma held_fresh (n : nat) (B : list (nat * string * bool)) :
  Forall (fun i => (i < n)%nat) (map (fun x : nat * string * bool => fst (fst x)) B) ->
  held n B = 0.
Proof.
  unfold held. induction B as [|x B IH]; simpl; intros H; [reflexivity|].
  inversion H as [|i is_ Hi Hrest]; subst.
  destruct (Nat.eqb (fst (fst x)) n) eqn:Heq.
  - apply Nat.eqb_eq in Heq. lia.
  - simpl. now apply IH.
Qed.

Lemma held_snoc (lid : nat) (B : list (nat * string * bool)) (x : nat * string * bool) :
  held lid (B ++ [x])
  = held lid B + (if Nat.eqb (fst (fst x)) lid && snd x then 1 else 0).
Proof.
  unfold held. rewrite filter_app, length_app. simpl.
  destruct (Nat.eqb (fst (fst x)) lid && snd x); simpl; lia.
Qed.

Lemma activeCount_held (license : License.t) (s : Store) :
  activeCount license s = held (License.id license) (slots s).
Proof. apply activeCount_heldSlots. Qed.

Lemma same_id_same_facts (L : list (nat * string * Z * Z)) (f g : nat * string * Z * Z) :
  NoDup (map factId L) -> In f L -> In g L -> factId f = factId g -> f = g.
Proof.
  induction L as [|x L IH]; simpl; intros Hnd Hf Hg Heq; [destruct Hf|].
  inversion Hnd as [|i is_ Hnotin Hnd']; subst.
  destruct Hf as [<-|Hf], Hg as [<-|Hg]; auto.
  - exfalso. apply Hnotin. rewrite Heq. now apply in_map.
  - exfalso. apply Hnotin. rewrite <- Heq. now apply in_map.
Qed.

Lemma findUnique_in (key : string) (s : Store) (license : License.t) :
  findUnique key s = Some license ->
  In license (licenses s) /\ License.licenseKey license = key.
Proof.
  unfold findUnique. intros H. apply find_some in H as [Hin Hk].
  apply String.eqb_eq in Hk. auto.
Qed.

(** The projection of the license table after its cached count is
    rewritten for one id. *)
Lemma facts_recount (i : nat) (count : Z) (g : License.t -> License.t)
    (ls : list License.t) :
  (forall l, facts (g l)
             = (License.id l, License.licenseKey l, License.maxDevices l, count)) ->
  map facts (updateWhere (licenseHasId i) g ls)
  = map (fun f => if Nat.eqb (factId f) i
                  then (factId f, factKey f, factQuota f, count) else f)
      (map facts ls).
Proof.
  intros Hg. unfold updateWhere. rewrite !map_map. apply map_ext.
  intros l. unfold licenseHasId.
  change (factId (facts l)) with (License.id l).
  destruct (Nat.eqb (License.id l) i); [apply Hg|reflexivity].
Qed.

End SoundFacts.

Section SoundSteps.

Import LicenseService.

Lemma sound_created (s : Store) (key : string) (email : option string) (plan : string)
    (quota : Z) :
  sound s ->
  findUnique key s = None ->
  LicenseKey.isValidLicenseKeyFormat key = true ->
  0 <= quota ->
  sound (bumpId (withLicenses
                   (licenses s ++
                      [License.mk (nextId s) key email plan quota true None None 0]) s)).
Proof.
  unfold sound, soundOf. simpl. rewrite !map_app. simpl.
  intros (H1 & H2 & H3 & H4 & H5 & H6 & H7 & H8 & H9 & H10 & H11 & H12) Hfresh Hvalid Hq.
  assert (Hgrow : (nextId s <= S (nextId s))%nat) by lia.
  repeat split.
  - apply NoDup_snoc; [exact H1|now apply fresh_not_in].
  - apply NoDup_snoc; [exact H2|]. rewrite map_map. intros Hin.
    apply in_map_iff in Hin as (l & Hk & Hl). unfold findUnique in Hfresh.
    apply (find_none _ _ Hfresh) in Hl. simpl in Hk. change (factKey (facts l))
      with (License.licenseKey l) in Hk. rewrite Hk, String.eqb_refl in Hl.
    discriminate Hl.
  - apply Forall_app. split; [now apply (Forall_lt_grow (nextId s))|].
    repeat constructor.
  - apply Forall_app. split; [exact H4|]. repeat constructor. exact Hvalid.
  - exact H5.
  - now apply (Forall_lt_grow (nextId s)).
  - now apply (Forall_lt_grow (nextId s)).
  - exact H8.
  - apply Forall_app. split; [exact H9|]. repeat constructor.
    + unfold factCount, factId. simpl. symmetry. now apply held_fresh.
    + unfold factQuota, factId. simpl. rewrite held_fresh by exact H7. exact Hq.
  - exact H10.
  - exact H11.
  - now apply (Forall_lt_grow (nextId s)).
Qed.

Lemma sound_new_device (now : Z) (d : ValidateLicenseDto) (s : Store)
    (license : License.t) :
  sound s ->
  In license (licenses s) ->
  ~ boundTo license (machineId d) s ->
  activeCount license s < License.maxDevices license ->
  sound (stampLicense now (License.id license) (activeCount license s + 1)
           (createActivation license d s)).
Proof.
  intros Hs Hin Hnb Hroom.
  set (s' := stampLicense now (License.id license) (activeCount license s + 1)
               (createActivation license d s)).
  set (L := map facts (licenses s)).
  set (recount := fun f : nat * string * Z * Z =>
                    if Nat.eqb (factId f) (License.id license)
                    then (factId f, factKey f, factQuota f, activeCount license s + 1)
                    else f).
  assert (E1 : map facts (licenses s') = map recount L).
  { unfold s', stampLicense. simpl.
    now rewrite (facts_recount (License.id license) (activeCount license s + 1)). }
  assert (E2 : map LicenseActivation.id (activations s')
               = map LicenseActivation.id (activations s) ++ [nextId s]).
  { unfold s', stampLicense, createActivation. simpl. now rewrite map_app. }
  assert (E3 : slots s' = slots s ++ [(License.id license, machineId d, true)]).
  { unfold slots, s', stampLicense, createActivation. simpl. now rewrite map_app. }
  assert (E4 : updates s' = updates s) by reflexivity.
  assert (E5 : updateHistory s' = updateHistory s) by reflexivity.
  assert (E6 : nextId s' = S (nextId s)) by reflexivity.
  unfold sound in *. rewrite E1, E2, E3, E4, E5, E6. fold L in Hs.
  destruct Hs as (H1 & H2 & H3 & H4 & H5 & H6 & H7 & H8 & H9 & H10 & H11 & H12).
  assert (HI : map factId (map recount L) = map factId L).
  { rewrite map_map. apply map_ext. intros f. unfold recount.
    destruct (Nat.eqb (factId f) (License.id license)); reflexivity. }
  assert (HK : map factKey (map recount L) = map factKey L).
  { rewrite map_map. apply map_ext. intros f. unfold recount.
    destruct (Nat.eqb (factId f) (License.id license)); reflexivity. }
  assert (Hlic : In (facts license) L) by (now apply in_map).
  assert (Hlid : (License.id license < nextId s)%nat).
  { rewrite Forall_forall in H3. apply H3.
    change (License.id license) with (factId (facts license)). now apply in_map. }
  assert (Hgrow : (nextId s <= S (nextId s))%nat) by lia.
  unfold soundOf. rewrite HI, HK.
  split; [exact H1|]. split; [exact H2|].
  split; [now apply (Forall_lt_grow (nextId s))|]. split; [exact H4|].
  split; [apply NoDup_snoc; [exact H5|now apply fresh_not_in]|].
  split; [apply Forall_app; split;
          [now apply (Forall_lt_grow (nextId s))|repeat constructor]|].
  split; [rewrite map_app; apply Forall_app; split;
          [now apply (Forall_lt_grow (nextId s))|repeat constructor; simpl; lia]|].
  split.
  { rewrite filter_app. simpl. apply NoDup_snoc; [exact H8|].
    intros Habs. apply filter_In in Habs as [Habs _]. apply Hnb.
    now apply boundTo_slots. }
  split.
  { apply Forall_map, Forall_forall. intros f Hf.
    rewrite Forall_forall in H9. destruct (H9 f Hf) as [Hc Hq].
    unfold recount. rewrite held_snoc. simpl fst. simpl snd.
    destruct (Nat.eqb (factId f) (License.id license)) eqn:Hid.
    - apply Nat.eqb_eq in Hid.
      assert (Hf' : f = facts license) by (now apply (same_id_same_facts L)).
      subst f. rewrite activeCount_held in *.
      unfold factCount, factId, factQuota, facts in *. simpl in *.
      rewrite Nat.eqb_refl. simpl. lia.
    - rewrite Nat.eqb_sym, Hid. simpl. lia. }
  split; [exact H10|]. split; [exact H11|].
  now apply (Forall_lt_grow (nextId s)).
Qed.

End SoundSteps.

Section SoundRelease.

Import LicenseService.

Lemma held_rows (lid : nat) (rows : list LicenseActivation.t) :
  held lid (map slotOf rows)
  = Z.of_nat (List.length
                (filter (fun a => Nat.eqb (LicenseActivation.licenseId a) lid
                                  && LicenseActivation.isActive a) rows)).
Proof.
  unfold held. f_equal. induction rows as [|a rows IH]; [reflexivity|]. simpl.
  destruct (_ && _); simpl; now rewrite IH.
Qed.

Lemma active_after_switchOff (now : Z) (sel : LicenseActivation.t -> bool)
    (rows : list LicenseActivation.t) (x : nat * string * bool) :
  In x (filter (fun y : nat * string * bool => snd y)
          (map slotOf (updateWhere sel (switchOff now) rows))) ->
  In x (filter (fun y : nat * string * bool => snd y) (map slotOf rows)).
Proof.
  induction rows as [|a rows IH]; simpl; [auto|].
  destruct (sel a).
  - simpl. intros Hin. destruct (LicenseActivation.isActive a); [right|]; now apply IH.
  - destruct (LicenseActivation.isActive a); simpl.
    + intros [<-|Hin]; [now left|right; now apply IH].
    + exact IH.
Qed.

Lemma NoDup_after_switchOff (now : Z) (sel : LicenseActivation.t -> bool)
    (rows : list LicenseActivation.t) :
  NoDup (filter (fun y : nat * string * bool => snd y) (map slotOf rows)) ->
  NoDup (filter (fun y : nat * string * bool => snd y)
           (map slotOf (updateWhere sel (switchOff now) rows))).
Proof.
  induction rows as [|a rows IH]; simpl; [auto|].
  destruct (sel a); simpl.
  - destruct (LicenseActivation.isActive a); intros Hnd; apply IH;
      [now inversion Hnd|exact Hnd].
  - destruct (LicenseActivation.isActive a); simpl; [|exact IH].
    intros Hnd. inversion Hnd as [|y ys Hnotin Hnd']; subst.
    constructor; [|now apply IH].
    intros Habs. apply Hnotin. now apply (active_after_switchOff now sel).
Qed.

Lemma switchOff_other (now : Z) (lid i : nat) (rows : list LicenseActivation.t) :
  (forall a, In a rows -> LicenseActivation.id a = i ->
             LicenseActivation.licenseId a <> lid) ->
  held lid (map slotOf (updateWhere (hasId i) (switchOff now) rows))
  = held lid (map slotOf rows).
Proof.
  rewrite !held_rows. intros Hother. f_equal.
  induction rows as [|a rows IH]; [reflexivity|].
  assert (IH' := IH (fun b Hb => Hother b (or_intror Hb))). clear IH.
  change (updateWhere (hasId i) (switchOff now) (a :: rows))
    with ((if hasId i a then switchOff now a else a)
            :: updateWhere (hasId i) (switchOff now) rows).
  unfold hasId at 1. destruct (Nat.eqb (LicenseActivation.id a) i) eqn:Hi.
  - apply Nat.eqb_eq in Hi. pose proof (Hother a (or_introl eq_refl) Hi) as Hne.
    apply Nat.eqb_neq in Hne. cbn [filter]. simpl LicenseActivation.licenseId.
    rewrite Hne. simpl. exact IH'.
  - cbn [filter]. destruct (_ && _); simpl; now rewrite IH'.
Qed.

Lemma unique_row (rows : list LicenseActivation.t) (a b : LicenseActivation.t) :
  NoDup (map LicenseActivation.id rows) -> In a rows -> In b rows ->
  LicenseActivation.id a = LicenseActivation.id b -> a = b.
Proof.
  induction rows as [|x rows IH]; simpl; intros Hnd Ha Hb Heq; [destruct Ha|].
  inversion Hnd as [|i ids Hnotin Hnd']; subst.
  destruct Ha as [<-|Ha], Hb as [<-|Hb]; auto.
  - exfalso. apply Hnotin. rewrite Heq. now apply in_map.
  - exfalso. apply Hnotin. rewrite <- Heq. now apply in_map.
Qed.

Lemma sound_released (now : Z) (s : Store) (license : License.t)
    (activation : LicenseActivation.t) :
  sound s ->
  In license (licenses s) ->
  In activation (activations s) ->
  LicenseActivation.licenseId activation = License.id license ->
  LicenseActivation.isActive activation = true ->
  sound (withLicenses
           (updateWhere (licenseHasId (License.id license))
              (setDeviceCount (License.deviceCount license - 1)) (licenses s))
           (withActivations
              (updateWhere (hasId (LicenseActivation.id activation)) (switchOff now)
                 (activations s)) s)).
Proof.
  intros Hs Hin Hact Hlid Hactive.
  match goal with |- sound ?t => set (s' := t) end.
  set (L := map facts (licenses s)).
  set (recount := fun f : nat * string * Z * Z =>
                    if Nat.eqb (factId f) (License.id license)
                    then (factId f, factKey f, factQuota f, License.deviceCount license - 1)
                    else f).
  assert (E1 : map facts (licenses s') = map recount L).
  { unfold s'. simpl.
    now rewrite (facts_recount (License.id license) (License.deviceCount license - 1)). }
  assert (E2 : map LicenseActivation.id (activations s')
               = map LicenseActivation.id (activations s)).
  { unfold s'. simpl. now apply map_updateWhere_same. }
  assert (E3 : slots s'
               = map slotOf (updateWhere (hasId (LicenseActivation.id activation))
                               (switchOff now) (activations s))) by reflexivity.
  assert (E3' : slots s = map slotOf (activations s)) by reflexivity.
  unfold sound in *. rewrite E1, E2, E3.
  change (updates s') with (updates s). change (updateHistory s') with (updateHistory s).
  change (nextId s') with (nextId s). fold L in Hs. rewrite E3' in Hs.
  destruct Hs as (H1 & H2 & H3 & H4 & H5 & H6 & H7 & H8 & H9 & H10 & H11 & H12).
  assert (HI : map factId (map recount L) = map factId L).
  { rewrite map_map. apply map_ext. intros f. unfold recount.
    destruct (Nat.eqb (factId f) (License.id license)); reflexivity. }
  assert (HK : map factKey (map recount L) = map factKey L).
  { rewrite map_map. apply map_ext. intros f. unfold recount.
    destruct (Nat.eqb (factId f) (License.id license)); reflexivity. }
  assert (Hlic : In (facts license) L) by (now apply in_map).
  unfold soundOf. rewrite HI, HK.
  split; [exact H1|]. split; [exact H2|]. split; [exact H3|]. split; [exact H4|].
  split; [exact H5|]. split; [exact H6|].
  split.
  { rewrite map_map in *. simpl in *.
    rewrite (map_updateWhere_same LicenseActivation.licenseId); [exact H7|reflexivity]. }
  split; [now apply NoDup_after_switchOff|].
  split.
  { apply Forall_map, Forall_forall. intros f Hf.
    rewrite Forall_forall in H9. destruct (H9 f Hf) as [Hc Hq]. unfold recount.
    destruct (Nat.eqb (factId f) (License.id license)) eqn:Hid.
    - apply Nat.eqb_eq in Hid.
      assert (Hf' : f = facts license) by (now apply (same_id_same_facts L)).
      subst f. unfold factCount, factId, factQuota, facts in *. simpl in *.
      rewrite held_rows in *.
      rewrite (switchOff_count now (License.id license) activation (activations s)
                 H5 Hact Hlid Hactive).
      lia.
    - rewrite switchOff_other; [auto|].
      intros a Ha Hai Habs. apply Nat.eqb_neq in Hid. apply Hid.
      assert (a = activation) by (now apply (unique_row (activations s))).
      subst a. congruence. }
  split; [exact H10|]. split; [exact H11|exact H12].
Qed.

End SoundRelease.

Section SoundCalls.

Import LicenseService.

Lemma sound_empty : sound emptyStore.
Proof. unfold sound, soundOf. simpl. repeat split; constructor. Qed.

Lemma validateLicense_sound (now : Z) (d : ValidateLicenseDto) (s : Store) :
  sound s -> sound (snd (validateLicense now d s)).
Proof.
  intros Hs. unfold validateLicense.
  destruct (negb (LicenseKey.isValidLicenseKeyFormat (licenseKey d))); [exact Hs|].
  destruct (findUnique (licenseKey d) s) as [license|] eqn:Hl; [|exact Hs].
  destruct (negb (License.isActive license)); [exact Hs|].
  destruct (isExpired now license); [exact Hs|].
  destruct (find _ _) as [existing|] eqn:Hf.
  - simpl. apply (sound_keep s); try reflexivity; [|apply slots_refresh|exact Hs].
    simpl. now apply map_updateWhere_same.
  - rewrite active_of_active. fold (activeCount license s).
    destruct (_ >=? _) eqn:Hge; [exact Hs|]. simpl.
    apply sound_new_device; [exact Hs|now apply (findUnique_in (licenseKey d))| |].
    + intros Hb. destruct (boundTo_find license (machineId d) s Hb) as (e & He & _).
      rewrite He in Hf. discriminate Hf.
    + destruct (Z.geb_spec (activeCount license s) (License.maxDevices license));
        [discriminate Hge|lia].
Qed.

Lemma deactivateDevice_sound (now : Z) (key machine : string) (s : Store) :
  sound s -> sound (snd (deactivateDevice now key machine s)).
Proof.
  intros Hs. unfold deactivateDevice.
  destruct (findUnique key s) as [license|] eqn:Hl; [|exact Hs].
  destruct (find _ _) as [activation|] eqn:Hf; [|exact Hs].
  simpl. apply find_some in Hf as [Hin Hsame]. apply filter_In in Hin as [Hin Hlid].
  apply Nat.eqb_eq in Hlid. apply andb_true_iff in Hsame as [_ Hact].
  apply sound_released; try assumption. now apply (findUnique_in key).
Qed.

Lemma deactivateLicense_sound (key : string) (s : Store) :
  sound s -> sound (snd (deactivateLicense key s)).
Proof.
  intros Hs. unfold deactivateLicense.
  destruct (findUnique key s) as [license|]; [|exact Hs].
  simpl. apply (sound_keep s); try reflexivity; [|exact Hs].
  simpl. now apply map_updateWhere_same.
Qed.

Lemma getMaxDevicesForPlan_positive (plan : string) : 1 <= getMaxDevicesForPlan plan.
Proof.
  unfold getMaxDevicesForPlan.
  repeat match goal with |- context [String.eqb ?a ?b] => destruct (String.eqb a b) end;
    lia.
Qed.

Lemma createLicense_sound (isEmail : string -> bool) (key : string)
    (b : LicenseRoutes.CreateLicenseBody) (s : Store) :
  LicenseKey.isValidLicenseKeyFormat key = true ->
  sound s -> sound (snd (LicenseRoutes.createLicense isEmail key b s)).
Proof.
  intros Hk Hs. unfold LicenseRoutes.createLicense.
  destruct (LicenseRoutes.createLicenseSchema isEmail b) as [|p ps] eqn:Hschema;
    [|exact Hs].
  apply schema_accepts in Hschema as (_ & _ & Hm).
  unfold createLicense. simpl.
  destruct (findUnique key s) eqn:Hfresh; [exact Hs|]. simpl.
  apply sound_created; try assumption.
  destruct (LicenseRoutes.max_devices b) as [m|].
  - specialize (Hm m eq_refl). destruct (m =? 0); [|lia].
    pose proof (getMaxDevicesForPlan_positive (LicenseRoutes.plan b)). lia.
  - pose proof (getMaxDevicesForPlan_positive (LicenseRoutes.plan b)). lia.
Qed.

Lemma createUpdate_sound (d : CreateUpdateDto) (s : Store) :
  sound s -> sound (snd (UpdateService.createUpdate d s)).
Proof.
  intros Hs. unfold UpdateService.createUpdate.
  destruct (UpdateService.findUnique (cu_version d) s) eqn:Hfresh; [exact Hs|].
  unfold sound in *. simpl. rewrite map_app. simpl.
  apply (soundOf_grow _ _ _ _ _ (nextId s)); [lia|].
  destruct Hs as (H1 & H2 & H3 & H4 & H5 & H6 & H7 & H8 & H9 & H10 & H11 & H12).
  repeat split; try assumption.
  apply NoDup_snoc; [exact H10|]. intros Hin.
  apply in_map_iff in Hin as (u & Hv & Hu). unfold UpdateService.findUnique in Hfresh.
  apply (find_none _ _ Hfresh) in Hu. rewrite Hv, String.eqb_refl in Hu. discriminate Hu.
Qed.

Lemma checkForUpdate_sound (d : CheckUpdateDto) (s : Store) :
  sound s -> sound (snd (UpdateService.checkForUpdate d s)).
Proof.
  intros Hs. unfold UpdateService.checkForUpdate.
  destruct (LicenseKey.versionToBuildNumber (ck_version d)); [exact Hs|].
  destruct (UpdateService.findFirst z s); [|exact Hs].
  unfold sound in *. simpl. rewrite map_app. simpl.
  destruct Hs as (H1 & H2 & H3 & H4 & H5 & H6 & H7 & H8 & H9 & H10 & H11 & H12).
  assert (Hgrow : (nextId s <= S (nextId s))%nat) by lia.
  repeat split; try assumption; try (now apply (Forall_lt_grow (nextId s))).
  - apply NoDup_snoc; [exact H11|now apply fresh_not_in].
  - apply Forall_app. split; [now apply (Forall_lt_grow (nextId s))|].
    repeat constructor.
Qed.

Lemma downloadUpdate_sound (existsSync : string -> bool) (size : string -> Z)
    (version : string) (s : Store) :
  sound s -> sound (snd (UpdateController.downloadUpdate existsSync size version s)).
Proof.
  intros Hs. unfold UpdateController.downloadUpdate, UpdateService.getUpdateByVersion,
    UpdateService.incrementDownloadCount.
  destruct (UpdateService.findUnique version s) as [u|]; [|exact Hs].
  assert (Hkept : sound (withUpdates
                           (updateWhere (UpdateService.hasVersion version)
                              UpdateService.countDownload (updates s)) s)).
  { apply (sound_keep s); try reflexivity; [|exact Hs].
    simpl. now apply map_updateWhere_same. }
  destruct (existsSync (Update.filename u)); exact Hkept.
Qed.

Lemma deactivateUpdate_sound (version : string) (s : Store) :
  sound s -> sound (snd (UpdateService.deactivateUpdate version s)).
Proof.
  intros Hs. unfold UpdateService.deactivateUpdate.
  destruct (UpdateService.findUnique version s) as [u|]; [|exact Hs].
  simpl. apply (sound_keep s); try reflexivity; [|exact Hs].
  simpl. now apply map_updateWhere_same.
Qed.

Lemma recordHistory_sound (now : Z) (userId toVersion : string)
    (status : UpdateController.HistoryStatus) (errorMessage : option string) (s : Store) :
  sound s ->
  sound (UpdateController.recordHistory now userId toVersion status errorMessage s).
Proof.
  intros Hs.
  assert (Hclose : forall c,
             sound (UpdateService.updateHistoryStatus now userId toVersion c
                      errorMessage s)).
  { intros c. unfold UpdateService.updateHistoryStatus.
    destruct (UpdateService.findLatest userId toVersion s); [|exact Hs].
    apply (sound_keep s); try reflexivity; [|exact Hs].
    simpl. now apply map_updateWhere_same. }
  destruct status; simpl; [exact Hs|apply Hclose|apply Hclose].
Qed.

Lemma serve_sound (isEmail existsSync : string -> bool) (size : string -> Z)
    (c : Call) (s : Store) :
  sound s -> sound (serve isEmail existsSync size c s).
Proof.
  intros Hs. destruct c; simpl.
  - apply createLicense_sound; [apply isValid_of_segments; apply keySegment_five|exact Hs].
  - now apply validateLicense_sound.
  - now apply deactivateLicense_sound.
  - now apply deactivateDevice_sound.
  - now apply createUpdate_sound.
  - now apply checkForUpdate_sound.
  - now apply downloadUpdate_sound.
  - now apply recordHistory_sound.
  - now apply deactivateUpdate_sound.
Qed.

Lemma serveAll_sound (isEmail existsSync : string -> bool) (size : string -> Z)
    (calls : list Call) (s : Store) :
  sound s -> sound (serveAll isEmail existsSync size calls s).
Proof.
  revert s. induction calls as [|c calls IH]; intros s Hs; [exact Hs|].
  simpl. apply IH. now apply serve_sound.
Qed.

End SoundCalls.

Section SoundReading.

Lemma sound_license (s : Store) (l : License.t) :
  sound s -> In l (licenses s) ->
  License.deviceCount l = activeCount l s
  /\ activeCount l s <= License.maxDevices l
  /\ LicenseKey.isValidLicenseKeyFormat (License.licenseKey l) = true.
Proof.
  intros (_ & _ & _ & H4 & _ & _ & _ & _ & H9 & _) Hin.
  rewrite Forall_forall in H4, H9.
  destruct (H9 (facts l) (in_map facts _ _ Hin)) as [Hc Hq].
  rewrite activeCount_held. split; [exact Hc|]. split; [exact Hq|].
  apply H4. rewrite map_map. apply in_map_iff. exists l. auto.
Qed.

Lemma sound_tables (s : Store) :
  sound s ->
  NoDup (map License.licenseKey (licenses s))
  /\ NoDup (map License.id (licenses s))
  /\ uniqueIds s
  /\ NoDup (filter (fun x : nat * string * bool => snd x) (slots s))
  /\ NoDup (map Update.version (updates s)).
Proof.
  intros (H1 & H2 & _ & _ & H5 & H6 & _ & H8 & _ & H10 & _).
  rewrite map_map in H1, H2.
  split; [exact H2|]. split; [exact H1|]. split; [|split; assumption].
  split; [exact H5|]. now apply Forall_map in H6.
Qed.

End SoundReading.

(** X12.  Served one after the other, the calls of the API keep the
    store consistent.  From the empty store (or any consistent one) and
    for every sequence of license creations, validations, device and
    license deactivations, release creations, update checks, downloads,
    history reports and release withdrawals: the cached [deviceCount] of
    every license equals its number of active activations, that number
    never exceeds [maxDevices], every key is well formed, license keys,
    license ids, activation ids and release versions are unique, and no
    machine holds two active activations of one license. *)
Theorem served_store_consistent (isEmail existsSync : string -> bool) (size : string -> Z)
    (calls : list Call) (s0 : Store) :
  sound s0 ->
  (forall l,
      In l (licenses (serveAll isEmail existsSync size calls s0)) ->
      License.deviceCount l = activeCount l (serveAll isEmail existsSync size calls s0)
      /\ activeCount l (serveAll isEmail existsSync size calls s0) <= License.maxDevices l
      /\ LicenseKey.isValidLicenseKeyFormat (License.licenseKey l) = true)
  /\ NoDup (map License.licenseKey (licenses (serveAll isEmail existsSync size calls s0)))
  /\ NoDup (map License.id (licenses (serveAll isEmail existsSync size calls s0)))
  /\ uniqueIds (serveAll isEmail existsSync size calls s0)
  /\ NoDup (filter (fun x : nat * string * bool => snd x)
              (slots (serveAll isEmail existsSync size calls s0)))
  /\ NoDup (map Update.version (updates (serveAll isEmail existsSync size calls s0))).
Proof.
  intros Hs0.
  pose proof (serveAll_sound isEmail existsSync size calls s0 Hs0) as Hs.
  split; [intros l Hl; now apply sound_license|now apply sound_tables].
Qed.

Lemma served_store_consistent_witness :
  (forall l,
      In l (licenses (serveAll (fun _ => true) (fun _ => true) (fun _ => 0)
                        Samples.session emptyStore)) ->
      License.deviceCount l
      = activeCount l (serveAll (fun _ => true) (fun _ => true) (fun _ => 0)
                         Samples.session emptyStore)
      /\ activeCount l (serveAll (fun _ => true) (fun _ => true) (fun _ => 0)
                          Samples.session emptyStore)
         <= License.maxDevices l
      /\ LicenseKey.isValidLicenseKeyFormat (License.licenseKey l) = true)
  /\ NoDup (map License.licenseKey
              (licenses (serveAll (fun _ => true) (fun _ => true) (fun _ => 0)
                           Samples.session emptyStore))).
Proof.
  destruct (served_store_consistent (fun _ => true) (fun _ => true) (fun _ => 0)
              Samples.session emptyStore)
    as (Hl & Hk & _).
  - unfold sound, soundOf. simpl. repeat split; constructor.
  - split; [exact Hl|exact Hk].
Defined.

Example session_outcome :
  map (fun l => (License.licenseKey l, License.maxDevices l, License.deviceCount l))
    (licenses (serveAll (fun _ => true) (fun _ => true) (fun _ => 0)
                 Samples.session emptyStore))
  = [("MACMAN-AAEC0-ECAW0-QUJD0"%string, 2, 2)]
  /\ slots (serveAll (fun _ => true) (fun _ => true) (fun _ => 0)
              Samples.session emptyStore)
     = [(0%nat, "m1"%string, false); (0%nat, "m2"%string, true);
        (0%nat, "m3"%string, true)].
Proof. split; reflexivity. Qed.

(** ** Releasing, switching off and creating, then validating *)

Section ComposeFacts.

Import LicenseService.

Lemma slot_twice (rows : list LicenseActivation.t) (a b : LicenseActivation.t) :
  NoDup (filter (fun y : nat * string * bool => snd y) (map slotOf rows)) ->
  NoDup (map LicenseActivation.id rows) ->
  In a rows -> In b rows -> slotOf a = slotOf b ->
  LicenseActivation.isActive a = true ->
  LicenseActivation.id a = LicenseActivation.id b.
Proof.
  induction rows as [|x rows IH]; simpl; intros Hnd Hids Ha Hb Heq Hact; [destruct Ha|].
  assert (Hin : forall c, In c rows -> slotOf c = slotOf a ->
                          In (slotOf a)
                            (filter (fun y : nat * string * bool => snd y)
                               (map slotOf rows))).
  { intros c Hc Hca. apply filter_In. split; [rewrite <- Hca; now apply in_map|].
    exact Hact. }
  inversion Hids as [|i ids Hnotin Hids']; subst.
  destruct Ha as [<-|Ha], Hb as [<-|Hb]; try reflexivity.
  - exfalso. change (snd (slotOf x)) with (LicenseActivation.isActive x) in Hnd.
    rewrite Hact in Hnd. inversion Hnd as [|y ys Hy _]; subst. apply Hy.
    apply (Hin b Hb). now symmetry.
  - exfalso. change (snd (slotOf x)) with (LicenseActivation.isActive x) in Hnd.
    assert (Hx : LicenseActivation.isActive x = true).
    { change (snd (slotOf x) = true). rewrite <- Heq. exact Hact. }
    rewrite Hx in Hnd. inversion Hnd as [|y ys Hy _]; subst. apply Hy.
    rewrite <- Heq. now apply (Hin a Ha).
  - apply IH; try assumption.
    change (snd (slotOf x)) with (LicenseActivation.isActive x) in Hnd.
    destruct (LicenseActivation.isActive x); [now inversion Hnd|exact Hnd].
Qed.

Lemma sound_rows (s : Store) :
  sound s ->
  NoDup (filter (fun y : nat * string * bool => snd y) (map slotOf (activations s)))
  /\ NoDup (map LicenseActivation.id (activations s)).
Proof. intros (_ & _ & _ & _ & H5 & _ & _ & H8 & _). split; assumption. Qed.

End ComposeFacts.

(** X13.  In a consistent store, releasing a bound device of an active,
    unexpired license and validating the same machine again succeeds: the
    release lowers the active-device count by one, the validation binds
    the machine with a new activation and reports the count the license
    had before the release. *)
Theorem release_then_validate (now1 now2 : Z) (d : ValidateLicenseDto) (s : Store)
    (license : License.t) :
  sound s ->
  LicenseService.findUnique (licenseKey d) s = Some license ->
  License.isActive license = true ->
  unexpired now2 license ->
  boundTo license (machineId d) s ->
  fst (LicenseService.deactivateDevice now1 (licenseKey d) (machineId d) s) = Returned true
  /\ activeCount license
       (snd (LicenseService.deactivateDevice now1 (licenseKey d) (machineId d) s))
     = activeCount license s - 1
  /\ fst (LicenseService.validateLicense now2 d
            (snd (LicenseService.deactivateDevice now1 (licenseKey d) (machineId d) s)))
     = validated "License activated successfully" license (activeCount license s)
  /\ activeCount license
       (snd (LicenseService.validateLicense now2 d
               (snd (LicenseService.deactivateDevice now1 (licenseKey d)
                       (machineId d) s))))
     = activeCount license s
  /\ slots (snd (LicenseService.validateLicense now2 d
                   (snd (LicenseService.deactivateDevice now1 (licenseKey d)
                           (machineId d) s))))
     = slots (snd (LicenseService.deactivateDevice now1 (licenseKey d) (machineId d) s))
       ++ [(License.id license, machineId d, true)].
Proof.
  intros Hs Hl Ha Hu Hb.
  destruct (boundTo_find_all license (machineId d) s Hb)
    as (activation & Hfind & Hin & Hlid & Hm & Hact).
  destruct (findUnique_in _ _ _ Hl) as [Hlin Hkey].
  destruct (sound_license s license Hs Hlin) as (Hcount & Hquota & Hvalid).
  destruct (sound_rows s Hs) as [Hslots Hids].
  unfold LicenseService.deactivateDevice. rewrite Hl, Hfind. simpl fst. simpl snd.
  match goal with |- context [LicenseService.validateLicense now2 d ?t] =>
    set (s1 := t) end.
  set (license1 := LicenseService.setDeviceCount (License.deviceCount license - 1) license).
  assert (F1 : LicenseService.findUnique (licenseKey d) s1 = Some license1).
  { unfold LicenseService.findUnique, s1. simpl.
    rewrite find_updateWhere by reflexivity.
    fold (LicenseService.findUnique (licenseKey d) s). rewrite Hl. simpl.
    unfold LicenseService.licenseHasId. now rewrite Nat.eqb_refl. }
  assert (F2 : activeCount license s1 = activeCount license s - 1).
  { unfold activeCount, LicenseService.activeActivationsOf, s1. simpl.
    now apply switchOff_count. }
  assert (F3 : ~ boundTo license1 (machineId d) s1).
  { intros (a' & Hin' & Hl' & Hm' & Ha'). unfold s1 in Hin'. simpl in Hin'.
    unfold updateWhere in Hin'. apply in_map_iff in Hin' as (a & Heq & Hain).
    unfold LicenseService.hasId in Heq.
    destruct (Nat.eqb (LicenseActivation.id a) (LicenseActivation.id activation)) eqn:Hi.
    - subst a'. discriminate Ha'.
    - subst a'. apply Nat.eqb_neq in Hi. apply Hi.
      apply (slot_twice (activations s)); try assumption.
      unfold slotOf. simpl in Hl'. congruence. }
  assert (Hroom : activeCount license1 s1 < License.maxDevices license1).
  { change (activeCount license1 s1) with (activeCount license s1).
    change (License.maxDevices license1) with (License.maxDevices license). lia. }
  assert (Hv : LicenseKey.isValidLicenseKeyFormat (licenseKey d) = true)
    by (now rewrite <- Hkey).
  destruct (validate_new now2 d s1 license1 Hv F1 Ha Hu F3 Hroom) as (Hr & _ & Hs2).
  split; [reflexivity|]. split; [exact F2|]. split; [|split].
  - rewrite Hr. change (activeCount license1 s1) with (activeCount license s1).
    rewrite F2. unfold validated. simpl. f_equal. f_equal. f_equal. lia.
  - rewrite activeCount_heldSlots, (heldSlots_app _ s1 _ _ Hs2), <- activeCount_heldSlots.
    simpl. rewrite Nat.eqb_refl. simpl. lia.
  - exact Hs2.
Qed.

Lemma release_then_validate_witness :
  fst (LicenseService.validateLicense 30 (Samples.request "m1")
         (snd (LicenseService.deactivateDevice 20 Samples.key "m1"
                 (Samples.oneBound 1 true None))))
  = validated "License activated successfully" (Samples.license 1 true None) 1.
Proof.
  apply (release_then_validate 20 30 (Samples.request "m1") (Samples.oneBound 1 true None)
           (Samples.license 1 true None)).
  - unfold sound, soundOf. simpl.
    repeat split;
      repeat first [apply NoDup_nil | apply Forall_nil
                   | apply NoDup_cons; [simpl; tauto|]
                   | apply Forall_cons; [simpl; first [lia | split; reflexivity
                                                      | reflexivity]|]].
    repeat constructor.
  - reflexivity.
  - reflexivity.
  - intros t Ht. discriminate Ht.
  - exists (Samples.bound 1 "m1" true). split; [left; reflexivity|repeat split].
Defined.

(** X14.  [deactivateLicense] on an unknown key raises the storage
    client's error and changes nothing.  On a known key it switches the
    license off and leaves every activation as it was; from then on every
    validation with that key, from a bound machine or a new one, is
    refused as [inactive] and changes nothing. *)
Theorem deactivateLicense_refuses_all (key : string) (s : Store) :
  (LicenseService.findUnique key s = None ->
   exists msg, LicenseService.deactivateLicense key s = (Threw (PrismaError msg), s))
  /\ (forall license,
         LicenseService.findUnique key s = Some license ->
         exists license',
           fst (LicenseService.deactivateLicense key s) = Returned license'
           /\ License.isActive license' = false
           /\ License.licenseKey license' = key
           /\ activations (snd (LicenseService.deactivateLicense key s)) = activations s
           /\ forall now d,
                licenseKey d = key ->
                LicenseKey.isValidLicenseKeyFormat key = true ->
                LicenseService.validateLicense now d
                  (snd (LicenseService.deactivateLicense key s))
                = (mkLicenseResponse false "This license has been deactivated" None
                     (Some inactive) None,
                   snd (LicenseService.deactivateLicense key s))).
Proof.
  unfold LicenseService.deactivateLicense. split.
  - intros ->. eexists. reflexivity.
  - intros license Hl. rewrite Hl. simpl fst. simpl snd.
    destruct (findUnique_in _ _ _ Hl) as [_ Hkey].
    eexists. split; [reflexivity|]. split; [reflexivity|]. split; [exact Hkey|].
    split; [reflexivity|].
    intros now d Hd Hv. unfold LicenseService.validateLicense. rewrite Hd, Hv.
    simpl negb. cbv iota.
    assert (Hf : LicenseService.findUnique key
                   (withLicenses
                      (updateWhere (LicenseService.licenseHasId (License.id license))
                         (fun x => License.mk (License.id x) (License.licenseKey x)
                                     (License.email x) (License.plan x)
                                     (License.maxDevices x) false (License.expiresAt x)
                                     (License.activatedAt x) (License.deviceCount x))
                         (licenses s)) s)
                 = Some (License.mk (License.id license) (License.licenseKey license)
                           (License.email license) (License.plan license)
                           (License.maxDevices license) false (License.expiresAt license)
                           (License.activatedAt license) (License.deviceCount license))).
    { unfold LicenseService.findUnique. simpl. rewrite find_updateWhere by reflexivity.
      fold (LicenseService.findUnique key s). rewrite Hl. simpl.
      unfold LicenseService.licenseHasId. now rewrite Nat.eqb_refl. }
    rewrite Hf. reflexivity.
Qed.

Lemma deactivateLicense_refuses_all_witness :
  (exists msg,
      LicenseService.deactivateLicense "MACMAN-00000-00000-00000"
        (Samples.oneBound 2 true None)
      = (Threw (PrismaError msg), Samples.oneBound 2 true None))
  /\ errorType (fst (LicenseService.validateLicense 40 (Samples.request "m2")
                       (snd (LicenseService.deactivateLicense Samples.key
                               (Samples.oneBound 2 true None)))))
     = Some inactive.
Proof.
  split.
  - apply (proj1 (deactivateLicense_refuses_all "MACMAN-00000-00000-00000"
                    (Samples.oneBound 2 true None))).
    reflexivity.
  - destruct (proj2 (deactivateLicense_refuses_all Samples.key
                       (Samples.oneBound 2 true None))
                (Samples.license 2 true None) eq_refl)
      as (license' & _ & _ & _ & _ & Hall).
    rewrite (Hall 40 (Samples.request "m2") eq_refl eq_refl). reflexivity.
Defined.

(** X15.  A license created through the route with a generated key
    takes its first device: in a consistent store, when the schema accepts
    the body and the key is not yet stored, the license is created, and a
    validation with that key at any time from any machine succeeds and
    reports one device. *)
Theorem created_license_validates (isEmail : string -> bool)
    (r1 r2 r3 : Byte.byte * Byte.byte * Byte.byte)
    (b : LicenseRoutes.CreateLicenseBody) (s : Store) :
  sound s ->
  LicenseRoutes.createLicenseSchema isEmail b = [] ->
  LicenseService.findUnique (LicenseKey.generateLicenseKey r1 r2 r3) s = None ->
  exists license s1,
    LicenseRoutes.createLicense isEmail (LicenseKey.generateLicenseKey r1 r2 r3) b s
    = (Returned license, s1)
    /\ forall now d,
         licenseKey d = LicenseKey.generateLicenseKey r1 r2 r3 ->
         fst (LicenseService.validateLicense now d s1)
         = validated "License activated successfully" license 1.
Proof.
  intros Hs Hschema Hfresh.
  set (key := LicenseKey.generateLicenseKey r1 r2 r3) in *.
  assert (Hv : LicenseKey.isValidLicenseKeyFormat key = true).
  { unfold key, LicenseKey.generateLicenseKey.
    apply isValid_of_segments; apply keySegment_five. }
  unfold LicenseRoutes.createLicense. rewrite Hschema.
  unfold LicenseService.createLicense. rewrite Hfresh.
  cbn [cl_maxDevices cl_plan cl_email].
  set (quota := match LicenseRoutes.max_devices b with
                | Some m => if m =? 0
                            then LicenseService.getMaxDevicesForPlan (LicenseRoutes.plan b)
                            else m
                | None => LicenseService.getMaxDevicesForPlan (LicenseRoutes.plan b)
                end).
  assert (Hq : 1 <= quota).
  { apply schema_accepts in Hschema as (_ & _ & Hm). unfold quota.
    pose proof (getMaxDevicesForPlan_positive (LicenseRoutes.plan b)).
    destruct (LicenseRoutes.max_devices b) as [m|]; [|lia].
    specialize (Hm m eq_refl). destruct (m =? 0); lia. }
  eexists _, _. split; [reflexivity|].
  intros now d Hd.
  match goal with |- context [LicenseService.validateLicense now d ?t] =>
    set (s1 := t) end.
  set (license := License.mk (nextId s) key (LicenseRoutes.email b) (LicenseRoutes.plan b)
                    quota true None None LicenseService.defaultDeviceCount).
  assert (Hl : LicenseService.findUnique (licenseKey d) s1 = Some license).
  { rewrite Hd. unfold LicenseService.findUnique, s1. simpl. rewrite find_last.
    unfold LicenseService.findUnique in Hfresh. rewrite Hfresh. simpl.
    now rewrite String.eqb_refl. }
  destruct Hs as (_ & _ & _ & _ & _ & _ & H7 & _).
  assert (Hnone : forall a, In a (activations s1) ->
                            LicenseActivation.licenseId a <> License.id license).
  { intros a Hin Heq. rewrite Forall_forall in H7. simpl in Heq.
    assert (Hlt : (LicenseActivation.licenseId a < nextId s)%nat).
    { apply H7. unfold slots. rewrite map_map. simpl.
      change (LicenseActivation.licenseId a)
        with ((fun x => LicenseActivation.licenseId x) a).
      now apply in_map. }
    lia. }
  assert (Hzero : activeCount license s1 = 0).
  { rewrite activeCount_heldSlots. now apply heldSlots_none. }
  destruct (validate_new now d s1 license) as (Hr & _).
  - now rewrite Hd.
  - exact Hl.
  - reflexivity.
  - intros t Ht. discriminate Ht.
  - intros (a & Hin & Hlid & _). exact (Hnone a Hin Hlid).
  - rewrite Hzero. simpl. lia.
  - rewrite Hr, Hzero. reflexivity.
Qed.

Lemma created_license_validates_witness :
  exists license s1,
    LicenseRoutes.createLicense (fun _ => true)
      (LicenseKey.generateLicenseKey (Byte.x00, Byte.x01, Byte.x02)
         (Byte.x10, Byte.x20, Byte.x30) (Byte.x41, Byte.x42, Byte.x43))
      (LicenseRoutes.mkCreateLicenseBody None "Individual" None) emptyStore
    = (Returned license, s1)
    /\ forall now d,
         licenseKey d
         = LicenseKey.generateLicenseKey (Byte.x00, Byte.x01, Byte.x02)
             (Byte.x10, Byte.x20, Byte.x30) (Byte.x41, Byte.x42, Byte.x43) ->
         fst (LicenseService.validateLicense now d s1)
         = validated "License activated successfully" license 1.
Proof.
  apply (created_license_validates (fun _ => true) (Byte.x00, Byte.x01, Byte.x02)
           (Byte.x10, Byte.x20, Byte.x30) (Byte.x41, Byte.x42, Byte.x43)
           (LicenseRoutes.mkCreateLicenseBody None "Individual" None) emptyStore).
  - unfold sound, soundOf. simpl. repeat split; constructor.
  - reflexivity.
  - reflexivity.
Defined.

(** ** What no call undoes *)

Section KeptFacts.

Lemma licenseKept_refl (l : License.t) : licenseKept l l.
Proof. unfold licenseKept. auto 10. Qed.

Lemma licenseKept_trans (a b c : License.t) :
  licenseKept a b -> licenseKept b c -> licenseKept a c.
Proof.
  unfold licenseKept. intros (A1 & A2 & A3 & A4 & A5 & A6 & A7)
    (B1 & B2 & B3 & B4 & B5 & B6 & B7).
  repeat split; try congruence. auto.
Qed.

Lemma releaseKept_refl (u : Update.t) : releaseKept u u.
Proof. unfold releaseKept. repeat split; auto; lia. Qed.

Lemma releaseKept_trans (a b c : Update.t) :
  releaseKept a b -> releaseKept b c -> releaseKept a c.
Proof.
  unfold releaseKept.
  intros (A1 & A2 & A3 & A4 & A5 & A6 & A7 & A8 & A9 & A10 & A11)
    (B1 & B2 & B3 & B4 & B5 & B6 & B7 & B8 & B9 & B10 & B11).
  repeat split; try congruence; [lia|auto].
Qed.

(** A table changed by appending rows or rewriting rows in place, the
    key of every row kept. *)
Lemma find_kept_updateWhere {A : Type} (R : A -> A -> Prop) (p sel : A -> bool)
    (f : A -> A) (rows : list A) (x : A) :
  (forall y, R y y) -> (forall y, R y (f y)) -> (forall y, p (f y) = p y) ->
  find p rows = Some x ->
  exists x', find p (updateWhere sel f rows) = Some x' /\ R x x'.
Proof.
  intros Hrefl Hf Hp Hx. rewrite find_updateWhere by exact Hp. rewrite Hx. simpl.
  destruct (sel x); eauto.
Qed.

Lemma find_kept_app {A : Type} (p : A -> bool) (rows extra : list A) (x : A) :
  find p rows = Some x -> find p (rows ++ extra) = Some x.
Proof.
  induction rows as [|y rows IH]; simpl; [discriminate|].
  destruct (p y); [auto|exact IH].
Qed.

Lemma serve_keeps_license (isEmail existsSync : string -> bool) (size : string -> Z)
    (c : Call) (key : string) (s : Store) (l : License.t) :
  LicenseService.findUnique key s = Some l ->
  exists l',
    LicenseService.findUnique key (serve isEmail existsSync size c s) = Some l'
    /\ licenseKept l l'.
Proof.
  intros Hl.
  assert (Hsame : forall s', licenses s' = licenses s ->
                             exists l', LicenseService.findUnique key s' = Some l'
                                        /\ licenseKept l l').
  { intros s' Hs'. exists l. split; [|apply licenseKept_refl].
    unfold LicenseService.findUnique in *. now rewrite Hs'. }
  assert (Hre : forall sel f rest,
             (forall y, licenseKept y (f y)) ->
             (forall y, String.eqb (License.licenseKey (f y)) key
                        = String.eqb (License.licenseKey y) key) ->
             exists l',
               LicenseService.findUnique key
                 (mkStore (updateWhere sel f (licenses s)) (activations rest)
                    (updates rest) (updateHistory rest) (nextId rest))
               = Some l' /\ licenseKept l l').
  { intros sel f rest Hf Hp. unfold LicenseService.findUnique in *. simpl.
    apply (find_kept_updateWhere licenseKept); try assumption. apply licenseKept_refl. }
  destruct c; simpl.
  - unfold LicenseRoutes.createLicense.
    destruct (LicenseRoutes.createLicenseSchema isEmail b); [|now apply Hsame].
    unfold LicenseService.createLicense.
    destruct (LicenseService.findUnique (LicenseKey.generateLicenseKey r1 r2 r3) s);
      [now apply Hsame|]. simpl.
    exists l. split; [|apply licenseKept_refl].
    unfold LicenseService.findUnique in *. simpl. now apply find_kept_app.
  - unfold LicenseService.validateLicense.
    destruct (negb _); [now apply Hsame|].
    destruct (LicenseService.findUnique (licenseKey d) s) as [license|];
      [|now apply Hsame].
    destruct (negb _); [now apply Hsame|].
    destruct (LicenseService.isExpired now license); [now apply Hsame|].
    destruct (find _ _); [now apply Hsame|].
    destruct (_ >=? _); [now apply Hsame|]. simpl.
    apply (Hre _ _ (LicenseService.createActivation license d s)).
    + intros y. unfold licenseKept. simpl. auto 10.
    + reflexivity.
  - unfold LicenseService.deactivateLicense.
    destruct (LicenseService.findUnique key0 s) as [license|]; [|now apply Hsame].
    simpl. apply (Hre _ _ s).
    + intros y. unfold licenseKept. simpl. auto 10.
    + reflexivity.
  - unfold LicenseService.deactivateDevice.
    destruct (LicenseService.findUnique key0 s) as [license|]; [|now apply Hsame].
    destruct (find _ _); [|now apply Hsame]. simpl.
    apply (Hre _ _ (withActivations
                      (updateWhere (LicenseService.hasId (LicenseActivation.id t))
                         (LicenseService.switchOff now) (activations s)) s)).
    + intros y. unfold licenseKept. simpl. auto 10.
    + reflexivity.
  - apply Hsame. unfold UpdateService.createUpdate.
    destruct (UpdateService.findUnique (cu_version d) s); reflexivity.
  - apply Hsame. unfold UpdateService.checkForUpdate.
    destruct (LicenseKey.versionToBuildNumber _); [reflexivity|].
    destruct (UpdateService.findFirst _ s); reflexivity.
  - apply Hsame. unfold UpdateController.downloadUpdate,
      UpdateService.getUpdateByVersion, UpdateService.incrementDownloadCount.
    destruct (UpdateService.findUnique version s); [|reflexivity].
    destruct (existsSync _); reflexivity.
  - apply Hsame. unfold UpdateController.recordHistory, UpdateService.updateHistoryStatus.
    destruct status; try reflexivity;
      destruct (UpdateService.findLatest userId toVersion s); reflexivity.
  - apply Hsame. unfold UpdateService.deactivateUpdate.
    destruct (UpdateService.findUnique version s); reflexivity.
Qed.

End KeptFacts.

Section KeptReleases.

Lemma serve_keeps_release (isEmail existsSync : string -> bool) (size : string -> Z)
    (c : Call) (version : string) (s : Store) (u : Update.t) :
  UpdateService.findUnique version s = Some u ->
  exists u',
    UpdateService.findUnique version (serve isEmail existsSync size c s) = Some u'
    /\ releaseKept u u'.
Proof.
  intros Hu.
  assert (Hsame : forall s', updates s' = updates s ->
                             exists u', UpdateService.findUnique version s' = Some u'
                                        /\ releaseKept u u').
  { intros s' Hs'. exists u. split; [|apply releaseKept_refl].
    unfold UpdateService.findUnique in *. now rewrite Hs'. }
  assert (Hre : forall sel f,
             (forall y, releaseKept y (f y)) ->
             (forall y, Update.version (f y) = Update.version y) ->
             exists u',
               UpdateService.findUnique version
                 (withUpdates (updateWhere sel f (updates s)) s)
               = Some u' /\ releaseKept u u').
  { intros sel f Hf Hp. unfold UpdateService.findUnique in *. simpl.
    apply (find_kept_updateWhere releaseKept); try assumption.
    - apply releaseKept_refl.
    - intros y. now rewrite Hp. }
  destruct c; simpl.
  - apply Hsame. unfold LicenseRoutes.createLicense.
    destruct (LicenseRoutes.createLicenseSchema isEmail b); [|reflexivity].
    unfold LicenseService.createLicense.
    destruct (LicenseService.findUnique (LicenseKey.generateLicenseKey r1 r2 r3) s);
      reflexivity.
  - apply Hsame. unfold LicenseService.validateLicense.
    destruct (negb _); [reflexivity|].
    destruct (LicenseService.findUnique (licenseKey d) s) as [license|]; [|reflexivity].
    destruct (negb _); [reflexivity|].
    destruct (LicenseService.isExpired now license); [reflexivity|].
    destruct (find _ _); [reflexivity|].
    destruct (_ >=? _); reflexivity.
  - apply Hsame. unfold LicenseService.deactivateLicense.
    destruct (LicenseService.findUnique key s); reflexivity.
  - apply Hsame. unfold LicenseService.deactivateDevice.
    destruct (LicenseService.findUnique key s) as [license|]; [|reflexivity].
    destruct (find _ _); reflexivity.
  - unfold UpdateService.createUpdate.
    destruct (UpdateService.findUnique (cu_version d) s); [now apply Hsame|]. simpl.
    exists u. split; [|apply releaseKept_refl].
    unfold UpdateService.findUnique in *. simpl. now apply find_kept_app.
  - apply Hsame. unfold UpdateService.checkForUpdate.
    destruct (LicenseKey.versionToBuildNumber _); [reflexivity|].
    destruct (UpdateService.findFirst _ s); reflexivity.
  - unfold UpdateController.downloadUpdate, UpdateService.getUpdateByVersion,
      UpdateService.incrementDownloadCount.
    destruct (UpdateService.findUnique version0 s) as [v|]; [|now apply Hsame].
    assert (Hcount : exists u',
               UpdateService.findUnique version
                 (withUpdates (updateWhere (UpdateService.hasVersion version0)
                                 UpdateService.countDownload (updates s)) s)
               = Some u' /\ releaseKept u u').
    { apply Hre; [|reflexivity]. intros y. unfold releaseKept. simpl.
      repeat split; auto; lia. }
    destruct (existsSync (Update.filename v)); exact Hcount.
  - apply Hsame. unfold UpdateController.recordHistory, UpdateService.updateHistoryStatus.
    destruct status; try reflexivity;
      destruct (UpdateService.findLatest userId toVersion s); reflexivity.
  - unfold UpdateService.deactivateUpdate.
    destruct (UpdateService.findUnique version0 s) as [v|]; [|now apply Hsame].
    simpl. apply Hre; [|reflexivity]. intros y. unfold releaseKept. simpl.
    repeat split; auto; lia.
Qed.

End KeptReleases.

(** X16.  No call removes a license or changes its terms: whatever calls
    are served, a license that was stored is still found under its key
    with the same id, e-mail, plan, quota and expiration, and a license
    that was deactivated is still deactivated. *)
Theorem license_terms_kept (isEmail existsSync : string -> bool) (size : string -> Z)
    (calls : list Call) (key : string) (s : Store) (l : License.t) :
  LicenseService.findUnique key s = Some l ->
  exists l',
    LicenseService.findUnique key (serveAll isEmail existsSync size calls s) = Some l'
    /\ License.id l' = License.id l
    /\ License.licenseKey l' = License.licenseKey l
    /\ License.email l' = License.email l
    /\ License.plan l' = License.plan l
    /\ License.maxDevices l' = License.maxDevices l
    /\ License.expiresAt l' = License.expiresAt l
    /\ (License.isActive l = false -> License.isActive l' = false).
Proof.
  revert s l. induction calls as [|c calls IH]; intros s l Hl.
  - exists l. split; [exact Hl|]. apply licenseKept_refl.
  - destruct (serve_keeps_license isEmail existsSync size c key s l Hl) as (l1 & Hl1 & K1).
    destruct (IH _ _ Hl1) as (l2 & Hl2 & K2).
    exists l2. split; [exact Hl2|]. exact (licenseKept_trans _ _ _ K1 K2).
Qed.

Lemma license_terms_kept_witness :
  exists l',
    LicenseService.findUnique Samples.key
      (serveAll (fun _ => true) (fun _ => true) (fun _ => 0)
         [DeactivateLicense Samples.key; ValidateLicense 10 (Samples.request "m2");
          DeactivateDevice 11 Samples.key "m1"]
         (Samples.oneBound 2 true None))
    = Some l'
    /\ License.maxDevices l' = 2
    /\ License.isActive l' = false.
Proof.
  destruct (license_terms_kept (fun _ => true) (fun _ => true) (fun _ => 0)
              [ValidateLicense 10 (Samples.request "m2");
               DeactivateDevice 11 Samples.key "m1"]
              Samples.key
              (snd (LicenseService.deactivateLicense Samples.key
                      (Samples.oneBound 2 true None)))
              (Samples.license 2 false None) eq_refl)
    as (l' & Hl & _ & _ & _ & _ & Hq & _ & Ha).
  exists l'. split; [exact Hl|]. split; [exact Hq|]. now apply Ha.
Defined.

(** X17.  No call removes a release or rewrites its artifact: whatever
    calls are served, a release that was stored is still found under its
    version with the same id, build number, file and checksum; its
    download counter has not gone down and a withdrawn release is still
    withdrawn. *)
Theorem release_kept (isEmail existsSync : string -> bool) (size : string -> Z)
    (calls : list Call) (version : string) (s : Store) (u : Update.t) :
  UpdateService.findUnique version s = Some u ->
  exists u',
    UpdateService.findUnique version (serveAll isEmail existsSync size calls s) = Some u'
    /\ Update.id u' = Update.id u
    /\ Update.version u' = Update.version u
    /\ Update.buildNumber u' = Update.buildNumber u
    /\ Update.releaseType u' = Update.releaseType u
    /\ Update.filename u' = Update.filename u
    /\ Update.fileSize u' = Update.fileSize u
    /\ Update.checksum u' = Update.checksum u
    /\ Update.releaseNotes u' = Update.releaseNotes u
    /\ Update.forceUpdate u' = Update.forceUpdate u
    /\ Update.downloadCount u <= Update.downloadCount u'
    /\ (Update.isActive u = false -> Update.isActive u' = false).
Proof.
  revert s u. induction calls as [|c calls IH]; intros s u Hu.
  - exists u. split; [exact Hu|]. apply releaseKept_refl.
  - destruct (serve_keeps_release isEmail existsSync size c version s u Hu)
      as (u1 & Hu1 & K1).
    destruct (IH _ _ Hu1) as (u2 & Hu2 & K2).
    exists u2. split; [exact Hu2|]. exact (releaseKept_trans _ _ _ K1 K2).
Qed.

Lemma release_kept_witness :
  exists u',
    UpdateService.findUnique "1.0.11"
      (serveAll (fun _ => true) (fun _ => true) (fun _ => 0)
         [DownloadUpdate "1.0.11"; CheckForUpdate (Samples.check "darwin");
          DownloadUpdate "1.0.11"]
         Samples.releases)
    = Some u'
    /\ Update.buildNumber u' = 10011
    /\ 0 <= Update.downloadCount u'
    /\ Update.isActive u' = false.
Proof.
  destruct (release_kept (fun _ => true) (fun _ => true) (fun _ => 0)
              [DownloadUpdate "1.0.11"; CheckForUpdate (Samples.check "darwin");
               DownloadUpdate "1.0.11"]
              "1.0.11" Samples.releases (Samples.release 2 "1.0.11" 10011 false) eq_refl)
    as (u' & Hu & _ & _ & Hb & _ & _ & _ & _ & _ & _ & Hc & Ha).
  exists u'. split; [exact Hu|]. split; [exact Hb|]. split; [exact Hc|]. now apply Ha.
Defined.

(** ** The statistics of the license tables *)

Section LinkedFacts.

Import LicenseService.

Lemma linked_empty : linked emptyStore.
Proof. constructor. Qed.

Lemma linked_keep (s s' : Store) :
  map License.id (licenses s') = map License.id (licenses s) ->
  map LicenseActivation.licenseId (activations s')
  = map LicenseActivation.licenseId (activations s) ->
  linked s -> linked s'.
Proof. unfold linked. now intros -> ->. Qed.

Lemma linked_more (s s' : Store) (l : License.t) :
  licenses s' = licenses s ++ [l] ->
  activations s' = activations s ->
  linked s -> linked s'.
Proof.
  unfold linked. intros -> ->. apply Forall_impl. intros i Hi.
  rewrite map_app. apply in_or_app. now left.
Qed.

Lemma validateLicense_linked (now : Z) (d : ValidateLicenseDto) (s : Store) :
  linked s -> linked (snd (validateLicense now d s)).
Proof.
  intros Hs. unfold validateLicense.
  destruct (negb (LicenseKey.isValidLicenseKeyFormat (licenseKey d))); [exact Hs|].
  destruct (findUnique (licenseKey d) s) as [license|] eqn:Hl; [|exact Hs].
  destruct (negb (License.isActive license)); [exact Hs|].
  destruct (isExpired now license); [exact Hs|].
  destruct (find _ _) as [existing|].
  - simpl. apply (linked_keep s); [reflexivity| |exact Hs].
    simpl. now apply map_updateWhere_same.
  - destruct (_ >=? _); [exact Hs|]. unfold linked in *. simpl.
    rewrite (map_updateWhere_same License.id) by reflexivity.
    rewrite map_app. apply Forall_app. split; [exact Hs|].
    constructor; [|constructor]. simpl.
    apply in_map. now apply (findUnique_in (licenseKey d)).
Qed.

Lemma deactivateDevice_linked (now : Z) (key machine : string) (s : Store) :
  linked s -> linked (snd (deactivateDevice now key machine s)).
Proof.
  intros Hs. unfold deactivateDevice.
  destruct (findUnique key s) as [license|]; [|exact Hs].
  destruct (find _ _) as [activation|]; [|exact Hs].
  simpl. apply (linked_keep s); [| |exact Hs]; simpl; now apply map_updateWhere_same.
Qed.

Lemma deactivateLicense_linked (key : string) (s : Store) :
  linked s -> linked (snd (deactivateLicense key s)).
Proof.
  intros Hs. unfold deactivateLicense.
  destruct (findUnique key s) as [license|]; [|exact Hs].
  simpl. apply (linked_keep s); [|reflexivity|exact Hs].
  simpl. now apply map_updateWhere_same.
Qed.

Lemma serve_linked (isEmail existsSync : string -> bool) (size : string -> Z)
    (c : Call) (s : Store) :
  linked s -> linked (serve isEmail existsSync size c s).
Proof.
  intros Hs. destruct c; simpl.
  - unfold LicenseRoutes.createLicense.
    destruct (LicenseRoutes.createLicenseSchema isEmail b); [|exact Hs].
    unfold createLicense.
    destruct (findUnique (LicenseKey.generateLicenseKey r1 r2 r3) s); [exact Hs|].
    simpl. eapply linked_more; [| |exact Hs]; reflexivity.
  - now apply validateLicense_linked.
  - now apply deactivateLicense_linked.
  - now apply deactivateDevice_linked.
  - unfold UpdateService.createUpdate.
    destruct (UpdateService.findUnique (cu_version d) s); exact Hs.
  - unfold UpdateService.checkForUpdate.
    destruct (LicenseKey.versionToBuildNumber _); [exact Hs|].
    destruct (UpdateService.findFirst _ s); exact Hs.
  - unfold UpdateController.downloadUpdate, UpdateService.getUpdateByVersion,
      UpdateService.incrementDownloadCount.
    destruct (UpdateService.findUnique version s) as [v|]; [|exact Hs].
    destruct (existsSync (Update.filename v)); exact Hs.
  - unfold UpdateController.recordHistory, UpdateService.updateHistoryStatus.
    destruct status; try exact Hs;
      destruct (UpdateService.findLatest userId toVersion s); exact Hs.
  - unfold UpdateService.deactivateUpdate.
    destruct (UpdateService.findUnique version s); exact Hs.
Qed.

Lemma serveAll_linked (isEmail existsSync : string -> bool) (size : string -> Z)
    (calls : list Call) (s : Store) :
  linked s -> linked (serveAll isEmail existsSync size calls s).
Proof.
  revert s. induction calls as [|c calls IH]; intros s Hs; [exact Hs|].
  simpl. apply IH. now apply serve_linked.
Qed.

End LinkedFacts.

Section CountFacts.

Import LicenseService.

Lemma sumOf_map_add {A : Type} (f g : A -> Z) (l : list A) :
  sumOf (map (fun a => f a + g a) l) = sumOf (map f l) + sumOf (map g l).
Proof. induction l as [|a l IH]; simpl; [reflexivity|]. rewrite IH. lia. Qed.

Lemma sumOf_map_le {A : Type} (f g : A -> Z) (l : list A) :
  Forall (fun a => f a <= g a) l -> sumOf (map f l) <= sumOf (map g l).
Proof. induction 1 as [|a l Ha _ IH]; simpl; lia. Qed.

Lemma sumOf_zero {A : Type} (l : list A) : sumOf (map (fun _ => 0) l) = 0.
Proof. induction l as [|a l IH]; simpl; [reflexivity|]. rewrite IH. reflexivity. Qed.

Lemma sumOf_miss (k : nat) (b : bool) (ids : list nat) :
  ~ In k ids -> sumOf (map (fun i => if Nat.eqb k i && b then 1 else 0) ids) = 0.
Proof.
  induction ids as [|i ids IH]; simpl; intros Hk; [reflexivity|].
  destruct (Nat.eqb_spec k i) as [->|_]; [exfalso; apply Hk; now left|].
  simpl. apply IH. intros Hin. apply Hk. now right.
Qed.

Lemma sumOf_hit (k : nat) (b : bool) (ids : list nat) :
  NoDup ids -> In k ids ->
  sumOf (map (fun i => if Nat.eqb k i && b then 1 else 0) ids) = if b then 1 else 0.
Proof.
  induction 1 as [|i ids Hi Hnd IH]; simpl; intros Hk; [destruct Hk|].
  destruct (Nat.eqb_spec k i) as [->|Hne].
  - rewrite (sumOf_miss i b ids Hi). simpl. destruct b; reflexivity.
  - simpl. apply IH. destruct Hk as [->|Hk]; [congruence|exact Hk].
Qed.

(** Over distinct license ids that cover the slots, the active bindings
    of the licenses add up to the active slots. *)
Lemma sumOf_held (ids : list nat) (B : list (nat * string * bool)) :
  NoDup ids ->
  Forall (fun i => In i ids) (map (fun x : nat * string * bool => fst (fst x)) B) ->
  sumOf (map (fun i => held i B) ids)
  = Z.of_nat (List.length (filter (fun x : nat * string * bool => snd x) B)).
Proof.
  intros Hnd. induction B as [|x B IH]; intros Hin.
  - unfold held. simpl. apply sumOf_zero.
  - inversion Hin as [|k ks Hk Hrest]; subst.
    transitivity
      (sumOf (map (fun i => (if Nat.eqb (fst (fst x)) i && snd x then 1 else 0)
                            + held i B) ids)).
    { f_equal. apply map_ext. intros i. unfold held. cbn [filter].
      destruct (Nat.eqb (fst (fst x)) i && snd x); cbn [List.length]; lia. }
    rewrite sumOf_map_add, (IH Hrest), (sumOf_hit _ _ _ Hnd Hk).
    cbn [filter]. destruct (snd x); cbn [List.length]; lia.
Qed.

Lemma active_slots (s : Store) :
  List.length (filter (fun x : nat * string * bool => snd x) (slots s))
  = List.length (filter LicenseActivation.isActive (activations s)).
Proof.
  unfold slots. induction (activations s) as [|a l IH]; simpl; [reflexivity|].
  destruct (LicenseActivation.isActive a); simpl; now rewrite IH.
Qed.

Lemma countPlan_plans (plan q : string) (groups : list (string * Z)) :
  In q (map fst (countPlan plan groups)) <-> q = plan \/ In q (map fst groups).
Proof.
  induction groups as [|[p n] groups IH]; simpl.
  - split; [intros [<-|[]]; now left|intros [->|[]]; now left].
  - destruct (String.eqb_spec p plan) as [->|Hne]; simpl.
    + split; [intros [<-|H]; auto|intros [->|[<-|H]]; auto].
    + rewrite IH. split; [intros [<-|[->|H]]; auto|intros [->|[<-|H]]; auto].
Qed.

Lemma countPlan_distinct (plan : string) (groups : list (string * Z)) :
  NoDup (map fst groups) -> NoDup (map fst (countPlan plan groups)).
Proof.
  induction groups as [|[p n] groups IH]; simpl; intros Hnd.
  - repeat constructor. intros [].
  - inversion Hnd as [|x xs Hp Hrest]; subst.
    destruct (String.eqb_spec p plan) as [->|Hne]; simpl.
    + now constructor.
    + constructor; [|now apply IH].
      rewrite countPlan_plans. intros [->|Hin]; [now apply Hne|now apply Hp].
Qed.

Lemma countPlan_sum (plan : string) (groups : list (string * Z)) :
  sumOf (map snd (countPlan plan groups)) = sumOf (map snd groups) + 1.
Proof.
  induction groups as [|[p n] groups IH]; simpl; [reflexivity|].
  destruct (String.eqb p plan); simpl; [|rewrite IH]; lia.
Qed.

Lemma countPlan_positive (plan : string) (groups : list (string * Z)) :
  Forall (fun g => 1 <= snd g) groups ->
  Forall (fun g => 1 <= snd g) (countPlan plan groups).
Proof.
  induction 1 as [|[p n] groups Hn Hrest IH]; simpl.
  - repeat constructor. simpl. lia.
  - destruct (String.eqb p plan); constructor; simpl in *; try assumption; lia.
Qed.

Lemma groupByPlan_from (ls : list License.t) (groups : list (string * Z)) :
  NoDup (map fst groups) ->
  Forall (fun g => 1 <= snd g) groups ->
  let out := fold_left (fun groups l => countPlan (License.plan l) groups) ls groups in
  NoDup (map fst out)
  /\ Forall (fun g => 1 <= snd g) out
  /\ sumOf (map snd out) = sumOf (map snd groups) + Z.of_nat (List.length ls).
Proof.
  revert groups. induction ls as [|l ls IH]; intros groups Hnd Hpos.
  - simpl. repeat split; try assumption. lia.
  - cbn [fold_left].
    destruct (IH (countPlan (License.plan l) groups)
                (countPlan_distinct _ _ Hnd) (countPlan_positive _ _ Hpos))
      as (H1 & H2 & H3).
    repeat split; try assumption.
    rewrite H3, countPlan_sum. cbn [List.length]. lia.
Qed.

End CountFacts.

(** X18.  The statistics agree with the cached counters.  In every store
    the calls of the API lead to from a consistent one whose activations
    all belong to stored licenses (the empty store is one), the number of
    active activations that [getStatistics] reports is the sum of the
    [deviceCount] columns of the licenses and is at most the sum of their
    quotas; the active licenses are at most all licenses; the groups by
    plan have distinct plans, each counts at least one license, and their
    counts add up to the number of licenses. *)
Theorem statistics_agree_with_counters (isEmail existsSync : string -> bool)
    (size : string -> Z) (calls : list Call) (s0 : Store) :
  sound s0 -> linked s0 ->
  let s := serveAll isEmail existsSync size calls s0 in
  let stats := LicenseService.getStatistics s in
  LicenseService.totalActivations stats = sumOf (map License.deviceCount (licenses s))
  /\ LicenseService.totalActivations stats <= sumOf (map License.maxDevices (licenses s))
  /\ 0 <= LicenseService.activeLicenses stats <= LicenseService.totalLicenses stats
  /\ NoDup (map fst (LicenseService.licensesByPlan stats))
  /\ Forall (fun g => 1 <= snd g) (LicenseService.licensesByPlan stats)
  /\ sumOf (map snd (LicenseService.licensesByPlan stats))
     = LicenseService.totalLicenses stats.
Proof.
  intros Hs0 Hl0 s stats.
  pose proof (serveAll_sound isEmail existsSync size calls s0 Hs0) as Hs.
  pose proof (serveAll_linked isEmail existsSync size calls s0 Hl0) as Hl.
  fold s in Hs, Hl. subst stats. unfold LicenseService.getStatistics. simpl.
  destruct Hs as (H1 & _ & _ & _ & _ & _ & _ & _ & H9 & _).
  rewrite map_map in H1. change (fun x => factId (facts x)) with License.id in H1.
  assert (Hheld : sumOf (map (fun l => held (License.id l) (slots s)) (licenses s))
                  = Z.of_nat (List.length
                                (filter LicenseActivation.isActive (activations s)))).
  { rewrite <- active_slots, <- (sumOf_held (map License.id (licenses s))).
    - now rewrite map_map.
    - exact H1.
    - unfold slots. rewrite map_map. exact Hl. }
  apply Forall_map in H9.
  split; [|split; [|split; [|apply (groupByPlan_from (licenses s) [])]]].
  - rewrite <- Hheld. f_equal. apply map_ext_Forall.
    revert H9. apply Forall_impl. intros l [Hc _]. symmetry. exact Hc.
  - rewrite <- Hheld. apply sumOf_map_le.
    revert H9. apply Forall_impl. intros l [_ Hq]. exact Hq.
  - pose proof (filter_length_le License.isActive (licenses s)). lia.
  - constructor.
  - constructor.
Qed.

Lemma statistics_agree_with_counters_witness :
  LicenseService.totalActivations
    (LicenseService.getStatistics
       (serveAll (fun _ => true) (fun _ => true) (fun _ => 0) Samples.session emptyStore))
  = sumOf (map License.deviceCount
             (licenses (serveAll (fun _ => true) (fun _ => true) (fun _ => 0)
                          Samples.session emptyStore))).
Proof.
  exact (proj1 (statistics_agree_with_counters (fun _ => true) (fun _ => true)
                  (fun _ => 0) Samples.session emptyStore sound_empty linked_empty)).
Defined.

(** ** The token of a request *)

Section TokenFacts.

Import Auth.

Lemma split_nonempty (h : string) : split h <> [].
Proof.
  destruct h as [|c h]; simpl; [discriminate|].
  destruct (Ascii.eqb c " "); [discriminate|]. destruct (split h); discriminate.
Qed.

Lemma split_one (h b : string) : split h = [b] -> h = b /\ noSpace h = true.
Proof.
  revert b. induction h as [|c h IH]; simpl; intros b Hs.
  - injection Hs as <-. auto.
  - destruct (Ascii.eqb c " ") eqn:Hc.
    + injection Hs as _ Hs. now apply split_nonempty in Hs.
    + destruct (split h) as [|p ps] eqn:Hh; [now apply split_nonempty in Hh|].
      injection Hs as <- ->. destruct (IH p eq_refl) as [-> Hn].
      unfold noSpace in *. simpl. rewrite Hc. auto.
Qed.

Lemma split_two (h a b : string) :
  split h = [a; b] -> h = String.append a (String " " b) /\ noSpace b = true.
Proof.
  revert a. induction h as [|c h IH]; simpl; intros a Hs; [discriminate|].
  destruct (Ascii.eqb_spec c " ") as [->|_].
  - injection Hs as <- Hs. destruct (split_one h b Hs) as [-> Hn]. auto.
  - destruct (split h) as [|p ps] eqn:Hh; [discriminate|].
    injection Hs as <- ->. destruct (IH p eq_refl) as [-> Hn]. auto.
Qed.

Lemma split_noSpace (t : string) : noSpace t = true -> split t = [t].
Proof.
  unfold noSpace. induction t as [|c t IH]; simpl; [reflexivity|].
  intros H. apply andb_true_iff in H as [Hc Ht].
  apply negb_true_iff in Hc. rewrite Hc, (IH Ht). reflexivity.
Qed.

Lemma extractToken_some (req : AuthRequest) (token : string) :
  extractToken req = Some token ->
  authorization req = Some (bearer token) /\ noSpace token = true.
Proof.
  unfold extractToken. destruct (authorization req) as [h|]; [|discriminate].
  destruct (String.eqb h ""); [discriminate|].
  destruct (split h) as [|scheme [|t [|x rest]]] eqn:Hs; try discriminate.
  destruct (String.eqb_spec scheme "Bearer") as [->|_]; [|discriminate].
  intros [= ->]. destruct (split_two h _ _ Hs) as [-> Hn]. auto.
Qed.

Lemma extractToken_bearer (req : AuthRequest) (token : string) :
  authorization req = Some (bearer token) -> noSpace token = true ->
  extractToken req = Some token.
Proof.
  intros Hh Hn. unfold extractToken. rewrite Hh. unfold bearer. simpl.
  rewrite (split_noSpace token Hn). reflexivity.
Qed.

Lemma authenticate_passes (verify : string -> option JwtPayload.t)
    (req req' : AuthRequest) :
  authenticate verify req = inl req'
  <-> exists token payload,
        authorization req = Some (bearer token)
        /\ token <> ""%string /\ noSpace token = true
        /\ verify token = Some payload
        /\ req' = withAdmin payload req.
Proof.
  unfold authenticate, verifyToken. split.
  - destruct (extractToken req) as [token|] eqn:Ht; [|discriminate].
    apply extractToken_some in Ht as [Hh Hn].
    destruct (String.eqb_spec token "") as [He|Hne]; [discriminate|].
    destruct (verify token) as [payload|] eqn:Hv; [|discriminate].
    intros [= <-]. exists token, payload. auto.
  - intros (token & payload & Hh & Hne & Hn & Hv & ->).
    rewrite (extractToken_bearer req token Hh Hn).
    destruct (String.eqb_spec token ""); [contradiction|]. now rewrite Hv.
Qed.

Lemma optionalAuth_authenticate (verify : string -> option JwtPayload.t)
    (req : AuthRequest) :
  optionalAuth verify req
  = match authenticate verify req with
    | inl req' => next req'
    | inr _ => next req
    end.
Proof.
  unfold optionalAuth, authenticate, verifyToken.
  destruct (extractToken req) as [token|]; [|reflexivity].
  destruct (String.eqb token ""); [reflexivity|].
  destruct (verify token); reflexivity.
Qed.

Lemma includes_In (r : string) (roles : list string) :
  existsb (String.eqb r) roles = true <-> In r roles.
Proof.
  rewrite existsb_exists. split.
  - intros (x & Hx & Heq). apply String.eqb_eq in Heq. now subst.
  - intros Hin. exists r. split; [exact Hin|apply String.eqb_refl].
Qed.

End TokenFacts.

(** X19.  [extractToken] returns a token exactly for a header that reads
    [Bearer], one space, and a token without a space; the token may be
    empty.  A missing header, another scheme, a second space or a
    different case of [Bearer] gives no token. *)
Theorem extractToken_shape (req : Auth.AuthRequest) (token : string) :
  Auth.extractToken req = Some token
  <-> Auth.authorization req = Some (bearer token) /\ noSpace token = true.
Proof.
  split; [apply extractToken_some|]. intros [Hh Hn]. now apply extractToken_bearer.
Qed.

(** X20.  [requireAuth] lets a request pass exactly when its header is
    [Bearer token] with a non-empty token without spaces that [jwt.verify]
    accepts, and then attaches the verified payload.  Every other request
    is handed on with [UnauthorizedError('Invalid or expired token')]: the
    message ['No token provided'] never leaves the middleware.
    [optionalAuth] never hands on an error; it attaches the payload in
    exactly the cases in which [requireAuth] passes and leaves the request
    as it was in the others.  After [requireAuth], [requireRole] passes
    exactly when the role of the verified payload is among the roles, and
    answers [ForbiddenError] otherwise. *)
Theorem requireAuth_passes_iff (verify : string -> option JwtPayload.t)
    (req : Auth.AuthRequest) :
  (forall req',
      Auth.requireAuth verify req = Auth.next req'
      <-> exists token payload,
            Auth.authorization req = Some (bearer token)
            /\ token <> ""%string /\ noSpace token = true
            /\ verify token = Some payload
            /\ req' = Auth.withAdmin payload req)
  /\ (forall e,
         Auth.requireAuth verify req = Auth.nextError e ->
         e = Auth.UnauthorizedError "Invalid or expired token")
  /\ (forall req',
         Auth.requireAuth verify req = Auth.next req' ->
         Auth.optionalAuth verify req = Auth.next req')
  /\ (forall e,
         Auth.requireAuth verify req = Auth.nextError e ->
         Auth.optionalAuth verify req = Auth.next req)
  /\ (forall roles req',
         Auth.andThen (Auth.requireAuth verify) (Auth.requireRole roles) req
         = Auth.next req'
         <-> exists payload,
               Auth.requireAuth verify req = Auth.next req'
               /\ Auth.admin req' = Some payload
               /\ In (JwtPayload.role payload) roles)
  /\ (forall roles req',
         Auth.requireAuth verify req = Auth.next req' ->
         Auth.andThen (Auth.requireAuth verify) (Auth.requireRole roles) req
         <> Auth.next req' ->
         Auth.andThen (Auth.requireAuth verify) (Auth.requireRole roles) req
         = Auth.nextError (Auth.ForbiddenError "Insufficient permissions")).
Proof.
  unfold Auth.andThen, Auth.requireAuth. rewrite optionalAuth_authenticate.
  destruct (Auth.authenticate verify req) as [r|e0] eqn:Ha.
  - assert (Hadmin : exists payload, Auth.admin r = Some payload).
    { apply authenticate_passes in Ha as (token & payload & _ & _ & _ & _ & ->).
      now exists payload. }
    destruct Hadmin as (payload & Hp).
    split; [|split; [|split; [|split; [|split]]]].
    + intros req'. rewrite <- authenticate_passes, Ha. split; congruence.
    + discriminate.
    + auto.
    + discriminate.
    + intros roles req'. unfold Auth.requireRole. rewrite Hp. split.
      * destruct (existsb _ roles) eqn:Hr; [|discriminate].
        intros [= <-]. exists payload. repeat split; [exact Hp|].
        now apply includes_In.
      * intros (p & [= <-] & Hp' & Hin). rewrite Hp in Hp'. injection Hp' as <-.
        apply includes_In in Hin. now rewrite Hin.
    + intros roles req' [= <-]. unfold Auth.requireRole. rewrite Hp.
      destruct (existsb _ roles); [congruence|reflexivity].
  - split; [|split; [|split; [|split; [|split]]]].
    + intros req'. rewrite <- authenticate_passes, Ha. split; congruence.
    + now intros e [= <-].
    + discriminate.
    + reflexivity.
    + intros roles req'. split; [discriminate|]. intros (p & Hp & _). discriminate Hp.
    + discriminate.
Qed.

(** ** The route [POST /validate] *)

Section RouteFacts.

Import LicenseService.

Lemma validateLicense_valid_bound (now : Z) (d : ValidateLicenseDto) (s : Store) :
  valid (fst (validateLicense now d s)) = true ->
  exists license,
    findUnique (licenseKey d) s = Some license
    /\ License.isActive license = true
    /\ boundTo license (machineId d) (snd (validateLicense now d s)).
Proof.
  unfold validateLicense.
  destruct (negb (LicenseKey.isValidLicenseKeyFormat (licenseKey d))); [discriminate|].
  destruct (findUnique (licenseKey d) s) as [license|]; [|discriminate].
  destruct (License.isActive license) eqn:Hact; [|discriminate]. simpl negb. cbv iota.
  destruct (isExpired now license); [discriminate|].
  destruct (find _ _) as [existing|] eqn:Hf.
  - intros _. exists license. split; [reflexivity|]. split; [exact Hact|]. simpl snd.
    apply boundTo_slots. rewrite slots_refresh. apply boundTo_slots.
    apply find_some in Hf as [Hin Hsame]. apply filter_In in Hin as [Hin Hlid].
    apply andb_true_iff in Hlid as [Hlid _]. apply Nat.eqb_eq in Hlid.
    apply andb_true_iff in Hsame as [Hm Ha]. apply String.eqb_eq in Hm.
    exists existing. auto.
  - destruct (_ >=? _); [discriminate|].
    intros _. exists license. split; [reflexivity|]. split; [exact Hact|]. simpl snd.
    apply boundTo_slots. unfold slots. simpl. rewrite map_app. apply in_or_app.
    right. now left.
Qed.

Lemma validateLicense_refused_same (now : Z) (d : ValidateLicenseDto) (s : Store) :
  valid (fst (validateLicense now d s)) = false -> snd (validateLicense now d s) = s.
Proof.
  unfold validateLicense.
  destruct (negb (LicenseKey.isValidLicenseKeyFormat (licenseKey d))); [reflexivity|].
  destruct (findUnique (licenseKey d) s) as [license|]; [|reflexivity].
  destruct (negb (License.isActive license)); [reflexivity|].
  destruct (isExpired now license); [reflexivity|].
  destruct (find _ _) as [existing|]; [discriminate|].
  destruct (_ >=? _); [reflexivity|discriminate].
Qed.

Lemma given_spec (field : LicenseRoutes.Field) :
  LicenseRoutes.given field = true
  <-> exists v, field = LicenseRoutes.text v /\ v <> ""%string.
Proof.
  unfold LicenseRoutes.given. destruct field as [|v|].
  - split; [discriminate|]. intros (v & Hv & _). discriminate Hv.
  - destruct (String.eqb_spec v "") as [->|Hne]; simpl.
    + split; [discriminate|]. intros (v & [= <-] & Hv). now destruct Hv.
    + split; [|reflexivity]. intros _. now exists v.
  - split; [discriminate|]. intros (v & Hv & _). discriminate Hv.
Qed.

Lemma optionalString_spec (field : LicenseRoutes.Field) :
  LicenseRoutes.optionalString field = true <-> field <> LicenseRoutes.other.
Proof. destruct field; simpl; split; congruence. Qed.

(** The schema lets a body pass exactly when the two required fields are
    strings that are not empty and no optional field is of another type. *)
Lemma validateLicenseSchema_passes (b : LicenseRoutes.ValidateLicenseBody) :
  LicenseRoutes.validateLicenseSchema b = []
  <-> (exists key machine,
         LicenseRoutes.license_key b = LicenseRoutes.text key /\ key <> ""%string
         /\ LicenseRoutes.machine_id b = LicenseRoutes.text machine
         /\ machine <> ""%string)
      /\ LicenseRoutes.device_name b <> LicenseRoutes.other
      /\ LicenseRoutes.os_version b <> LicenseRoutes.other
      /\ LicenseRoutes.app_version b <> LicenseRoutes.other.
Proof.
  unfold LicenseRoutes.validateLicenseSchema.
  rewrite <- !optionalString_spec.
  destruct (LicenseRoutes.given (LicenseRoutes.license_key b)) eqn:Hk;
    [|split; [discriminate|];
      intros ((key & machine & Hk1 & Hk2 & _) & _);
      assert (LicenseRoutes.given (LicenseRoutes.license_key b) = true)
        by (apply given_spec; now exists key); congruence].
  destruct (LicenseRoutes.given (LicenseRoutes.machine_id b)) eqn:Hm;
    [|split; [discriminate|];
      intros ((key & machine & _ & _ & Hm1 & Hm2) & _);
      assert (LicenseRoutes.given (LicenseRoutes.machine_id b) = true)
        by (apply given_spec; now exists machine); congruence].
  apply given_spec in Hk as (key & Hk & Hkey), Hm as (machine & Hm & Hmachine).
  destruct (LicenseRoutes.optionalString (LicenseRoutes.device_name b));
    [|split; [discriminate|intros (_ & H & _); discriminate H]].
  destruct (LicenseRoutes.optionalString (LicenseRoutes.os_version b));
    [|split; [discriminate|intros (_ & _ & H & _); discriminate H]].
  destruct (LicenseRoutes.optionalString (LicenseRoutes.app_version b));
    [|split; [discriminate|intros (_ & _ & _ & H); discriminate H]].
  simpl. split; [|reflexivity]. intros _.
  split; [now exists key, machine|auto].
Qed.

End RouteFacts.

(** X21.  The route [POST /validate] has three outcomes.  A body is
    refused by the schema with [BadRequestError], before the service is
    called and with the store left as it was, exactly when [license_key]
    or [machine_id] is missing, not a string or empty, or [device_name],
    [os_version] or [app_version] is present and not a string.  Every
    other body is answered with status 200 or 400: 200 exactly when the
    answer says [valid], and then the key is that of a stored, active
    license of which the machine holds an active activation afterwards;
    400 leaves the store as it was. *)
Theorem validate_route_outcomes (now : Z) (b : LicenseRoutes.ValidateLicenseBody)
    (s : Store) :
  ((exists e, fst (LicenseRoutes.validate now b s) = Threw e)
   <-> ~ ((exists key machine,
             LicenseRoutes.license_key b = LicenseRoutes.text key /\ key <> ""%string
             /\ LicenseRoutes.machine_id b = LicenseRoutes.text machine
             /\ machine <> ""%string)
          /\ LicenseRoutes.device_name b <> LicenseRoutes.other
          /\ LicenseRoutes.os_version b <> LicenseRoutes.other
          /\ LicenseRoutes.app_version b <> LicenseRoutes.other))
  /\ (forall e,
         fst (LicenseRoutes.validate now b s) = Threw e ->
         (exists issues, e = BadRequestError (ValidationFailed issues) /\ issues <> [])
         /\ snd (LicenseRoutes.validate now b s) = s)
  /\ (forall r,
         fst (LicenseRoutes.validate now b s) = Returned r ->
         (LicenseRoutes.status r = 200 /\ valid (LicenseRoutes.json r) = true
          \/ LicenseRoutes.status r = 400 /\ valid (LicenseRoutes.json r) = false)
         /\ (LicenseRoutes.status r = 400 -> snd (LicenseRoutes.validate now b s) = s)
         /\ (LicenseRoutes.status r = 200 ->
             exists key machine license,
               LicenseRoutes.license_key b = LicenseRoutes.text key
               /\ LicenseRoutes.machine_id b = LicenseRoutes.text machine
               /\ machine <> ""%string
               /\ LicenseService.findUnique key s = Some license
               /\ License.isActive license = true
               /\ boundTo license machine (snd (LicenseRoutes.validate now b s)))).
Proof.
  pose proof (validateLicenseSchema_passes b) as Hpass.
  unfold LicenseRoutes.validate.
  destruct (LicenseRoutes.validateLicenseSchema b) as [|issue issues].
  - destruct (proj1 Hpass eq_refl)
      as ((key & machine & Hk & Hkey & Hm & Hmachine) & Hrest).
    rewrite Hk, Hm.
    set (d := mkValidateLicenseDto key machine _ _ _).
    pose proof (validateLicense_valid_bound now d s) as Hbound.
    pose proof (validateLicense_refused_same now d s) as Hsame.
    destruct (LicenseService.validateLicense now d s) as [result s'].
    simpl in *. split; [|split].
    + split; [intros (e & He); discriminate He|].
      intros Hn. exfalso. apply Hn. split; [now exists key, machine|exact Hrest].
    + discriminate.
    + intros r [= <-]. simpl.
      destruct (valid result) eqn:Hv; (split; [|split]); auto; try discriminate.
      intros _. destruct (Hbound eq_refl) as (license & Hl & Ha & Hb).
      now exists key, machine, license.
  - simpl. split; [|split].
    + split; [|intros _; eexists; reflexivity].
      intros _ H. apply Hpass in H. discriminate H.
    + intros e [= <-]. split; [|reflexivity]. eexists. split; [reflexivity|discriminate].
    + discriminate.
Qed.
